(** * Financial-analysis: the DCF valuation core

    A shallow embedding of [src/dcf_model.py], of the signal, the row
    construction and the row-building loop of [src/valuation.py], and of
    the record construction of [src/data_fetcher.py] from what Yahoo
    Finance answered, with the properties proved on them.  The network
    calls, the HTML parsing and the pandas sort and output are not part of
    it.

    Python floats are read as real numbers ([R]): the arithmetic is exact,
    so rounding error and the special values [inf] and [nan] are outside
    the model.  What Python raises is kept: true division by zero
    ([ZeroDivisionError]), indexing an empty list ([IndexError]), a power
    [x ** t] beyond the largest float ([OverflowError]; a power below the
    smallest float is [0.0], and the division by it raises), a negative
    or an oversized [time.sleep] ([ValueError], [OverflowError]).  Every
    [/], [**] and subscript of the source goes through the error monad
    below, whatever guard the source puts before it.  The thresholds of
    [**] are those of the exact power: a float power within rounding of a
    threshold may fall on its other side, so the properties that say
    whether a call returns or raises keep clear of the thresholds. *)

From Stdlib Require Import Reals Lra Lia ZArith List String Bool Zfloor.
Import ListNotations.
Open Scope R_scope.

(** ** The Python operations the program uses *)

Module Py.

Inductive exn : Type :=
| ZeroDivisionError
| IndexError
| OverflowError
| ValueError
| ComplexResult.   (* float ** float left the reals: Python answers a complex *)

Inductive result (A : Type) : Type :=
| Ok (a : A)
| Raise (e : exn).
Arguments Ok {A} a.
Arguments Raise {A} e.

Definition ret {A : Type} (a : A) : result A := Ok a.

Definition bind {A B : Type} (c : result A) (k : A -> result B) : result B :=
  match c with
  | Ok a => k a
  | Raise e => Raise e
  end.

(** Comparisons of floats, as booleans. *)
Definition float_gt (x y : R) : bool := if Rlt_dec y x then true else false.
Definition float_ge (x y : R) : bool := if Rle_dec y x then true else false.
Definition float_lt (x y : R) : bool := float_gt y x.
Definition float_le (x y : R) : bool := float_ge y x.
Definition float_eq (x y : R) : bool := if Req_dec_T x y then true else false.

(** [x / y] on floats. *)
Definition truediv (x y : R) : result R :=
  if float_eq y 0 then Raise ZeroDivisionError else Ok (x / y).

(** The largest float ([sys.float_info.max]), and half the smallest
    positive one: a magnitude at most that small rounds to [0.0]. *)
Definition FLOAT_MAX : R := IZR (2 ^ 1024 - 2 ^ 971).
Definition FLOAT_UNDERFLOW : R := / IZR (2 ^ 1075).

(** [x ** t] for a float [x] and a non-negative int [t]: [OverflowError]
    when the power is beyond the largest float, [0.0] when it underflows. *)
Definition pow_int (x : R) (t : nat) : result R :=
  let p := x ^ t in
  if float_gt (Rabs p) FLOAT_MAX then Raise OverflowError
  else if float_le (Rabs p) FLOAT_UNDERFLOW then Ok 0
  else Ok p.

(** [x ** y] for two floats. *)
Definition pow_float (x y : R) : result R :=
  if float_gt x 0 then Ok (Rpower x y)
  else if float_eq x 0 then
    if float_lt y 0 then Raise ZeroDivisionError
    else if float_eq y 0 then Ok 1 else Ok 0
  else if float_eq (IZR (Zfloor y)) y then Ok (powerRZ x (Zfloor y))
  else Raise ComplexResult.

(** [max(a, b)] and [min(a, b)] on floats: the first argument unless the
    second is strictly beyond it. *)
Definition max (a b : R) : R := if float_gt b a then b else a.
Definition min (a b : R) : R := if float_lt b a then b else a.

(** Nearest integer, ties to the even one. *)
Definition round_half_even (y : R) : Z :=
  let f := Zfloor y in
  let r := y - IZR f in
  if float_lt r (1 / 2) then f
  else if float_gt r (1 / 2) then (f + 1)%Z
  else if Z.even f then f else (f + 1)%Z.

(** [round(x, ndigits)] for a float [x] and [ndigits >= 0]: a float. *)
Definition round (x : R) (ndigits : nat) : R :=
  IZR (round_half_even (x * 10 ^ ndigits)) / 10 ^ ndigits.

(** [l[-k:]] for [k > 0]: the last [k] elements, all of [l] when shorter. *)
Definition last_slice {A : Type} (l : list A) (k : nat) : list A :=
  skipn (List.length l - k) l.

(** [l[0]] and [l[-1]]. *)
Definition first {A : Type} (l : list A) : result A :=
  match l with
  | [] => Raise IndexError
  | a :: _ => Ok a
  end.

Fixpoint last {A : Type} (l : list A) : result A :=
  match l with
  | [] => Raise IndexError
  | [a] => Ok a
  | _ :: l' => last l'
  end.

(** [len(l)] as an int, and as the float it is converted to in [/]. *)
Definition len {A : Type} (l : list A) : Z := Z.of_nat (List.length l).

(** [zip(l[:-1], l[1:])]: the adjacent pairs. *)
Definition adjacent {A : Type} (l : list A) : list (A * A) :=
  combine (removelast l) (tl l).

(** [sum(l)] of floats. *)
Definition sum (l : list R) : R := fold_left Rplus l 0.

(** [range(1, n + 1)]. *)
Definition range1 (n : Z) : list Z := map Z.of_nat (seq 1 (Z.to_nat n)).

(** [d.get(key, default)]. *)
Definition get {A : Type} (field : option A) (default : A) : A :=
  match field with
  | Some a => a
  | None => default
  end.

(** [time.sleep(secs)]: the delay is first converted to a number of
    nanoseconds on 64 bits, then refused when negative. *)
Definition sleep (secs : R) : result unit :=
  if float_ge (Rabs secs * 10 ^ 9) (2 ^ 63) then Raise OverflowError
  else if float_lt secs 0 then Raise ValueError
  else Ok tt.

End Py.

Import Py.

Declare Scope py_scope.
Delimit Scope py_scope with py.
Notation "x <- c ;; k" := (bind c (fun x => k))
  (at level 61, c at next level, right associativity) : py_scope.
Open Scope py_scope.

(** ** [src/dcf_model.py] *)

Definition RISK_FREE_RATE : R := 0.045.
Definition EQUITY_RISK_PREMIUM : R := 0.055.
Definition LONG_TERM_GROWTH_RATE : R := 0.025.
Definition FCF_EXIT_MULTIPLE : R := 20.
Definition PROJECTION_YEARS : Z := 7.
Definition MAX_INITIAL_GROWTH : R := 0.30.
Definition MIN_INITIAL_GROWTH : R := -0.20.

Definition _clamp (value low high : R) : R := Py.max low (Py.min high value).

(** The loop of [calculate_historical_growth_rate] over
    [zip(fcf[:-1], fcf[1:])], appending to [yoy_rates]. *)
Fixpoint yoy_loop (pairs : list (R * R)) (yoy_rates : list R) : result (list R) :=
  match pairs with
  | [] => ret yoy_rates
  | (prev, curr) :: rest =>
      if float_gt prev 0 && float_gt curr 0 then
        q <- truediv curr prev ;;
        yoy_loop rest (yoy_rates ++ [q - 1])
      else yoy_loop rest yoy_rates
  end.

Definition calculate_historical_growth_rate (historical_fcf : list R) : result R :=
  if (len historical_fcf <? 2)%Z then ret 0.05
  else
    let fcf := last_slice historical_fcf 5 in
    first <- Py.first fcf ;;
    last <- Py.last fcf ;;
    let n := (len fcf - 1)%Z in
    if float_gt first 0 && float_gt last 0 && (0 <? n)%Z then
      ratio <- truediv last first ;;
      e <- truediv 1 (IZR n) ;;
      p <- pow_float ratio e ;;
      let cagr := p - 1 in
      ret (_clamp cagr MIN_INITIAL_GROWTH MAX_INITIAL_GROWTH)
    else
      yoy_rates <- yoy_loop (adjacent fcf) [] ;;
      match yoy_rates with
      | _ :: _ =>
          avg_rate <- truediv (sum yoy_rates) (IZR (len yoy_rates)) ;;
          ret (_clamp avg_rate MIN_INITIAL_GROWTH MAX_INITIAL_GROWTH)
      | [] => ret 0.03
      end.

Definition calculate_wacc (beta market_cap total_debt interest_expense tax_rate
                           risk_free_rate equity_risk_premium : R) : result R :=
  let cost_of_equity := risk_free_rate + beta * equity_risk_premium in
  cost_of_debt <-
    (if float_gt total_debt 0 && float_gt interest_expense 0 then
       cost_of_debt <- truediv interest_expense total_debt ;;
       ret (_clamp cost_of_debt 0.01 0.20)
     else ret (risk_free_rate + 0.015)) ;;
  let after_tax_cost_of_debt := cost_of_debt * (1 - tax_rate) in
  let total_capital := market_cap + total_debt in
  if float_le total_capital 0 then ret cost_of_equity
  else
    equity_weight <- truediv market_cap total_capital ;;
    debt_weight <- truediv total_debt total_capital ;;
    let wacc := equity_weight * cost_of_equity + debt_weight * after_tax_cost_of_debt in
    ret (_clamp wacc 0.04 0.25).

(** The loop of [project_free_cash_flows] over [range(1, years + 1)]. *)
Fixpoint project_loop (ts : list Z) (years : Z)
    (initial_growth_rate long_term_growth_rate current_fcf : R)
    (projected : list R) : result (list R) :=
  match ts with
  | [] => ret projected
  | t :: rest =>
      fade_factor <- truediv (IZR (t - 1)) (IZR (Z.max (years - 1) 1)) ;;
      let growth := initial_growth_rate
                    + fade_factor * (long_term_growth_rate - initial_growth_rate) in
      let current_fcf := current_fcf * (1 + growth) in
      project_loop rest years initial_growth_rate long_term_growth_rate
        current_fcf (projected ++ [current_fcf])
  end.

Definition project_free_cash_flows (base_fcf initial_growth_rate : R) (years : Z)
    (long_term_growth_rate : R) : result (list R) :=
  project_loop (range1 years) years initial_growth_rate long_term_growth_rate
    base_fcf [].

Definition calculate_terminal_value (terminal_fcf wacc long_term_growth_rate
                                     exit_multiple : R) : result R :=
  let spread := wacc - long_term_growth_rate in
  let spread := if float_le spread 0.001 then 0.001 else spread in
  tv_perpetuity <- truediv (terminal_fcf * (1 + long_term_growth_rate)) spread ;;
  let tv_exit_multiple := terminal_fcf * exit_multiple in
  truediv (tv_perpetuity + tv_exit_multiple) 2.

(** The loop of [discount_cash_flows] over [enumerate(cash_flows, start=1)];
    [t] is the current index. *)
Fixpoint discount_loop (cash_flows : list R) (t : nat) (wacc pv_sum : R) : result R :=
  match cash_flows with
  | [] => ret pv_sum
  | cf :: rest =>
      factor <- pow_int (1 + wacc) t ;;
      q <- truediv cf factor ;;
      discount_loop rest (S t) wacc (pv_sum + q)
  end.

Definition discount_cash_flows (cash_flows : list R) (terminal_value wacc : R)
  : result R :=
  pv_sum <- discount_loop cash_flows 1 wacc 0 ;;
  let n := List.length cash_flows in
  factor <- pow_int (1 + wacc) n ;;
  q <- truediv terminal_value factor ;;
  ret (pv_sum + q).

(** The dict built by [data_fetcher.fetch_company_data].  The keys that
    [calculate_intrinsic_value] reads with [.get] may be absent; the keys it
    subscripts are fields of the record.  A name or a sector that is
    present is a string or [None], as Yahoo Finance had it.  ([revenue] is
    never read.) *)
Module CompanyData.
Record t : Type := mk {
  ticker : option string;
  name : option (option string);
  sector : option (option string);
  current_price : R;
  shares_outstanding : R;
  historical_fcf : option (list R);
  beta : R;
  market_cap : R;
  total_debt : R;
  interest_expense : R;
  tax_rate : R
}.
End CompanyData.

(** The dict returned by [calculate_intrinsic_value] and read by
    [build_valuation_row], which reads [wacc] and [fcf_growth_rate] with
    [.get]. *)
Module Valuation.
Record t : Type := mk {
  ticker : string;
  name : option string;       (* a string or [None] *)
  sector : option string;
  current_price : R;
  intrinsic_value : R;
  wacc : option R;
  fcf_growth_rate : option R;
  base_fcf : R;
  shares_outstanding : R
}.
End Valuation.

Definition calculate_intrinsic_value (company_data : CompanyData.t)
  : result (option Valuation.t) :=
  let ticker := get (CompanyData.ticker company_data) "UNKNOWN"%string in
  let historical_fcf := get (CompanyData.historical_fcf company_data) [] in
  match historical_fcf with
  | [] => ret None
  | _ :: _ =>
      base_fcf <- Py.last historical_fcf ;;
      if float_eq base_fcf 0 then ret None
      else
        growth_rate <- calculate_historical_growth_rate historical_fcf ;;
        let growth_rate :=
          if float_lt base_fcf 0 then Py.max growth_rate 0.05 else growth_rate in
        wacc <- calculate_wacc
                  (CompanyData.beta company_data)
                  (CompanyData.market_cap company_data)
                  (CompanyData.total_debt company_data)
                  (CompanyData.interest_expense company_data)
                  (CompanyData.tax_rate company_data)
                  RISK_FREE_RATE EQUITY_RISK_PREMIUM ;;
        projected_fcf <- project_free_cash_flows base_fcf growth_rate
                           PROJECTION_YEARS LONG_TERM_GROWTH_RATE ;;
        terminal_fcf <- Py.last projected_fcf ;;
        terminal_value <- calculate_terminal_value terminal_fcf wacc
                            LONG_TERM_GROWTH_RATE FCF_EXIT_MULTIPLE ;;
        equity_value <- discount_cash_flows projected_fcf terminal_value wacc ;;
        let net_debt := CompanyData.total_debt company_data in
        let equity_value_adjusted := equity_value - net_debt in
        let shares := CompanyData.shares_outstanding company_data in
        if float_le shares 0 then ret None
        else
          intrinsic_value_per_share <- truediv equity_value_adjusted shares ;;
          ret (Some {|
            Valuation.ticker := ticker;
            Valuation.name := get (CompanyData.name company_data) (Some ticker);
            Valuation.sector :=
              get (CompanyData.sector company_data) (Some "Unknown"%string);
            Valuation.current_price := CompanyData.current_price company_data;
            Valuation.intrinsic_value := round intrinsic_value_per_share 2;
            Valuation.wacc := Some (round wacc 4);
            Valuation.fcf_growth_rate := Some (round growth_rate 4);
            Valuation.base_fcf := round base_fcf 0;
            Valuation.shares_outstanding := shares
          |})
  end.

(** ** [src/valuation.py] *)

Definition BUY_THRESHOLD : R := 0.15.
Definition SELL_THRESHOLD : R := -0.15.

Definition generate_signal (upside_pct : R) : string :=
  if float_ge upside_pct BUY_THRESHOLD then "Buy"%string
  else if float_le upside_pct SELL_THRESHOLD then "Sell"%string
  else "Hold"%string.

(** The row dict of [build_valuation_row]; a field per column. *)
Module Row.
Record t : Type := mk {
  Ticker : string;
  Company : option string;
  Sector : option string;
  Current_Price : R;          (* "Current Price ($)" *)
  Intrinsic_Value : R;        (* "Intrinsic Value ($)" *)
  Pct_Upside_Downside : R;    (* "% Upside/Downside" *)
  Valuation_Signal : string;  (* "Valuation Signal" *)
  WACC_Pct : R;               (* "WACC (%)" *)
  FCF_Growth_Rate_Pct : R     (* "FCF Growth Rate (%)" *)
}.
End Row.

Definition build_valuation_row (valuation : Valuation.t) : result (option Row.t) :=
  let current_price := Valuation.current_price valuation in
  let intrinsic_value := Valuation.intrinsic_value valuation in
  if float_le current_price 0 then ret None
  else
    upside_pct <- truediv (intrinsic_value - current_price) current_price ;;
    let signal := generate_signal upside_pct in
    ret (Some {|
      Row.Ticker := Valuation.ticker valuation;
      Row.Company := Valuation.name valuation;
      Row.Sector := Valuation.sector valuation;
      Row.Current_Price := round current_price 2;
      Row.Intrinsic_Value := round intrinsic_value 2;
      Row.Pct_Upside_Downside := round (upside_pct * 100) 1;
      Row.Valuation_Signal := signal;
      Row.WACC_Pct := round (get (Valuation.wacc valuation) 0 * 100) 2;
      Row.FCF_Growth_Rate_Pct :=
        round (get (Valuation.fcf_growth_rate valuation) 0 * 100) 2
    |}).

(** Step 2 of [run_valuation], over the list [fetch_sp500_data] returned:
    the rows of the companies that have a valuation and a row, in input
    order.  Neither call is inside a [try]: an exception leaves the loop
    and [run_valuation] with it.  (Step 3 hands the rows to pandas, which
    sorts them.) *)
Fixpoint run_valuation_rows (company_data_list : list CompanyData.t)
    (rows : list Row.t) : result (list Row.t) :=
  match company_data_list with
  | [] => ret rows
  | company_data :: rest =>
      valuation <- calculate_intrinsic_value company_data ;;
      match valuation with
      | None => run_valuation_rows rest rows
      | Some valuation =>
          row <- build_valuation_row valuation ;;
          match row with
          | Some row => run_valuation_rows rest (rows ++ [row])
          | None => run_valuation_rows rest rows
          end
      end
  end.

(** [(df["Valuation Signal"] == signal).sum()] of [run_valuation] and
    [print_summary], on the rows of the frame. *)
Definition signal_count (signal : string) (rows : list Row.t) : nat :=
  List.length (filter (fun row => String.eqb (Row.Valuation_Signal row) signal) rows).

(** ** [src/data_fetcher.py] *)

(** The pandas objects [data_fetcher] reads.  A [Series] is a row of a
    statement: one value per column (newest year first), [None] for NaN.
    A [DataFrame] lists its rows in index order under their labels; the
    labels are taken distinct (for a repeated label [df.loc] would answer
    a frame, not a row) and every row has one value per column. *)
Module Pandas.

Definition Series : Type := list (option R).
Definition DataFrame : Type := list (string * Series).

(** [label in df.index]. *)
Definition in_index (label : string) (df : DataFrame) : bool :=
  existsb (fun row => String.eqb label (fst row)) df.

(** [df.loc[label]], for a label of the index. *)
Fixpoint loc (df : DataFrame) (label : string) : option Series :=
  match df with
  | [] => None
  | (l, row) :: rest => if String.eqb label l then Some row else loc rest label
  end.

(** [df.empty]: no row or no column. *)
Definition empty (df : DataFrame) : bool :=
  match df with
  | [] => true
  | (_, []) :: _ => true
  | (_, _ :: _) :: _ => false
  end.

(** [s.dropna()], as the list of the values left. *)
Fixpoint dropna (s : Series) : list R :=
  match s with
  | [] => []
  | Some v :: rest => v :: dropna rest
  | None :: rest => dropna rest
  end.

(** [s.dropna().iloc[0] if not s.dropna().empty else default]. *)
Definition first_valid {A : Type} (s : Series) (some : R -> A) (default : A) : A :=
  match dropna s with
  | v :: _ => some v
  | [] => default
  end.

End Pandas.

Fixpoint _find_row (df : Pandas.DataFrame) (labels : list string)
  : option Pandas.Series :=
  match labels with
  | [] => None
  | label :: rest =>
      if Pandas.in_index label df then Pandas.loc df label else _find_row df rest
  end.

Definition _extract_free_cash_flows (cash_flow_df : Pandas.DataFrame) : list R :=
  let ocf_labels :=
    ["Operating Cash Flow"; "Total Cash From Operating Activities";
     "Cash From Operating Activities"]%string in
  let capex_labels :=
    ["Capital Expenditure"; "Capital Expenditures"; "Purchase Of PPE";
     "Purchases Of Property Plant And Equipment"]%string in
  let ocf_row := _find_row cash_flow_df ocf_labels in
  let capex_row := _find_row cash_flow_df capex_labels in
  match ocf_row with
  | None => []
  | Some ocf_row =>
      let ocf_values := rev (Pandas.dropna ocf_row) in
      match capex_row with
      | Some capex_row =>
          let capex_values := rev (Pandas.dropna capex_row) in
          (* the values left by [dropna] are numbers: the final
             [if v is not None] keeps them all *)
          map (fun '(ocf, capex) => ocf - Rabs capex) (combine ocf_values capex_values)
      | None => ocf_values
      end
  end.

Definition _extract_interest_expense (income_stmt : option Pandas.DataFrame) : R :=
  match income_stmt with
  | None => 0
  | Some income_stmt =>
      if Pandas.empty income_stmt then 0
      else
        let interest_labels :=
          ["Interest Expense"; "Interest Expense Non Operating";
           "Net Interest Income"]%string in
        match _find_row income_stmt interest_labels with
        | None => 0
        | Some row =>
            let value := Pandas.first_valid row (fun v => v) 0 in
            Rabs value
        end
  end.

Definition _estimate_tax_rate (income_stmt : option Pandas.DataFrame) : result R :=
  let default_rate := 0.21 in
  match income_stmt with
  | None => ret default_rate
  | Some income_stmt =>
      if Pandas.empty income_stmt then ret default_rate
      else
        let tax_labels := ["Tax Provision"; "Income Tax Expense"]%string in
        let pretax_labels := ["Pretax Income"; "Income Before Tax"]%string in
        match _find_row income_stmt tax_labels,
              _find_row income_stmt pretax_labels with
        | Some tax_row, Some pretax_row =>
            let tax := Pandas.first_valid tax_row Some None in
            let pretax := Pandas.first_valid pretax_row Some None in
            match tax, pretax with
            | Some tax, Some pretax =>
                if float_le pretax 0 then ret default_rate
                else
                  rate <- truediv tax pretax ;;
                  ret (Py.max 0.10 (Py.min 0.40 rate))
            | _, _ => ret default_rate
            end
        | _, _ => ret default_rate
        end
  end.

(** What [yf.Ticker(ticker)] gives [fetch_company_data]: the entries of
    [stock.info] it reads, and the two statements.  A number is read with
    [info.get(key) or ...], so an absent key and a [None] are both [None];
    [longName] and [sector] are read with [info.get(key, default)], so the
    key may be absent ([None]) or hold a string or [None] ([Some _]).  An
    absent [info] has every entry absent. *)
Module Stock.
Record t : Type := mk {
  currentPrice : option R;
  regularMarketPrice : option R;
  previousClose : option R;
  sharesOutstanding : option R;
  impliedSharesOutstanding : option R;
  beta : option R;
  marketCap : option R;
  totalDebt : option R;
  longName : option (option string);
  sector : option (option string);
  cashflow : option Pandas.DataFrame;
  income_stmt : option Pandas.DataFrame
}.
End Stock.

(** [a or b] on numbers that may be [None]: [a] unless it is [None] or 0. *)
Definition py_or (a b : option R) : option R :=
  match a with
  | Some v => if float_eq v 0 then b else Some v
  | None => b
  end.

(** [a or default] with a number for [default]. *)
Definition or_else (a : option R) (default : R) : R :=
  match py_or a (Some default) with
  | Some v => v
  | None => default
  end.

(** [fetch_company_data], from what Yahoo Finance answered for [ticker].
    The body runs inside [try ... except Exception: return None]. *)
Definition fetch_company_data (ticker : string) (stock : Stock.t)
  : option CompanyData.t :=
  let body : result (option CompanyData.t) :=
    let current_price :=
      py_or (py_or (Stock.currentPrice stock) (Stock.regularMarketPrice stock))
            (Stock.previousClose stock) in
    match current_price with
    | None => ret None
    | Some current_price =>
        if float_le current_price 0 then ret None
        else
          let shares_outstanding :=
            py_or (Stock.sharesOutstanding stock)
                  (Stock.impliedSharesOutstanding stock) in
          match shares_outstanding with
          | None => ret None
          | Some shares_outstanding =>
              if float_le shares_outstanding 0 then ret None
              else
                match Stock.cashflow stock with
                | None => ret None
                | Some cash_flow_df =>
                    if Pandas.empty cash_flow_df then ret None
                    else
                      let historical_fcf := _extract_free_cash_flows cash_flow_df in
                      if (len historical_fcf <? 2)%Z then ret None
                      else
                        let beta := or_else (Stock.beta stock) 1 in
                        let beta := if float_le beta 0 then 1 else beta in
                        let market_cap :=
                          or_else (Stock.marketCap stock)
                                  (current_price * shares_outstanding) in
                        let total_debt := or_else (Stock.totalDebt stock) 0 in
                        let interest_expense :=
                          _extract_interest_expense (Stock.income_stmt stock) in
                        tax_rate <- _estimate_tax_rate (Stock.income_stmt stock) ;;
                        ret (Some {|
                          CompanyData.ticker := Some ticker;
                          CompanyData.name :=
                            Some (get (Stock.longName stock) (Some ticker));
                          CompanyData.sector :=
                            Some (get (Stock.sector stock) (Some "Unknown"%string));
                          CompanyData.current_price := current_price;
                          CompanyData.shares_outstanding := shares_outstanding;
                          CompanyData.historical_fcf := Some historical_fcf;
                          CompanyData.beta := beta;
                          CompanyData.market_cap := market_cap;
                          CompanyData.total_debt := total_debt;
                          CompanyData.interest_expense := interest_expense;
                          CompanyData.tax_rate := tax_rate
                        |})
                end
          end
    end in
  match body with
  | Ok company_data => company_data
  | Raise _ => None
  end.

(** The loop of [fetch_sp500_data] over [tickers]; [yf_Ticker] stands for
    the remote service.  The [time.sleep(delay)] that ends each pass is
    outside the [try] of [fetch_company_data]. *)
Fixpoint fetch_sp500_loop (yf_Ticker : string -> Stock.t) (tickers : list string)
    (delay : R) (results : list CompanyData.t) : result (list CompanyData.t) :=
  match tickers with
  | [] => ret results
  | ticker :: rest =>
      let data := fetch_company_data ticker (yf_Ticker ticker) in
      let results :=
        match data with
        | Some data => results ++ [data]
        | None => results
        end in
      _ <- Py.sleep delay ;;
      fetch_sp500_loop yf_Ticker rest delay results
  end.

(** [fetch_sp500_data] for an explicit list of tickers. *)
Definition fetch_sp500_data (yf_Ticker : string -> Stock.t) (tickers : list string)
    (delay : R) : result (list CompanyData.t) :=
  fetch_sp500_loop yf_Ticker tickers delay [].

(** ** Closed forms used to state the properties *)

(** Growth applied in projection year [t] (an int of [range(1, years + 1)]). *)
Definition faded_growth (initial_growth_rate long_term_growth_rate : R)
    (years t : Z) : R :=
  initial_growth_rate
  + IZR (t - 1) / IZR (Z.max (years - 1) 1)
    * (long_term_growth_rate - initial_growth_rate).

(** The values a run of [project_loop] appends, starting from [current_fcf]. *)
Fixpoint projection (ts : list Z) (years : Z)
    (initial_growth_rate long_term_growth_rate current_fcf : R) : list R :=
  match ts with
  | [] => []
  | t :: rest =>
      let current_fcf :=
        current_fcf
        * (1 + faded_growth initial_growth_rate long_term_growth_rate years t) in
      current_fcf
      :: projection rest years initial_growth_rate long_term_growth_rate current_fcf
  end.

(** Value of year [t] of a projection: [base_fcf] for year 0, then the
    entries of the projected list. *)
Definition year_value (base_fcf : R) (projected : list R) (t : nat) : R :=
  match t with
  | O => base_fcf
  | S k => nth k projected 0
  end.

(** A power [**] answers as it is: within the float range. *)
Definition in_float_range (p : R) : Prop :=
  FLOAT_UNDERFLOW < Rabs p <= FLOAT_MAX.

(** The amount a run of [discount_loop] adds to [pv_sum], from index [t]. *)
Fixpoint present_values (cash_flows : list R) (t : nat) (wacc : R) : R :=
  match cash_flows with
  | [] => 0
  | cf :: rest => cf / (1 + wacc) ^ t + present_values rest (S t) wacc
  end.

(** Steps 3 to 5 of [calculate_intrinsic_value] in closed form: the present
    value of the seven projected years and of the blended terminal value. *)
Definition enterprise_value (base_fcf growth_rate wacc : R) : R :=
  let projected :=
    projection (range1 PROJECTION_YEARS) PROJECTION_YEARS growth_rate
      LONG_TERM_GROWTH_RATE base_fcf in
  let terminal_fcf := List.last projected 0 in
  let terminal_value :=
    (terminal_fcf * (1 + LONG_TERM_GROWTH_RATE)
       / Rmax (wacc - LONG_TERM_GROWTH_RATE) 0.001
     + terminal_fcf * FCF_EXIT_MULTIPLE) / 2 in
  present_values projected 1 wacc
  + terminal_value / (1 + wacc) ^ List.length projected.

(** The growth rate [calculate_intrinsic_value] projects with: the estimate,
    raised to 0.05 when the base is negative. *)
Definition recovery_growth (base_fcf growth_rate : R) : R :=
  if float_lt base_fcf 0 then Py.max growth_rate 0.05 else growth_rate.

(** The rates [yoy_loop] appends: one per adjacent pair whose two values
    are strictly positive. *)
Definition positive_pair_rates (pairs : list (R * R)) : list R :=
  map (fun p => snd p / fst p - 1)
      (filter (fun p => float_gt (fst p) 0 && float_gt (snd p) 0) pairs).

(** The cost of debt [calculate_wacc] settles on. *)
Definition cost_of_debt (total_debt interest_expense risk_free_rate : R) : R :=
  if float_gt total_debt 0 && float_gt interest_expense 0
  then _clamp (interest_expense / total_debt) 0.01 0.20
  else risk_free_rate + 0.015.

(** The growth estimate the way the specification words it: the compound
    annual growth rate between the first and the last element of a series,
    over [len - 1] periods, clamped. *)
Definition series_cagr (series : list R) : R :=
  _clamp (Rpower (List.last series 0 / List.hd 0 series)
                 (1 / IZR (len series - 1)) - 1)
         MIN_INITIAL_GROWTH MAX_INITIAL_GROWTH.

(** [company_data] with another [current_price]. *)
Definition with_current_price (company_data : CompanyData.t) (price : R)
  : CompanyData.t :=
  {| CompanyData.ticker := CompanyData.ticker company_data;
     CompanyData.name := CompanyData.name company_data;
     CompanyData.sector := CompanyData.sector company_data;
     CompanyData.current_price := price;
     CompanyData.shares_outstanding := CompanyData.shares_outstanding company_data;
     CompanyData.historical_fcf := CompanyData.historical_fcf company_data;
     CompanyData.beta := CompanyData.beta company_data;
     CompanyData.market_cap := CompanyData.market_cap company_data;
     CompanyData.total_debt := CompanyData.total_debt company_data;
     CompanyData.interest_expense := CompanyData.interest_expense company_data;
     CompanyData.tax_rate := CompanyData.tax_rate company_data |}.

(** [company_data] with every money amount and the share count multiplied
    by [k]: the same company in another unit. *)
Definition scale_company (k : R) (company_data : CompanyData.t) : CompanyData.t :=
  {| CompanyData.ticker := CompanyData.ticker company_data;
     CompanyData.name := CompanyData.name company_data;
     CompanyData.sector := CompanyData.sector company_data;
     CompanyData.current_price := CompanyData.current_price company_data;
     CompanyData.shares_outstanding :=
       k * CompanyData.shares_outstanding company_data;
     CompanyData.historical_fcf :=
       option_map (map (Rmult k)) (CompanyData.historical_fcf company_data);
     CompanyData.beta := CompanyData.beta company_data;
     CompanyData.market_cap := k * CompanyData.market_cap company_data;
     CompanyData.total_debt := k * CompanyData.total_debt company_data;
     CompanyData.interest_expense := k * CompanyData.interest_expense company_data;
     CompanyData.tax_rate := CompanyData.tax_rate company_data |}.

(** The test [run_valuation] applies, in effect, to a fetched company: a
    non-empty history ending on a nonzero value, a positive share count and
    a positive price. *)
Definition yields_row (company_data : CompanyData.t) : bool :=
  let historical_fcf := get (CompanyData.historical_fcf company_data) [] in
  match historical_fcf with
  | [] => false
  | _ :: _ =>
      negb (float_eq (List.last historical_fcf 0) 0)
      && float_gt (CompanyData.shares_outstanding company_data) 0
      && float_gt (CompanyData.current_price company_data) 0
  end.

(** One pass of the loop: what a company adds to the rows. *)
Definition company_rows (company_data : CompanyData.t) : result (list Row.t) :=
  valuation <- calculate_intrinsic_value company_data ;;
  match valuation with
  | None => ret []
  | Some valuation =>
      row <- build_valuation_row valuation ;;
      match row with
      | Some row => ret [row]
      | None => ret []
      end
  end.

(** What Yahoo Finance could answer for a ticker: a price and a share
    count, no beta, three years of operating cash flow and capital
    expenditure (newest first), no income statement. *)
Definition sample_stock : Stock.t :=
  {| Stock.currentPrice := Some 150;
     Stock.regularMarketPrice := None;
     Stock.previousClose := None;
     Stock.sharesOutstanding := Some 1000000000;
     Stock.impliedSharesOutstanding := None;
     Stock.beta := None;
     Stock.marketCap := None;
     Stock.totalDebt := None;
     Stock.longName := None;
     Stock.sector := None;
     Stock.cashflow :=
       Some [("Operating Cash Flow"%string, [Some 120; Some 110; Some 100]);
             ("Capital Expenditure"%string, [Some (-24); Some (-22); Some (-20)])];
     Stock.income_stmt := None |}.

(** The record of the test suite ([_sample_data]) with a given history,
    price and share count. *)
Definition sample_data (historical_fcf : list R) (price shares : R) : CompanyData.t :=
  {| CompanyData.ticker := Some "TEST"%string;
     CompanyData.name := Some (Some "Test Corp"%string);
     CompanyData.sector := Some (Some "Technology"%string);
     CompanyData.current_price := price;
     CompanyData.shares_outstanding := shares;
     CompanyData.historical_fcf := Some historical_fcf;
     CompanyData.beta := 1.2;
     CompanyData.market_cap := 150000000000;
     CompanyData.total_debt := 20000000000;
     CompanyData.interest_expense := 1000000000;
     CompanyData.tax_rate := 0.21 |}.

(** The valuation of the test suite ([_sample_valuation]) with a given
    price and intrinsic value. *)
Definition sample_valuation (price intrinsic : R) : Valuation.t :=
  {| Valuation.ticker := "AAPL"%string;
     Valuation.name := Some "Apple Inc."%string;
     Valuation.sector := Some "Technology"%string;
     Valuation.current_price := price;
     Valuation.intrinsic_value := intrinsic;
     Valuation.wacc := Some 0.09;
     Valuation.fcf_growth_rate := Some 0.10;
     Valuation.base_fcf := 90000000000;
     Valuation.shares_outstanding := 15500000000 |}.

(** ** Facts about the Python operations *)

Section PyFacts.

Lemma float_gt_iff (x y : R) : float_gt x y = true <-> y < x.
Proof. unfold float_gt. destruct (Rlt_dec y x); split; auto; discriminate. Qed.

Lemma float_ge_iff (x y : R) : float_ge x y = true <-> y <= x.
Proof. unfold float_ge. destruct (Rle_dec y x); split; auto; discriminate. Qed.

Lemma float_lt_iff (x y : R) : float_lt x y = true <-> x < y.
Proof. apply float_gt_iff. Qed.

Lemma float_le_iff (x y : R) : float_le x y = true <-> x <= y.
Proof. apply float_ge_iff. Qed.

Lemma float_eq_iff (x y : R) : float_eq x y = true <-> x = y.
Proof. unfold float_eq. destruct (Req_dec_T x y); split; auto; discriminate. Qed.

Lemma float_gt_false_iff (x y : R) : float_gt x y = false <-> x <= y.
Proof.
  unfold float_gt. destruct (Rlt_dec y x); split; auto; try discriminate; lra.
Qed.

Lemma float_ge_false_iff (x y : R) : float_ge x y = false <-> x < y.
Proof.
  unfold float_ge. destruct (Rle_dec y x); split; auto; try discriminate; lra.
Qed.

Lemma float_lt_false_iff (x y : R) : float_lt x y = false <-> y <= x.
Proof. apply float_gt_false_iff. Qed.

Lemma float_le_false_iff (x y : R) : float_le x y = false <-> y < x.
Proof. apply float_ge_false_iff. Qed.

Lemma float_eq_false_iff (x y : R) : float_eq x y = false <-> x <> y.
Proof.
  unfold float_eq. destruct (Req_dec_T x y); split; auto; try discriminate.
  intros H; contradiction.
Qed.

Lemma truediv_ok (x y : R) : y <> 0 -> truediv x y = Ok (x / y).
Proof. intros H. unfold truediv. now rewrite (proj2 (float_eq_false_iff y 0) H). Qed.

Lemma truediv_zero (x : R) : truediv x 0 = Raise ZeroDivisionError.
Proof. unfold truediv. now rewrite (proj2 (float_eq_iff 0 0) eq_refl). Qed.

Lemma max_Rmax (a b : R) : Py.max a b = Rmax a b.
Proof.
  unfold Py.max, float_gt, Rmax.
  destruct (Rlt_dec a b), (Rle_dec a b); try reflexivity; lra.
Qed.

Lemma min_Rmin (a b : R) : Py.min a b = Rmin a b.
Proof.
  unfold Py.min, float_lt, float_gt, Rmin.
  destruct (Rlt_dec b a), (Rle_dec a b); try reflexivity; lra.
Qed.

Lemma clamp_Rmax_Rmin (v low high : R) :
  _clamp v low high = Rmax low (Rmin high v).
Proof. unfold _clamp. now rewrite min_Rmin, max_Rmax. Qed.

Lemma clamp_bounds (v low high : R) :
  low <= high -> low <= _clamp v low high <= high.
Proof.
  intros H. rewrite clamp_Rmax_Rmin.
  unfold Rmax, Rmin.
  destruct (Rle_dec high v), (Rle_dec low high), (Rle_dec low v); lra.
Qed.

Lemma clamp_inside (v low high : R) :
  low <= v <= high -> _clamp v low high = v.
Proof.
  intros H. rewrite clamp_Rmax_Rmin.
  unfold Rmax, Rmin.
  destruct (Rle_dec high v), (Rle_dec low high), (Rle_dec low v); lra.
Qed.

Lemma clamp_below (v low high : R) :
  low <= high -> v <= low -> _clamp v low high = low.
Proof.
  intros H1 H2. rewrite clamp_Rmax_Rmin.
  unfold Rmax, Rmin.
  destruct (Rle_dec high v), (Rle_dec low high), (Rle_dec low v); lra.
Qed.

Lemma clamp_above (v low high : R) :
  low <= high -> high <= v -> _clamp v low high = high.
Proof.
  intros H1 H2. rewrite clamp_Rmax_Rmin.
  unfold Rmax, Rmin.
  destruct (Rle_dec high v), (Rle_dec low high); lra.
Qed.

End PyFacts.

(** Settle a float comparison whose outcome follows from the context. *)
Ltac cmp_true :=
  first [ apply float_gt_iff | apply float_ge_iff | apply float_lt_iff | apply float_le_iff | apply float_eq_iff ];
  lra.
Ltac cmp_false :=
  first [ apply float_gt_false_iff | apply float_ge_false_iff | apply float_lt_false_iff
        | apply float_le_false_iff | apply float_eq_false_iff ];
  lra.
Ltac decide_cmp c :=
  first [ replace c with true by (symmetry; cmp_true)
        | replace c with false by (symmetry; cmp_false) ].

Section Lists.
Context {A : Type}.

Lemma first_ok (l : list A) (d : A) : l <> [] -> Py.first l = Ok (List.hd d l).
Proof. destruct l; [congruence | reflexivity]. Qed.

Lemma last_ok (l : list A) (d : A) : l <> [] -> Py.last l = Ok (List.last l d).
Proof.
  induction l as [|a l IH]; [congruence|]. intros _.
  destruct l as [|b l]; [reflexivity|].
  change (Py.last (a :: b :: l)) with (Py.last (b :: l)).
  change (List.last (a :: b :: l) d) with (List.last (b :: l) d).
  apply IH. discriminate.
Qed.

Lemma last_slice_length (l : list A) (k : nat) :
  List.length (last_slice l k) = Nat.min (List.length l) k.
Proof. unfold last_slice. rewrite length_skipn. lia. Qed.

Lemma last_slice_short (l : list A) (k : nat) :
  (List.length l <= k)%nat -> last_slice l k = l.
Proof.
  intros H. unfold last_slice.
  replace (List.length l - k)%nat with 0%nat by lia. reflexivity.
Qed.

Lemma last_skipn (l : list A) (d : A) :
  forall n, (n < List.length l)%nat -> List.last (skipn n l) d = List.last l d.
Proof.
  induction l as [|a l IH]; intros n Hn; [simpl in Hn; lia|].
  destruct n as [|n]; [reflexivity|].
  cbn [skipn]. simpl in Hn. rewrite IH by lia.
  destruct l; [simpl in Hn; lia | reflexivity].
Qed.

Lemma last_slice_last (l : list A) (k : nat) (d : A) :
  l <> [] -> (1 <= k)%nat -> List.last (last_slice l k) d = List.last l d.
Proof.
  intros Hl Hk. unfold last_slice. apply last_skipn.
  destruct l; [congruence | cbn [List.length]; lia].
Qed.

Lemma Forall_last_slice (P : A -> Prop) (l : list A) (k : nat) :
  Forall P l -> Forall P (last_slice l k).
Proof.
  intros H. unfold last_slice. rewrite Forall_forall in *.
  intros x Hx. apply H.
  rewrite <- (firstn_skipn (List.length l - k) l).
  apply in_or_app. now right.
Qed.

Lemma Forall_adjacent_snd (P : A -> Prop) (l : list A) :
  Forall P l -> Forall (fun p => P (snd p)) (adjacent l).
Proof.
  intros H. rewrite Forall_forall in *. intros [x y] Hin. cbn [snd].
  apply H. unfold adjacent in Hin. apply in_combine_r in Hin.
  destruct l; [contradiction | now right].
Qed.

Lemma Forall_last (P : A -> Prop) (l : list A) (d : A) :
  l <> [] -> Forall P l -> P (List.last l d).
Proof.
  intros Hne Hall. rewrite Forall_forall in Hall. apply Hall.
  destruct (exists_last Hne) as (l' & a & ->).
  rewrite last_last. apply in_or_app. right. now left.
Qed.

Lemma len_lt_2 (l : list A) : (len l <? 2)%Z = true <-> (List.length l < 2)%nat.
Proof. unfold len. rewrite Z.ltb_lt. lia. Qed.

Lemma len_ge_2 (l : list A) : (len l <? 2)%Z = false <-> (2 <= List.length l)%nat.
Proof. unfold len. rewrite Z.ltb_ge. lia. Qed.

End Lists.

Section Rounding.

Lemma round_half_even_IZR (z : Z) : round_half_even (IZR z) = z.
Proof.
  unfold round_half_even. rewrite ZfloorZ.
  decide_cmp (float_lt (IZR z - IZR z) (1 / 2)). reflexivity.
Qed.

(** A value with at most [ndigits] decimals is left as it is. *)
Lemma round_exact (z : Z) (ndigits : nat) :
  round (IZR z / 10 ^ ndigits) ndigits = IZR z / 10 ^ ndigits.
Proof.
  unfold round.
  assert (10 ^ ndigits <> 0) by (apply pow_nonzero; lra).
  replace (IZR z / 10 ^ ndigits * 10 ^ ndigits) with (IZR z) by (field; assumption).
  now rewrite round_half_even_IZR.
Qed.

Lemma round_default_growth : round 0.05 4 = 0.05.
Proof.
  replace 0.05 with (IZR 500 / 10 ^ 4) by (simpl; lra).
  apply round_exact.
Qed.

Lemma round_half_even_bounds (y : R) :
  y - 1 / 2 <= IZR (round_half_even y) <= y + 1 / 2.
Proof.
  unfold round_half_even.
  pose proof (Zfloor_bound y) as [Hlo Hhi].
  destruct (float_lt (y - IZR (Zfloor y)) (1 / 2)) eqn:Hlt.
  - apply float_lt_iff in Hlt. lra.
  - apply float_lt_false_iff in Hlt.
    destruct (float_gt (y - IZR (Zfloor y)) (1 / 2)) eqn:Hgt.
    + apply float_gt_iff in Hgt. rewrite plus_IZR. lra.
    + apply float_gt_false_iff in Hgt.
      destruct (Z.even (Zfloor y)); [|rewrite plus_IZR]; lra.
Qed.

(** [round(x, ndigits)] moves [x] by at most half a unit of the last digit. *)
Lemma round_error (x : R) (ndigits : nat) :
  Rabs (round x ndigits - x) <= 1 / 2 / 10 ^ ndigits.
Proof.
  unfold round.
  assert (Hp : 0 < 10 ^ ndigits) by (apply pow_lt; lra).
  pose proof (round_half_even_bounds (x * 10 ^ ndigits)) as [Hlo Hhi].
  replace (IZR (round_half_even (x * 10 ^ ndigits)) / 10 ^ ndigits - x)
    with ((IZR (round_half_even (x * 10 ^ ndigits)) - x * 10 ^ ndigits)
          / 10 ^ ndigits) by (field; lra).
  apply Rabs_le. split.
  - apply Rmult_le_reg_r with (10 ^ ndigits); [assumption|].
    replace ((IZR (round_half_even (x * 10 ^ ndigits)) - x * 10 ^ ndigits)
             / 10 ^ ndigits * 10 ^ ndigits)
      with (IZR (round_half_even (x * 10 ^ ndigits)) - x * 10 ^ ndigits)
      by (field; lra).
    replace (- (1 / 2 / 10 ^ ndigits) * 10 ^ ndigits) with (- (1 / 2))
      by (field; lra).
    lra.
  - apply Rmult_le_reg_r with (10 ^ ndigits); [assumption|].
    replace ((IZR (round_half_even (x * 10 ^ ndigits)) - x * 10 ^ ndigits)
             / 10 ^ ndigits * 10 ^ ndigits)
      with (IZR (round_half_even (x * 10 ^ ndigits)) - x * 10 ^ ndigits)
      by (field; lra).
    replace (1 / 2 / 10 ^ ndigits * 10 ^ ndigits) with (1 / 2) by (field; lra).
    lra.
Qed.

End Rounding.

(** ** GrowthEstimator: [calculate_historical_growth_rate] *)

Section GrowthEstimator.

Lemma growth_caps_ordered : MIN_INITIAL_GROWTH <= MAX_INITIAL_GROWTH.
Proof. unfold MIN_INITIAL_GROWTH, MAX_INITIAL_GROWTH. lra. Qed.

Lemma yoy_loop_total (pairs : list (R * R)) :
  forall yoy_rates, exists rates, yoy_loop pairs yoy_rates = Ok rates.
Proof.
  induction pairs as [|[prev curr] rest IH]; intros acc; cbn [yoy_loop].
  - eexists; reflexivity.
  - destruct (float_gt prev 0) eqn:Hp; cbn [andb]; [|apply IH].
    destruct (float_gt curr 0); [|apply IH].
    apply float_gt_iff in Hp. rewrite truediv_ok by lra. cbn [bind]. apply IH.
Qed.

Lemma yoy_loop_nonpositive (pairs : list (R * R)) :
  Forall (fun p => snd p < 0) pairs ->
  forall yoy_rates, yoy_loop pairs yoy_rates = Ok yoy_rates.
Proof.
  induction 1 as [|[prev curr] rest Hc _ IH]; intros acc; cbn [yoy_loop];
    [reflexivity|].
  cbn [snd] in Hc. decide_cmp (float_gt curr 0).
  rewrite andb_false_r. apply IH.
Qed.

(** The average of year-over-year rates, once the loop has run. *)
Lemma yoy_average_total (rates : list R) :
  exists growth_rate,
    match rates with
    | _ :: _ =>
        avg_rate <- truediv (sum rates) (IZR (len rates)) ;;
        ret (_clamp avg_rate MIN_INITIAL_GROWTH MAX_INITIAL_GROWTH)
    | [] => ret 0.03
    end = Ok growth_rate
    /\ MIN_INITIAL_GROWTH <= growth_rate <= MAX_INITIAL_GROWTH.
Proof.
  destruct rates as [|r rates].
  - eexists; split; [reflexivity|].
    unfold MIN_INITIAL_GROWTH, MAX_INITIAL_GROWTH; lra.
  - rewrite truediv_ok by (apply not_0_IZR; unfold len; cbn [List.length]; lia).
    cbn [bind ret].
    eexists; split; [reflexivity|]. apply clamp_bounds, growth_caps_ordered.
Qed.

(** With at most one data point the estimate is the default. *)
Lemma growth_rate_default (historical_fcf : list R) :
  (List.length historical_fcf < 2)%nat ->
  calculate_historical_growth_rate historical_fcf = Ok 0.05.
Proof.
  intros H. unfold calculate_historical_growth_rate.
  now rewrite (proj2 (len_lt_2 historical_fcf) H).
Qed.

(** From two data points on, the window of the last five has a first and
    a last element. *)
Lemma window_nonempty (historical_fcf : list R) :
  (2 <= List.length historical_fcf)%nat ->
  (2 <= List.length (last_slice historical_fcf 5))%nat
  /\ last_slice historical_fcf 5 <> [].
Proof.
  intros Hlen.
  assert (Hwin : (2 <= List.length (last_slice historical_fcf 5))%nat)
    by (rewrite last_slice_length; lia).
  split; [exact Hwin|].
  destruct (last_slice historical_fcf 5); [simpl in Hwin; lia | discriminate].
Qed.

(** The compound-growth branch, on the window of the last five points. *)
Lemma growth_rate_cagr (historical_fcf : list R) :
  (2 <= List.length historical_fcf)%nat ->
  0 < List.hd 0 (last_slice historical_fcf 5) ->
  0 < List.last (last_slice historical_fcf 5) 0 ->
  calculate_historical_growth_rate historical_fcf
  = Ok (series_cagr (last_slice historical_fcf 5)).
Proof.
  intros Hlen Hfirst Hlast. unfold calculate_historical_growth_rate.
  rewrite (proj2 (len_ge_2 historical_fcf) Hlen).
  destruct (window_nonempty historical_fcf Hlen) as [Hwin Hne].
  set (fcf := last_slice historical_fcf 5) in *.
  rewrite (first_ok fcf 0 Hne), (last_ok fcf 0 Hne). cbn [bind].
  decide_cmp (float_gt (hd 0 fcf) 0). decide_cmp (float_gt (List.last fcf 0) 0). cbn [andb].
  replace (0 <? len fcf - 1)%Z with true
    by (symmetry; apply Z.ltb_lt; unfold len; lia).
  rewrite truediv_ok by lra. cbn [bind].
  rewrite truediv_ok by (apply not_0_IZR; unfold len; lia). cbn [bind].
  unfold pow_float.
  assert (0 < List.last fcf 0 / hd 0 fcf) by (apply Rdiv_lt_0_compat; assumption).
  decide_cmp (float_gt (List.last fcf 0 / hd 0 fcf) 0). reflexivity.
Qed.

(** The estimator always returns, and always inside the growth caps. *)
Lemma growth_rate_total (historical_fcf : list R) :
  exists growth_rate,
    calculate_historical_growth_rate historical_fcf = Ok growth_rate
    /\ MIN_INITIAL_GROWTH <= growth_rate <= MAX_INITIAL_GROWTH.
Proof.
  destruct (Nat.lt_ge_cases (List.length historical_fcf) 2) as [Hlen | Hlen].
  { rewrite growth_rate_default by assumption.
    eexists; split; [reflexivity|].
    unfold MIN_INITIAL_GROWTH, MAX_INITIAL_GROWTH; lra. }
  destruct (window_nonempty historical_fcf Hlen) as [Hwin Hne].
  destruct (Rlt_dec 0 (List.hd 0 (last_slice historical_fcf 5))) as [Hf | Hf];
    [destruct (Rlt_dec 0 (List.last (last_slice historical_fcf 5) 0)) as [Hl | Hl]|].
  - rewrite growth_rate_cagr by assumption.
    eexists; split; [reflexivity|]. apply clamp_bounds, growth_caps_ordered.
  - unfold calculate_historical_growth_rate.
    rewrite (proj2 (len_ge_2 historical_fcf) Hlen).
    set (fcf := last_slice historical_fcf 5) in *.
    rewrite (first_ok fcf 0 Hne), (last_ok fcf 0 Hne). cbn [bind].
    decide_cmp (float_gt (List.last fcf 0) 0). rewrite andb_false_r. cbn [andb].
    destruct (yoy_loop_total (adjacent fcf) []) as [rates ->]. cbn [bind].
    apply yoy_average_total.
  - unfold calculate_historical_growth_rate.
    rewrite (proj2 (len_ge_2 historical_fcf) Hlen).
    set (fcf := last_slice historical_fcf 5) in *.
    rewrite (first_ok fcf 0 Hne), (last_ok fcf 0 Hne). cbn [bind].
    decide_cmp (float_gt (hd 0 fcf) 0). cbn [andb].
    destruct (yoy_loop_total (adjacent fcf) []) as [rates ->]. cbn [bind].
    apply yoy_average_total.
Qed.

(** A history without a positive value gives one of the two defaults. *)
Lemma growth_rate_all_negative (historical_fcf : list R) :
  Forall (fun x => x < 0) historical_fcf ->
  calculate_historical_growth_rate historical_fcf
  = Ok (if (len historical_fcf <? 2)%Z then 0.05 else 0.03).
Proof.
  intros Hneg. unfold calculate_historical_growth_rate.
  destruct (len historical_fcf <? 2)%Z eqn:Hlen; [reflexivity|].
  apply len_ge_2 in Hlen.
  destruct (window_nonempty historical_fcf Hlen) as [Hwin Hne].
  assert (Hall : Forall (fun x => x < 0) (last_slice historical_fcf 5))
    by now apply Forall_last_slice.
  set (fcf := last_slice historical_fcf 5) in *.
  rewrite (first_ok fcf 0 Hne), (last_ok fcf 0 Hne). cbn [bind].
  assert (Hf : hd 0 fcf < 0).
  { destruct fcf as [|a fcf']; [congruence|]. now inversion Hall. }
  decide_cmp (float_gt (hd 0 fcf) 0). cbn [andb].
  rewrite yoy_loop_nonpositive
    by (apply (Forall_adjacent_snd (fun x => x < 0)); assumption).
  reflexivity.
Qed.

End GrowthEstimator.

(** C2 (amended).  For every historical FCF series of length >= 2 whose
    window -- its last five elements, the whole series when it has at most
    five -- starts with a strictly positive value and whose last element is
    strictly positive, [calculate_historical_growth_rate] returns
    [(last/first)^(1/n) - 1] clamped to [-0.20, 0.30], where [first] and
    [last] are the first and last elements of the window and [n] is the
    window length minus 1.  For a series of at most five elements this is
    the compound growth rate of the whole series. *)
Theorem growth_rate_window_cagr (historical_fcf : list R) :
  (2 <= List.length historical_fcf)%nat ->
  0 < List.hd 0 (last_slice historical_fcf 5) ->
  0 < List.last historical_fcf 0 ->
  calculate_historical_growth_rate historical_fcf
  = Ok (series_cagr (last_slice historical_fcf 5))
  /\ ((List.length historical_fcf <= 5)%nat ->
      calculate_historical_growth_rate historical_fcf
      = Ok (series_cagr historical_fcf)).
Proof.
  intros Hlen Hfirst Hlast.
  assert (Hcode : calculate_historical_growth_rate historical_fcf
                  = Ok (series_cagr (last_slice historical_fcf 5))).
  { apply growth_rate_cagr; try assumption.
    rewrite last_slice_last; [assumption | | lia].
    destruct historical_fcf; [simpl in Hlen; lia | discriminate]. }
  split; [exact Hcode|].
  intros Hshort. rewrite Hcode. now rewrite last_slice_short.
Qed.

Lemma growth_rate_window_cagr_witness :
  let historical_fcf := [100; 120; 145; 175; 200] in
  calculate_historical_growth_rate historical_fcf
  = Ok (series_cagr (last_slice historical_fcf 5))
  /\ ((List.length historical_fcf <= 5)%nat ->
      calculate_historical_growth_rate historical_fcf
      = Ok (series_cagr historical_fcf)).
Proof.
  apply (growth_rate_window_cagr [100; 120; 145; 175; 200]).
  - cbn [List.length]. lia.
  - cbn. lra.
  - cbn. lra.
Defined.

Lemma Rpower_base_1 (y : R) : Rpower 1 y = 1.
Proof. unfold Rpower. now rewrite ln_1, Rmult_0_r, exp_0. Qed.

Lemma Rpower_32_fifth : Rpower 32 (1 / 5) = 2.
Proof.
  replace 32 with (Rpower 2 (INR 5)).
  - rewrite Rpower_mult.
    replace (INR 5 * (1 / 5)) with 1 by (simpl; lra).
    apply Rpower_1. lra.
  - rewrite Rpower_pow by lra. simpl. lra.
Qed.

(** C2 as stated fails on a series of six points: the code anchors the
    growth rate on the second point (the first of the last five), not on
    the first of the series.  On [1, 32, 32, 32, 32, 32] the whole-series
    rate is [32^(1/5) - 1 = 1], clamped to 0.30; the code returns
    [(32/32)^(1/4) - 1 = 0]. *)
Lemma growth_rate_whole_series_counterexample :
  let historical_fcf := [1; 32; 32; 32; 32; 32] in
  (2 <= List.length historical_fcf)%nat
  /\ 0 < List.hd 0 historical_fcf
  /\ 0 < List.last historical_fcf 0
  /\ calculate_historical_growth_rate historical_fcf = Ok 0
  /\ series_cagr historical_fcf = 0.30
  /\ calculate_historical_growth_rate historical_fcf
     <> Ok (series_cagr historical_fcf).
Proof.
  cbv zeta.
  assert (Hcode : calculate_historical_growth_rate [1; 32; 32; 32; 32; 32] = Ok 0).
  { rewrite growth_rate_cagr; [| cbn [List.length]; lia | cbn; lra | cbn; lra].
    change (last_slice [1; 32; 32; 32; 32; 32] 5) with [32; 32; 32; 32; 32].
    unfold series_cagr. cbn [List.last List.hd].
    replace (32 / 32) with 1 by lra. rewrite Rpower_base_1.
    apply f_equal. unfold MIN_INITIAL_GROWTH, MAX_INITIAL_GROWTH.
    rewrite clamp_inside; lra. }
  assert (Hspec : series_cagr [1; 32; 32; 32; 32; 32] = 0.30).
  { unfold series_cagr. cbn [List.last List.hd].
    unfold len. cbn [List.length]. change (Z.of_nat 6 - 1)%Z with 5%Z.
    replace (32 / 1) with 32 by lra. rewrite Rpower_32_fifth.
    unfold MIN_INITIAL_GROWTH, MAX_INITIAL_GROWTH.
    rewrite clamp_above; lra. }
  repeat split; try assumption.
  - cbn [List.length]. lia.
  - cbn. lra.
  - cbn. lra.
  - rewrite Hcode, Hspec. intros H. injection H. lra.
Qed.

(** ** CostOfCapitalEstimator: [calculate_wacc] *)

Section CostOfCapital.

Variables beta market_cap total_debt interest_expense tax_rate : R.
Variables risk_free_rate equity_risk_premium : R.

Lemma cost_of_debt_ok :
  exists cost_of_debt,
    (if float_gt total_debt 0 && float_gt interest_expense 0 then
       cost_of_debt <- truediv interest_expense total_debt ;;
       ret (_clamp cost_of_debt 0.01 0.20)
     else ret (risk_free_rate + 0.015)) = Ok cost_of_debt.
Proof.
  destruct (float_gt total_debt 0) eqn:Hd; cbn [andb].
  - apply float_gt_iff in Hd.
    destruct (float_gt interest_expense 0); [|eexists; reflexivity].
    rewrite truediv_ok by lra. eexists; reflexivity.
  - eexists; reflexivity.
Qed.

(** Without capital the cost of equity comes back as it is; otherwise the
    weighted cost, clamped. *)
Lemma calculate_wacc_cases :
  (market_cap + total_debt <= 0 /\
   calculate_wacc beta market_cap total_debt interest_expense tax_rate
     risk_free_rate equity_risk_premium
   = Ok (risk_free_rate + beta * equity_risk_premium)) \/
  (0 < market_cap + total_debt /\
   exists wacc,
     calculate_wacc beta market_cap total_debt interest_expense tax_rate
       risk_free_rate equity_risk_premium = Ok wacc
     /\ 0.04 <= wacc <= 0.25).
Proof.
  unfold calculate_wacc.
  destruct cost_of_debt_ok as [cd ->]. cbn [bind].
  destruct (float_le (market_cap + total_debt) 0) eqn:Hc.
  - apply float_le_iff in Hc. left. split; [exact Hc | reflexivity].
  - apply float_le_false_iff in Hc. right. split; [exact Hc|].
    rewrite !truediv_ok by lra. cbn [bind ret].
    eexists; split; [reflexivity|]. apply clamp_bounds; lra.
Qed.

End CostOfCapital.

(** C3.  For every input to [calculate_wacc] with
    [market_cap + total_debt > 0] the call returns a WACC in [0.04, 0.25];
    for every input with [market_cap + total_debt <= 0] and [beta > 0] it
    returns a value [>= 0].  The first part holds for any risk-free rate
    and equity risk premium, the second for non-negative ones, as the two
    macro constants (0.045 and 0.055) are. *)
Theorem calculate_wacc_range
    (beta market_cap total_debt interest_expense tax_rate
     risk_free_rate equity_risk_premium : R) :
  (0 < market_cap + total_debt ->
   exists wacc,
     calculate_wacc beta market_cap total_debt interest_expense tax_rate
       risk_free_rate equity_risk_premium = Ok wacc
     /\ 0.04 <= wacc <= 0.25) /\
  (market_cap + total_debt <= 0 -> 0 < beta ->
   0 <= risk_free_rate -> 0 <= equity_risk_premium ->
   exists wacc,
     calculate_wacc beta market_cap total_debt interest_expense tax_rate
       risk_free_rate equity_risk_premium = Ok wacc
     /\ 0 <= wacc).
Proof.
  destruct (calculate_wacc_cases beta market_cap total_debt interest_expense
              tax_rate risk_free_rate equity_risk_premium)
    as [[Hc Hw] | [Hc Hw]]; split; intros; try lra; try exact Hw.
  rewrite Hw. eexists; split; [reflexivity|]. nra.
Qed.

Lemma calculate_wacc_range_witness :
  (exists wacc,
     calculate_wacc 1 500 100 3 0.21 RISK_FREE_RATE EQUITY_RISK_PREMIUM = Ok wacc
     /\ 0.04 <= wacc <= 0.25) /\
  (exists wacc,
     calculate_wacc 1 0 0 0 0.21 RISK_FREE_RATE EQUITY_RISK_PREMIUM = Ok wacc
     /\ 0 <= wacc).
Proof.
  split.
  - apply (calculate_wacc_range 1 500 100 3 0.21 RISK_FREE_RATE EQUITY_RISK_PREMIUM).
    lra.
  - apply (calculate_wacc_range 1 0 0 0 0.21 RISK_FREE_RATE EQUITY_RISK_PREMIUM);
      unfold RISK_FREE_RATE, EQUITY_RISK_PREMIUM; lra.
Defined.

(** ** TerminalValueEstimator: [calculate_terminal_value] *)

Lemma spread_floor (spread : R) :
  (if float_le spread 0.001 then 0.001 else spread) = Rmax spread 0.001.
Proof.
  unfold Rmax.
  destruct (float_le spread 0.001) eqn:H; [apply float_le_iff in H | apply float_le_false_iff in H];
    destruct (Rle_dec spread 0.001); lra.
Qed.

Lemma calculate_terminal_value_ok
    (terminal_fcf wacc long_term_growth_rate exit_multiple : R) :
  calculate_terminal_value terminal_fcf wacc long_term_growth_rate exit_multiple
  = Ok ((terminal_fcf * (1 + long_term_growth_rate)
           / Rmax (wacc - long_term_growth_rate) 0.001
         + terminal_fcf * exit_multiple) / 2).
Proof.
  unfold calculate_terminal_value. rewrite spread_floor.
  assert (0.001 <= Rmax (wacc - long_term_growth_rate) 0.001) by apply Rmax_r.
  rewrite truediv_ok by lra. cbn [bind].
  rewrite truediv_ok by lra. reflexivity.
Qed.

(** C5.  For every [terminal_fcf], [wacc], [long_term_growth_rate] and
    [exit_multiple], [calculate_terminal_value] returns
    [(terminal_fcf*(1+long_term_growth_rate)/max(wacc-long_term_growth_rate, 0.001)
      + terminal_fcf*exit_multiple)/2]; with [terminal_fcf = 1,000,000],
    [wacc = 0.09] and the defaults it returns
    [((1,000,000*1.025/0.065) + 1,000,000*20)/2], which is within 0.01 of
    17,884,615.38. *)
Theorem calculate_terminal_value_blend :
  (forall terminal_fcf wacc long_term_growth_rate exit_multiple : R,
     calculate_terminal_value terminal_fcf wacc long_term_growth_rate exit_multiple
     = Ok ((terminal_fcf * (1 + long_term_growth_rate)
              / Rmax (wacc - long_term_growth_rate) 0.001
            + terminal_fcf * exit_multiple) / 2)) /\
  (exists tv,
     calculate_terminal_value 1000000 0.09 LONG_TERM_GROWTH_RATE FCF_EXIT_MULTIPLE
     = Ok tv
     /\ tv = (1000000 * 1.025 / 0.065 + 1000000 * 20) / 2
     /\ Rabs (tv - 17884615.38) < 0.01).
Proof.
  split; [exact calculate_terminal_value_ok|].
  eexists. split; [apply calculate_terminal_value_ok|].
  unfold LONG_TERM_GROWTH_RATE, FCF_EXIT_MULTIPLE.
  replace (Rmax (0.09 - 0.025) 0.001) with 0.065
    by (unfold Rmax; destruct (Rle_dec (0.09 - 0.025) 0.001); lra).
  split; [lra|].
  apply Rabs_def1; lra.
Qed.

(** ** CashFlowProjector: [project_free_cash_flows] *)

Section Projection.

Variables (years : Z) (g L : R).

Lemma fade_denominator_nonzero : IZR (Z.max (years - 1) 1) <> 0.
Proof. apply not_0_IZR. lia. Qed.

Lemma project_loop_projection (ts : list Z) :
  forall (current_fcf : R) (projected : list R),
    project_loop ts years g L current_fcf projected
    = Ok (projected ++ projection ts years g L current_fcf).
Proof.
  induction ts as [|t rest IH]; intros current_fcf projected;
    cbn [project_loop projection].
  - now rewrite app_nil_r.
  - rewrite truediv_ok by apply fade_denominator_nonzero. cbn [bind].
    rewrite IH, <- app_assoc. reflexivity.
Qed.

Lemma projection_length (ts : list Z) :
  forall current_fcf,
    List.length (projection ts years g L current_fcf) = List.length ts.
Proof.
  induction ts as [|t rest IH]; intros c; cbn [projection List.length];
    [reflexivity|].
  now rewrite IH.
Qed.

(** Entry [i] of a projection over the years [a, a+1, ...] is the entry
    before it (the starting value for [i = 0]) compounded at the faded
    growth of year [a + i]. *)
Lemma projection_step :
  forall (k a : nat) (current_fcf : R) (i : nat),
    (i < k)%nat ->
    nth i (projection (map Z.of_nat (seq a k)) years g L current_fcf) 0
    = year_value current_fcf
        (projection (map Z.of_nat (seq a k)) years g L current_fcf) i
      * (1 + faded_growth g L years (Z.of_nat (a + i))).
Proof.
  induction k as [|k IH]; intros a c i Hi; [lia|].
  cbn [seq map projection].
  destruct i as [|j].
  - cbn [nth year_value]. now rewrite Nat.add_0_r.
  - cbn [nth year_value].
    rewrite (IH (S a) _ j) by lia.
    replace (S a + j)%nat with (a + S j)%nat by lia.
    destruct j; reflexivity.
Qed.

(** Inside the horizon the faded growth lies between the two rates. *)
Lemma faded_growth_between (t : Z) :
  (1 <= t <= years)%Z ->
  Rmin g L <= faded_growth g L years t <= Rmax g L.
Proof.
  intros Ht. unfold faded_growth.
  set (f := IZR (t - 1) / IZR (Z.max (years - 1) 1)).
  assert (Hd : 0 < IZR (Z.max (years - 1) 1)) by (apply IZR_lt; lia).
  assert (Hf : 0 <= f <= 1).
  { unfold f. split.
    - apply Rmult_le_pos; [apply IZR_le; lia | left; now apply Rinv_0_lt_compat].
    - apply Rmult_le_reg_r with (IZR (Z.max (years - 1) 1)); [assumption|].
      replace (IZR (t - 1) / IZR (Z.max (years - 1) 1) * IZR (Z.max (years - 1) 1))
        with (IZR (t - 1)) by (field; lra).
      rewrite Rmult_1_l. apply IZR_le. lia. }
  unfold Rmin, Rmax. destruct (Rle_dec g L); nra.
Qed.

Lemma projection_negative (ts : list Z) :
  Forall (fun t => -1 < faded_growth g L years t) ts ->
  forall current_fcf, current_fcf < 0 ->
    Forall (fun x => x < 0) (projection ts years g L current_fcf).
Proof.
  induction 1 as [|t rest Ht _ IH]; intros c Hc; cbn [projection];
    constructor.
  - nra.
  - apply IH. nra.
Qed.

End Projection.

Lemma range1_bounds (n : Z) : Forall (fun t => (1 <= t <= n)%Z) (range1 n).
Proof.
  unfold range1. rewrite Forall_forall. intros t Ht.
  apply in_map_iff in Ht. destruct Ht as (k & <- & Hk).
  apply in_seq in Hk. lia.
Qed.

(** C6.  For every [base_fcf], initial growth [g], [years >= 1] and
    long-term rate [L], [project_free_cash_flows] returns exactly [years]
    values, and value [t] (1-based, value 0 being [base_fcf]) equals value
    [t-1] times [1 + g_t] with
    [g_t = g + ((t-1)/max(years-1, 1))*(L - g)]; with the default
    [years = 7] it returns exactly 7 values. *)
Theorem project_free_cash_flows_spec (base_fcf g L : R) (years : Z) :
  (1 <= years)%Z ->
  exists projected,
    project_free_cash_flows base_fcf g years L = Ok projected
    /\ len projected = years
    /\ (forall t : nat, (1 <= t)%nat -> (Z.of_nat t <= years)%Z ->
          year_value base_fcf projected t
          = year_value base_fcf projected (t - 1)
            * (1 + (g + IZR (Z.of_nat t - 1) / IZR (Z.max (years - 1) 1) * (L - g))))
    /\ (exists projected7,
          project_free_cash_flows base_fcf g PROJECTION_YEARS L = Ok projected7
          /\ List.length projected7 = 7%nat).
Proof.
  intros Hy. unfold project_free_cash_flows.
  rewrite !project_loop_projection. cbn [app].
  eexists. split; [reflexivity|]. split; [|split].
  - unfold len, range1. rewrite projection_length, length_map, length_seq. lia.
  - intros t Ht1 Hty. destruct t as [|i]; [lia|].
    cbn [year_value]. unfold range1.
    rewrite projection_step by lia.
    replace (S i - 1)%nat with i by lia.
    reflexivity.
  - eexists. split; [reflexivity|].
    rewrite projection_length. reflexivity.
Qed.

Lemma project_free_cash_flows_spec_witness :
  exists projected,
    project_free_cash_flows 1000000 0.10 7 0.025 = Ok projected
    /\ len projected = 7%Z
    /\ (forall t : nat, (1 <= t)%nat -> (Z.of_nat t <= 7)%Z ->
          year_value 1000000 projected t
          = year_value 1000000 projected (t - 1)
            * (1 + (0.10 + IZR (Z.of_nat t - 1) / IZR (Z.max (7 - 1) 1)
                           * (0.025 - 0.10))))
    /\ (exists projected7,
          project_free_cash_flows 1000000 0.10 PROJECTION_YEARS 0.025 = Ok projected7
          /\ List.length projected7 = 7%nat).
Proof. apply (project_free_cash_flows_spec 1000000 0.10 0.025 7). lia. Defined.

(** ** PresentValueDiscounter: [discount_cash_flows] *)

Section FloatRange.

Lemma float_underflow_pos : 0 < FLOAT_UNDERFLOW.
Proof.
  unfold FLOAT_UNDERFLOW. apply Rinv_0_lt_compat, IZR_lt. reflexivity.
Qed.

(** Half the smallest float lies between [1e-325] and [1e-323]. *)
Lemma float_underflow_bounds : / 10 ^ 325 < FLOAT_UNDERFLOW < / 10 ^ 323.
Proof.
  unfold FLOAT_UNDERFLOW. rewrite !pow_IZR.
  split; (apply Rinv_lt_contravar;
          [rewrite <- mult_IZR; apply IZR_lt; reflexivity
          | apply IZR_lt; reflexivity]).
Qed.

Lemma float_underflow_lt_1 : FLOAT_UNDERFLOW < 1.
Proof.
  unfold FLOAT_UNDERFLOW. rewrite <- Rinv_1.
  apply Rinv_lt_contravar; [|apply IZR_lt; reflexivity].
  rewrite Rmult_1_l. apply IZR_lt. reflexivity.
Qed.

(** The largest float is above [10 ^ 308]. *)
Lemma float_max_ge (n : nat) : (n <= 308)%nat -> 10 ^ n <= FLOAT_MAX.
Proof.
  intros Hn. apply Rle_trans with (10 ^ 308).
  - apply Rle_pow; [lra | exact Hn].
  - unfold FLOAT_MAX. rewrite pow_IZR. apply IZR_le.
    intros H. vm_compute in H. discriminate H.
Qed.

Lemma float_max_ge_1 : 1 <= FLOAT_MAX.
Proof. apply (float_max_ge 0). lia. Qed.

(** Powers of a base up to 10. *)
Lemma small_power (x : R) (n : nat) :
  0 <= x <= 10 -> (n <= 308)%nat -> x ^ n <= 10 ^ 308.
Proof.
  intros Hx Hn. apply Rle_trans with (10 ^ n).
  - apply pow_incr. exact Hx.
  - apply Rle_pow; [lra | exact Hn].
Qed.

(** Powers of a base of at most [k] decimal digits. *)
Lemma pow_le_float_max (x : R) (k n : nat) :
  0 <= x <= 10 ^ k -> (k * n <= 308)%nat -> x ^ n <= FLOAT_MAX.
Proof.
  intros Hx Hkn. apply Rle_trans with ((10 ^ k) ^ n).
  - apply pow_incr. exact Hx.
  - rewrite <- pow_mult. now apply float_max_ge.
Qed.

(** Powers of a base of at least [1e-k] stay above the underflow. *)
Lemma pow_gt_float_underflow (x : R) (k n : nat) :
  / 10 ^ k <= x -> (k * n <= 323)%nat -> FLOAT_UNDERFLOW < x ^ n.
Proof.
  intros Hx Hkn.
  assert (Hk : 0 < / 10 ^ k) by (apply Rinv_0_lt_compat, pow_lt; lra).
  apply Rlt_le_trans with (/ 10 ^ 323); [apply float_underflow_bounds|].
  apply Rle_trans with ((/ 10 ^ k) ^ n); [|apply pow_incr; lra].
  rewrite pow_inv, <- pow_mult.
  apply Rinv_le_contravar; [apply pow_lt; lra | apply Rle_pow; [lra | exact Hkn]].
Qed.

(** ... and below [10 ^ 309]. *)
Lemma float_max_lt : FLOAT_MAX < 10 ^ 309.
Proof.
  unfold FLOAT_MAX. rewrite pow_IZR. apply IZR_lt. reflexivity.
Qed.

Lemma in_float_range_1 : in_float_range 1.
Proof.
  unfold in_float_range. rewrite Rabs_R1.
  split; [apply float_underflow_lt_1 | apply float_max_ge_1].
Qed.

Lemma in_float_range_nonzero (p : R) : in_float_range p -> p <> 0.
Proof.
  intros [Hlo _] ->. rewrite Rabs_R0 in Hlo.
  pose proof float_underflow_pos. lra.
Qed.

Lemma pow_int_ok (x : R) (t : nat) :
  in_float_range (x ^ t) -> pow_int x t = Ok (x ^ t).
Proof.
  intros [Hlo Hhi]. unfold pow_int. cbv zeta.
  decide_cmp (float_gt (Rabs (x ^ t)) FLOAT_MAX).
  decide_cmp (float_le (Rabs (x ^ t)) FLOAT_UNDERFLOW). reflexivity.
Qed.

Lemma pow_int_overflow (x : R) (t : nat) :
  FLOAT_MAX < Rabs (x ^ t) -> pow_int x t = Raise OverflowError.
Proof.
  intros H. unfold pow_int. cbv zeta.
  decide_cmp (float_gt (Rabs (x ^ t)) FLOAT_MAX). reflexivity.
Qed.

Lemma pow_int_underflow (x : R) (t : nat) :
  Rabs (x ^ t) <= FLOAT_UNDERFLOW -> pow_int x t = Ok 0.
Proof.
  intros H. unfold pow_int. cbv zeta.
  pose proof float_underflow_lt_1. pose proof float_max_ge_1.
  decide_cmp (float_gt (Rabs (x ^ t)) FLOAT_MAX).
  decide_cmp (float_le (Rabs (x ^ t)) FLOAT_UNDERFLOW). reflexivity.
Qed.

(** The three answers of [**] cover every power. *)
Lemma float_range_cases (p : R) :
  FLOAT_MAX < Rabs p \/ Rabs p <= FLOAT_UNDERFLOW \/ in_float_range p.
Proof.
  unfold in_float_range.
  destruct (Rlt_dec FLOAT_MAX (Rabs p)); [now left|].
  destruct (Rle_dec (Rabs p) FLOAT_UNDERFLOW); [right; now left|].
  right; right. lra.
Qed.

Lemma pow_le_1 (a : R) (t : nat) : 0 <= a <= 1 -> 0 <= a ^ t <= 1.
Proof.
  intros Ha. induction t as [|t IH]; cbn [pow]; [lra | nra].
Qed.

Lemma pow_above_1_monotone (a : R) (t n : nat) :
  1 <= a -> (t <= n)%nat -> 1 <= a ^ t <= a ^ n.
Proof.
  intros Ha Htn. split; [apply pow_R1_Rle; exact Ha | apply Rle_pow; assumption].
Qed.

Lemma pow_below_1_monotone (a : R) (t n : nat) :
  0 <= a <= 1 -> (t <= n)%nat -> a ^ n <= a ^ t <= 1.
Proof.
  intros Ha Htn. split; [|apply pow_le_1; exact Ha].
  replace n with (t + (n - t))%nat by lia. rewrite pow_add.
  pose proof (pow_le_1 a t Ha). pose proof (pow_le_1 a (n - t) Ha). nra.
Qed.

(** The powers of a base are monotone in the exponent: when the last one
    is within the float range, so are the earlier ones. *)
Lemma in_float_range_earlier (x : R) (t n : nat) :
  in_float_range (x ^ n) -> (t <= n)%nat -> in_float_range (x ^ t).
Proof.
  unfold in_float_range. rewrite <- !RPow_abs. intros [Hlo Hhi] Htn.
  pose proof float_underflow_lt_1. pose proof float_max_ge_1.
  pose proof (Rabs_pos x) as Hx.
  destruct (Rle_dec 1 (Rabs x)) as [H1 | H1].
  - pose proof (pow_above_1_monotone (Rabs x) t n H1 Htn). lra.
  - pose proof (pow_below_1_monotone (Rabs x) t n ltac:(lra) Htn). lra.
Qed.

End FloatRange.

Section Discounting.

Lemma discount_loop_ok (wacc : R) (cash_flows : list R) :
  forall (t : nat) (pv_sum : R),
    (forall t', (t <= t' < t + List.length cash_flows)%nat ->
       in_float_range ((1 + wacc) ^ t')) ->
    discount_loop cash_flows t wacc pv_sum
    = Ok (pv_sum + present_values cash_flows t wacc).
Proof.
  induction cash_flows as [|cf rest IH]; intros t pv_sum Hrange;
    cbn [discount_loop present_values].
  - unfold ret. apply f_equal. lra.
  - assert (Ht : in_float_range ((1 + wacc) ^ t))
      by (apply Hrange; cbn [List.length]; lia).
    rewrite pow_int_ok by exact Ht. cbn [bind].
    rewrite truediv_ok by now apply in_float_range_nonzero. cbn [bind].
    rewrite IH; [apply f_equal; lra|].
    intros t' Ht'. apply Hrange. cbn [List.length]. lia.
Qed.

(** Within the float range of the last discount factor, the present value
    is returned. *)
Lemma discount_cash_flows_ok (cash_flows : list R) (terminal_value wacc : R) :
  in_float_range ((1 + wacc) ^ List.length cash_flows) ->
  discount_cash_flows cash_flows terminal_value wacc
  = Ok (present_values cash_flows 1 wacc
        + terminal_value / (1 + wacc) ^ List.length cash_flows).
Proof.
  intros Hn. unfold discount_cash_flows.
  rewrite discount_loop_ok; cbn [bind].
  - rewrite pow_int_ok by exact Hn. cbn [bind].
    rewrite truediv_ok by now apply in_float_range_nonzero.
    cbn [bind]. unfold ret. apply f_equal. lra.
  - intros t' Ht'. apply (in_float_range_earlier _ t' _ Hn). lia.
Qed.

Lemma discount_loop_overflow (wacc : R) (cash_flows : list R) :
  1 <= Rabs (1 + wacc) ->
  forall (t : nat) (pv_sum : R),
    (exists t', (t <= t' < t + List.length cash_flows)%nat
                /\ FLOAT_MAX < Rabs ((1 + wacc) ^ t')) ->
    discount_loop cash_flows t wacc pv_sum = Raise OverflowError.
Proof.
  intros Hx. induction cash_flows as [|cf rest IH]; intros t pv_sum (t' & Ht' & Hover);
    cbn [discount_loop]; [cbn [List.length] in Ht'; lia|].
  destruct (Rlt_dec FLOAT_MAX (Rabs ((1 + wacc) ^ t))) as [Hnow | Hnot].
  - now rewrite pow_int_overflow.
  - assert (Ht : in_float_range ((1 + wacc) ^ t)).
    { unfold in_float_range. rewrite <- RPow_abs in *.
      pose proof (pow_R1_Rle (Rabs (1 + wacc)) t Hx).
      pose proof float_underflow_lt_1. lra. }
    rewrite pow_int_ok by exact Ht. cbn [bind].
    rewrite truediv_ok by now apply in_float_range_nonzero. cbn [bind].
    apply IH. exists t'. split; [|exact Hover].
    assert (t' <> t) by (intros ->; contradiction).
    cbn [List.length] in Ht'. lia.
Qed.

Lemma discount_loop_underflow (wacc : R) (cash_flows : list R) :
  Rabs (1 + wacc) <= 1 ->
  forall (t : nat) (pv_sum : R),
    (exists t', (t <= t' < t + List.length cash_flows)%nat
                /\ Rabs ((1 + wacc) ^ t') <= FLOAT_UNDERFLOW) ->
    discount_loop cash_flows t wacc pv_sum = Raise ZeroDivisionError.
Proof.
  intros Hx. induction cash_flows as [|cf rest IH]; intros t pv_sum (t' & Ht' & Hunder);
    cbn [discount_loop]; [cbn [List.length] in Ht'; lia|].
  destruct (Rle_dec (Rabs ((1 + wacc) ^ t)) FLOAT_UNDERFLOW) as [Hnow | Hnot].
  - rewrite pow_int_underflow by exact Hnow. cbn [bind].
    now rewrite truediv_zero.
  - assert (Ht : in_float_range ((1 + wacc) ^ t)).
    { unfold in_float_range. rewrite <- RPow_abs in *.
      pose proof (pow_le_1 (Rabs (1 + wacc)) t (conj (Rabs_pos _) Hx)).
      pose proof float_max_ge_1. lra. }
    rewrite pow_int_ok by exact Ht. cbn [bind].
    rewrite truediv_ok by now apply in_float_range_nonzero. cbn [bind].
    apply IH. exists t'. split; [|exact Hunder].
    assert (t' <> t) by (intros ->; contradiction).
    cbn [List.length] in Ht'. lia.
Qed.

(** A last discount factor beyond the largest float stops the loop on
    [OverflowError]. *)
Lemma discount_cash_flows_overflow (cash_flows : list R) (terminal_value wacc : R) :
  FLOAT_MAX < Rabs ((1 + wacc) ^ List.length cash_flows) ->
  discount_cash_flows cash_flows terminal_value wacc = Raise OverflowError.
Proof.
  intros Hover. unfold discount_cash_flows.
  pose proof float_max_ge_1 as Hmax.
  assert (Hlen : (1 <= List.length cash_flows)%nat).
  { destruct cash_flows; [|cbn; lia].
    cbn [List.length pow] in Hover. rewrite Rabs_R1 in Hover. lra. }
  rewrite discount_loop_overflow; [reflexivity| |].
  - destruct (Rle_dec 1 (Rabs (1 + wacc))) as [H1 | H1]; [exact H1|].
    rewrite <- RPow_abs in Hover.
    pose proof (pow_le_1 (Rabs (1 + wacc)) (List.length cash_flows)
                  ltac:(pose proof (Rabs_pos (1 + wacc)); lra)).
    lra.
  - exists (List.length cash_flows). split; [lia | exact Hover].
Qed.

(** A last discount factor that underflows to [0.0] stops the loop on
    [ZeroDivisionError]: a rate of [-1], or a smaller factor compounded
    over many years. *)
Lemma discount_cash_flows_underflow (cash_flows : list R) (terminal_value wacc : R) :
  Rabs ((1 + wacc) ^ List.length cash_flows) <= FLOAT_UNDERFLOW ->
  discount_cash_flows cash_flows terminal_value wacc = Raise ZeroDivisionError.
Proof.
  intros Hunder. unfold discount_cash_flows.
  pose proof float_underflow_lt_1 as Hmin.
  assert (Hlen : (1 <= List.length cash_flows)%nat).
  { destruct cash_flows; [|cbn; lia].
    cbn [List.length pow] in Hunder. rewrite Rabs_R1 in Hunder. lra. }
  rewrite discount_loop_underflow; [reflexivity| |].
  - destruct (Rle_dec (Rabs (1 + wacc)) 1) as [H1 | H1]; [exact H1|].
    rewrite <- RPow_abs in Hunder.
    pose proof (pow_R1_Rle (Rabs (1 + wacc)) (List.length cash_flows) ltac:(lra)).
    lra.
  - exists (List.length cash_flows). split; [lia | exact Hunder].
Qed.

(** Rates from 0 up: the discount factors are at least 1, and within the
    float range as soon as the last one is below the largest float. *)
Lemma discount_factor_in_range (wacc : R) (n : nat) :
  0 <= wacc -> (1 + wacc) ^ n <= FLOAT_MAX -> in_float_range ((1 + wacc) ^ n).
Proof.
  intros Hw Hmax. unfold in_float_range.
  pose proof (pow_R1_Rle (1 + wacc) n ltac:(lra)).
  pose proof float_underflow_lt_1.
  rewrite Rabs_pos_eq by lra. lra.
Qed.

Lemma pow_lt_strict (x y : R) (t : nat) :
  0 < x -> x < y -> (1 <= t)%nat -> x ^ t < y ^ t.
Proof.
  intros Hx Hxy Ht. induction t as [|t IH]; [lia|].
  destruct t as [|t].
  - simpl. lra.
  - assert (Hpos : 0 < x ^ S t) by now apply pow_lt.
    assert (IH' : x ^ S t < y ^ S t) by (apply IH; lia).
    change (x ^ S (S t)) with (x * x ^ S t).
    change (y ^ S (S t)) with (y * y ^ S t).
    nra.
Qed.

Lemma discounted_lt (c x y : R) (t : nat) :
  0 < c -> 0 < x -> x < y -> (1 <= t)%nat -> c / y ^ t < c / x ^ t.
Proof.
  intros Hc Hx Hxy Ht.
  assert (0 < x ^ t) by now apply pow_lt.
  assert (x ^ t < y ^ t) by now apply pow_lt_strict.
  unfold Rdiv. apply Rmult_lt_compat_l; [assumption|].
  apply Rinv_lt_contravar; [|assumption].
  apply Rmult_lt_0_compat; lra.
Qed.

(** Discounting at a rate from 0 up brings a negative amount closer to 0. *)
Lemma discounted_above (cf wacc : R) (t : nat) :
  cf < 0 -> 0 < wacc -> cf <= cf / (1 + wacc) ^ t.
Proof.
  intros Hcf Hw.
  pose proof (pow_R1_Rle (1 + wacc) t ltac:(lra)) as Hp.
  assert (Hi : 0 < / (1 + wacc) ^ t <= 1).
  { split; [apply Rinv_0_lt_compat; lra|].
    apply Rle_trans with (/ 1); [|rewrite Rinv_1; lra].
    apply Rinv_le_contravar; lra. }
  unfold Rdiv. nra.
Qed.

Lemma present_values_le (cash_flows : list R) (w1 w2 : R) :
  Forall (fun cf => 0 < cf) cash_flows -> 0 <= w1 < w2 ->
  forall t, (1 <= t)%nat ->
    present_values cash_flows t w2 <= present_values cash_flows t w1.
Proof.
  intros Hpos Hw. induction Hpos as [|cf rest Hcf _ IH]; intros t Ht;
    cbn [present_values]; [lra|].
  assert (cf / (1 + w2) ^ t < cf / (1 + w1) ^ t)
    by (apply discounted_lt; lra || assumption).
  specialize (IH (S t) ltac:(lia)). lra.
Qed.

Lemma sum_from (l : list R) : forall a, fold_left Rplus l a = a + Py.sum l.
Proof.
  unfold Py.sum. induction l as [|x l IH]; intros a; cbn [fold_left]; [lra|].
  rewrite (IH (a + x)), (IH (0 + x)). lra.
Qed.

(** At a zero rate nothing is discounted. *)
Lemma present_values_undiscounted (cash_flows : list R) :
  forall t, present_values cash_flows t 0 = Py.sum cash_flows.
Proof.
  induction cash_flows as [|cf rest IH]; intros t; cbn [present_values].
  - reflexivity.
  - rewrite IH. unfold Py.sum at 2. cbn [fold_left]. rewrite sum_from.
    rewrite Rplus_0_r, pow1. lra.
Qed.

Lemma present_values_negative (wacc : R) :
  0 < 1 + wacc ->
  forall (cash_flows : list R) (t : nat),
    Forall (fun cf => cf < 0) cash_flows ->
    present_values cash_flows t wacc <= 0.
Proof.
  intros Hw cash_flows t Hneg. revert t.
  induction Hneg as [|cf rest Hcf _ IH]; intros t; cbn [present_values]; [lra|].
  assert (0 < / (1 + wacc) ^ t) by (apply Rinv_0_lt_compat, pow_lt; assumption).
  specialize (IH (S t)). unfold Rdiv. nra.
Qed.

End Discounting.

(** C7 as stated fails where the discount factor leaves the float range:
    for two cash flows of 1, a terminal value of 1 and the rates 0 and
    [1e200], the second call raises [OverflowError] on [(1 + 1e200) ** 2]
    and there is no result to compare. *)
Lemma discount_cash_flows_overflow_counterexample :
  let cash_flows := [1; 1] in
  cash_flows <> []
  /\ Forall (fun cf => 0 < cf) cash_flows
  /\ 0 <= 0 < 10 ^ 200
  /\ discount_cash_flows cash_flows 1 (10 ^ 200) = Raise OverflowError
  /\ ~ (exists pv1 pv2,
          discount_cash_flows cash_flows 1 0 = Ok pv1
          /\ discount_cash_flows cash_flows 1 (10 ^ 200) = Ok pv2
          /\ pv2 < pv1).
Proof.
  cbv zeta.
  assert (Hpos : 0 < 10 ^ 200) by (apply pow_lt; lra).
  assert (Hraise : discount_cash_flows [1; 1] 1 (10 ^ 200) = Raise OverflowError).
  { apply discount_cash_flows_overflow. cbn [List.length].
    rewrite Rabs_pos_eq by (apply pow_le; lra).
    apply Rlt_le_trans with (10 ^ 309); [apply float_max_lt|].
    apply Rle_trans with ((10 ^ 200) ^ 2).
    - rewrite <- pow_mult. apply Rle_pow; [lra | lia].
    - apply pow_incr. lra. }
  split; [discriminate|]. split; [repeat constructor; lra|].
  split; [lra|]. split; [exact Hraise|].
  intros (pv1 & pv2 & _ & H2 & _). rewrite Hraise in H2. discriminate H2.
Qed.

(** C7 (amended).  For every non-empty list of [n] strictly positive cash
    flows and every positive terminal value, [discount_cash_flows] is
    strictly decreasing in [wacc] on the rates from 0 up whose last discount
    factor [(1 + wacc) ** n] is within the float range (at most [1e308]),
    and for every such [wacc > 0] its result is strictly less than the
    undiscounted sum of the cash flows plus the terminal value.  For a rate
    whose last discount factor is beyond the float range (from [1e309] on)
    the call raises [OverflowError]. *)
Theorem discount_cash_flows_decreasing (cash_flows : list R) (terminal_value : R) :
  cash_flows <> [] ->
  Forall (fun cf => 0 < cf) cash_flows ->
  0 < terminal_value ->
  let n := List.length cash_flows in
  (forall wacc1 wacc2, 0 <= wacc1 < wacc2 -> (1 + wacc2) ^ n <= 10 ^ 308 ->
     exists pv1 pv2,
       discount_cash_flows cash_flows terminal_value wacc1 = Ok pv1
       /\ discount_cash_flows cash_flows terminal_value wacc2 = Ok pv2
       /\ pv2 < pv1) /\
  (forall wacc, 0 < wacc -> (1 + wacc) ^ n <= 10 ^ 308 ->
     exists pv,
       discount_cash_flows cash_flows terminal_value wacc = Ok pv
       /\ pv < Py.sum cash_flows + terminal_value) /\
  (forall wacc, 0 <= wacc -> 10 ^ 309 <= (1 + wacc) ^ n ->
     discount_cash_flows cash_flows terminal_value wacc = Raise OverflowError).
Proof.
  intros Hne Hpos Htv n. unfold n.
  pose proof (float_max_ge 308 (le_n 308)) as Hmax308.
  pose proof float_max_lt as Hmax309.
  assert (Hlen : (1 <= List.length cash_flows)%nat)
    by (destruct cash_flows; [congruence | simpl; lia]).
  assert (Hmono : forall w1 w2, 0 <= w1 < w2 ->
            present_values cash_flows 1 w2
            + terminal_value / (1 + w2) ^ List.length cash_flows
            < present_values cash_flows 1 w1
              + terminal_value / (1 + w1) ^ List.length cash_flows).
  { intros w1 w2 Hw.
    pose proof (present_values_le cash_flows w1 w2 Hpos Hw 1%nat (le_n 1)).
    assert (terminal_value / (1 + w2) ^ List.length cash_flows
            < terminal_value / (1 + w1) ^ List.length cash_flows)
      by (apply discounted_lt; lra || assumption).
    lra. }
  split; [|split].
  - intros w1 w2 Hw Hmax. do 2 eexists.
    rewrite (discount_cash_flows_ok _ _ w2)
      by (apply discount_factor_in_range; lra).
    rewrite (discount_cash_flows_ok _ _ w1).
    + split; [reflexivity|]. split; [reflexivity|]. now apply Hmono.
    + apply discount_factor_in_range; [lra|].
      apply Rle_trans with ((1 + w2) ^ List.length cash_flows); [|lra].
      apply pow_incr. lra.
  - intros w Hw Hmax. eexists.
    rewrite discount_cash_flows_ok by (apply discount_factor_in_range; lra).
    split; [reflexivity|].
    specialize (Hmono 0 w ltac:(lra)).
    rewrite present_values_undiscounted in Hmono.
    replace (1 + 0) with 1 in Hmono by lra.
    rewrite pow1 in Hmono. lra.
  - intros w Hw Hover. apply discount_cash_flows_overflow.
    rewrite Rabs_pos_eq; [lra|]. apply pow_le. lra.
Qed.

Lemma discount_cash_flows_decreasing_witness :
  let cash_flows := [1000000; 1000000; 1000000; 1000000; 1000000; 1000000; 1000000] in
  (exists pv1 pv2,
     discount_cash_flows cash_flows 10000000 0.05 = Ok pv1
     /\ discount_cash_flows cash_flows 10000000 0.09 = Ok pv2
     /\ pv2 < pv1) /\
  (exists pv,
     discount_cash_flows cash_flows 10000000 0.09 = Ok pv
     /\ pv < Py.sum cash_flows + 10000000).
Proof.
  cbv zeta.
  destruct (discount_cash_flows_decreasing
              [1000000; 1000000; 1000000; 1000000; 1000000; 1000000; 1000000]
              10000000) as (Hdecr & Hbelow & _).
  - discriminate.
  - repeat constructor; lra.
  - lra.
  - split.
    + apply Hdecr; [lra|]. apply small_power; [lra | cbn; lia].
    + apply Hbelow; [lra|]. apply small_power; [lra | cbn; lia].
Defined.

(** ** IntrinsicValueCalculator: [calculate_intrinsic_value] *)

Section IntrinsicValue.

Variable company_data : CompanyData.t.

Local Notation "'historical_fcf'" :=
  (get (CompanyData.historical_fcf company_data) []).
Local Notation "'base_fcf'" := (List.last historical_fcf 0).
Local Notation "'shares'" := (CompanyData.shares_outstanding company_data).

Lemma intrinsic_value_empty :
  historical_fcf = [] -> calculate_intrinsic_value company_data = Ok None.
Proof. unfold calculate_intrinsic_value. now intros ->. Qed.

Lemma intrinsic_value_zero_base :
  base_fcf = 0 -> calculate_intrinsic_value company_data = Ok None.
Proof.
  unfold calculate_intrinsic_value.
  destruct historical_fcf as [|x l]; [reflexivity|].
  intros H0. rewrite (last_ok (x :: l) 0) by discriminate. cbn [bind].
  now rewrite H0, (proj2 (float_eq_iff 0 0) eq_refl).
Qed.

Lemma projection_nonempty (base g : R) :
  projection (range1 PROJECTION_YEARS) PROJECTION_YEARS g LONG_TERM_GROWTH_RATE base
  <> [].
Proof.
  intros Hnil. apply (f_equal (@List.length R)) in Hnil.
  rewrite projection_length in Hnil. discriminate Hnil.
Qed.

Lemma projection_years (base g : R) :
  List.length
    (projection (range1 PROJECTION_YEARS) PROJECTION_YEARS g LONG_TERM_GROWTH_RATE
       base) = 7%nat.
Proof. now rewrite projection_length. Qed.

(** Past the two early exits the run reaches [discount_cash_flows], whose
    last discount factor [(1 + wacc) ** 7] decides: beyond the largest
    float the run stops on [OverflowError], before the share-count test;
    a run that returns had its discount factors within the float range;
    and within the float range the run reaches the share-count test, and
    past it returns this valuation. *)
Lemma intrinsic_value_cases :
  historical_fcf <> [] -> base_fcf <> 0 ->
  exists growth_rate wacc,
    calculate_historical_growth_rate historical_fcf = Ok growth_rate
    /\ calculate_wacc (CompanyData.beta company_data)
         (CompanyData.market_cap company_data)
         (CompanyData.total_debt company_data)
         (CompanyData.interest_expense company_data)
         (CompanyData.tax_rate company_data)
         RISK_FREE_RATE EQUITY_RISK_PREMIUM = Ok wacc
    /\ (FLOAT_MAX < Rabs ((1 + wacc) ^ 7) ->
        calculate_intrinsic_value company_data = Raise OverflowError)
    /\ (forall answer,
          calculate_intrinsic_value company_data = Ok answer ->
          in_float_range ((1 + wacc) ^ 7))
    /\ (in_float_range ((1 + wacc) ^ 7) ->
        (shares <= 0 -> calculate_intrinsic_value company_data = Ok None)
        /\ (0 < shares ->
            let growth := recovery_growth base_fcf growth_rate in
            let ticker := get (CompanyData.ticker company_data) "UNKNOWN"%string in
            calculate_intrinsic_value company_data
            = Ok (Some {|
                Valuation.ticker := ticker;
                Valuation.name := get (CompanyData.name company_data) (Some ticker);
                Valuation.sector :=
                  get (CompanyData.sector company_data) (Some "Unknown"%string);
                Valuation.current_price := CompanyData.current_price company_data;
                Valuation.intrinsic_value :=
                  round ((enterprise_value base_fcf growth wacc
                          - CompanyData.total_debt company_data) / shares) 2;
                Valuation.wacc := Some (round wacc 4);
                Valuation.fcf_growth_rate := Some (round growth 4);
                Valuation.base_fcf := round base_fcf 0;
                Valuation.shares_outstanding := shares
              |}))).
Proof.
  unfold calculate_intrinsic_value.
  destruct historical_fcf as [|x l]; [congruence|].
  intros _ Hbase.
  rewrite (last_ok (x :: l) 0) by discriminate. cbn [bind].
  rewrite (proj2 (float_eq_false_iff _ 0) Hbase).
  destruct (growth_rate_total (x :: l)) as (g & Hg & _).
  assert (Hw : exists wacc,
             calculate_wacc (CompanyData.beta company_data)
               (CompanyData.market_cap company_data)
               (CompanyData.total_debt company_data)
               (CompanyData.interest_expense company_data)
               (CompanyData.tax_rate company_data)
               RISK_FREE_RATE EQUITY_RISK_PREMIUM = Ok wacc).
  { destruct (calculate_wacc_cases (CompanyData.beta company_data)
                (CompanyData.market_cap company_data)
                (CompanyData.total_debt company_data)
                (CompanyData.interest_expense company_data)
                (CompanyData.tax_rate company_data)
                RISK_FREE_RATE EQUITY_RISK_PREMIUM)
      as [[_ ->] | [_ (w & -> & _)]]; eexists; reflexivity. }
  destruct Hw as (wacc & Hw).
  exists g, wacc. split; [exact Hg|]. split; [exact Hw|].
  rewrite Hg. cbn [bind]. rewrite Hw. cbn [bind].
  fold (recovery_growth (List.last (x :: l) 0) g).
  set (growth := recovery_growth (List.last (x :: l) 0) g).
  unfold project_free_cash_flows. rewrite project_loop_projection. cbn [app bind].
  rewrite (last_ok _ 0) by apply projection_nonempty. cbn [bind].
  rewrite calculate_terminal_value_ok. cbn [bind].
  split; [|split].
  - intros Hover.
    rewrite discount_cash_flows_overflow; [reflexivity|].
    now rewrite projection_years.
  - intros answer.
    destruct (float_range_cases ((1 + wacc) ^ 7)) as [H | [H | H]];
      [| |intros _; exact H].
    + rewrite discount_cash_flows_overflow by now rewrite projection_years.
      discriminate.
    + rewrite discount_cash_flows_underflow by now rewrite projection_years.
      discriminate.
  - intros Hrange.
    rewrite discount_cash_flows_ok by now rewrite projection_years.
    cbn [bind]. split.
    + intros Hs. now rewrite (proj2 (float_le_iff _ 0) Hs).
    + intros Hs. rewrite (proj2 (float_le_false_iff _ 0) Hs).
      rewrite truediv_ok by lra. reflexivity.
Qed.

(** The discount factors of a record are within the float range when its
    capital is positive (the WACC is then clamped), or when its beta lies
    between -18 and [1e40] (the cost of equity, unclamped, then lies
    between -0.945 and [5.5e38]). *)
Lemma company_wacc_in_range (wacc : R) :
  0 < CompanyData.market_cap company_data + CompanyData.total_debt company_data
  \/ -18 <= CompanyData.beta company_data <= 10 ^ 40 ->
  calculate_wacc (CompanyData.beta company_data)
    (CompanyData.market_cap company_data)
    (CompanyData.total_debt company_data)
    (CompanyData.interest_expense company_data)
    (CompanyData.tax_rate company_data)
    RISK_FREE_RATE EQUITY_RISK_PREMIUM = Ok wacc ->
  in_float_range ((1 + wacc) ^ 7).
Proof.
  intros Hbound Hw.
  assert (Hten : 2 <= 10 ^ 40).
  { apply Rle_trans with (10 ^ 1); [simpl; lra | apply Rle_pow; [lra | lia]]. }
  assert (H : / 10 ^ 2 <= 1 + wacc <= 10 ^ 40).
  { replace (/ 10 ^ 2) with 0.01 by (simpl; lra).
    destruct (calculate_wacc_cases (CompanyData.beta company_data)
                (CompanyData.market_cap company_data)
                (CompanyData.total_debt company_data)
                (CompanyData.interest_expense company_data)
                (CompanyData.tax_rate company_data)
                RISK_FREE_RATE EQUITY_RISK_PREMIUM)
      as [[Hcap Hw'] | [_ (w & Hw' & Hr)]];
      rewrite Hw in Hw'; injection Hw' as ->.
    - destruct Hbound as [Hpos | Hb]; [lra|].
      unfold RISK_FREE_RATE, EQUITY_RISK_PREMIUM. split; nra.
    - lra. }
  assert (Hpos : 0 < / 10 ^ 2) by (apply Rinv_0_lt_compat, pow_lt; lra).
  unfold in_float_range.
  rewrite Rabs_pos_eq by (apply pow_le; lra). split.
  - apply (pow_gt_float_underflow _ 2); [lra | lia].
  - apply (pow_le_float_max _ 40); [lra | lia].
Qed.

Lemma company_wacc_positive (wacc : R) :
  0 < CompanyData.beta company_data ->
  calculate_wacc (CompanyData.beta company_data)
    (CompanyData.market_cap company_data)
    (CompanyData.total_debt company_data)
    (CompanyData.interest_expense company_data)
    (CompanyData.tax_rate company_data)
    RISK_FREE_RATE EQUITY_RISK_PREMIUM = Ok wacc ->
  0 < wacc.
Proof.
  intros Hbeta Hw.
  destruct (calculate_wacc_cases (CompanyData.beta company_data)
              (CompanyData.market_cap company_data)
              (CompanyData.total_debt company_data)
              (CompanyData.interest_expense company_data)
              (CompanyData.tax_rate company_data)
              RISK_FREE_RATE EQUITY_RISK_PREMIUM)
    as [[Hcap Hw'] | [_ (w & Hw' & Hr)]];
    rewrite Hw in Hw'; injection Hw' as ->.
  - unfold RISK_FREE_RATE, EQUITY_RISK_PREMIUM. nra.
  - lra.
Qed.

(** Past the two early exits and with discount factors within the float
    range, the run reaches the share-count test, and past it returns a
    valuation. *)
Lemma intrinsic_value_returns :
  historical_fcf <> [] -> base_fcf <> 0 ->
  0 < CompanyData.market_cap company_data + CompanyData.total_debt company_data
  \/ -18 <= CompanyData.beta company_data <= 10 ^ 40 ->
  exists growth_rate,
    calculate_historical_growth_rate historical_fcf = Ok growth_rate
    /\ (shares <= 0 -> calculate_intrinsic_value company_data = Ok None)
    /\ (0 < shares ->
        exists valuation,
          calculate_intrinsic_value company_data = Ok (Some valuation)
          /\ Valuation.fcf_growth_rate valuation
             = Some (round (recovery_growth base_fcf growth_rate) 4)).
Proof.
  intros Hne Hbase Hbound.
  destruct (intrinsic_value_cases Hne Hbase) as (g & wacc & Hg & Hw & _ & _ & Hrun).
  destruct (Hrun (company_wacc_in_range wacc Hbound Hw)) as [Hnone Hsome].
  exists g. split; [exact Hg|]. split; [exact Hnone|].
  intros Hs. specialize (Hsome Hs). cbv zeta in Hsome.
  eexists. split; [exact Hsome | reflexivity].
Qed.

(** Past the two early exits, with a positive beta and discount factors
    within the float range, the run reaches the share-count test, and past
    it returns this valuation. *)
Lemma intrinsic_value_run :
  historical_fcf <> [] -> base_fcf <> 0 ->
  0 < CompanyData.beta company_data ->
  0 < CompanyData.market_cap company_data + CompanyData.total_debt company_data
  \/ CompanyData.beta company_data <= 10 ^ 40 ->
  exists growth_rate wacc,
    calculate_historical_growth_rate historical_fcf = Ok growth_rate
    /\ calculate_wacc (CompanyData.beta company_data)
         (CompanyData.market_cap company_data)
         (CompanyData.total_debt company_data)
         (CompanyData.interest_expense company_data)
         (CompanyData.tax_rate company_data)
         RISK_FREE_RATE EQUITY_RISK_PREMIUM = Ok wacc
    /\ 0 < wacc
    /\ (shares <= 0 -> calculate_intrinsic_value company_data = Ok None)
    /\ (0 < shares ->
        let growth := recovery_growth base_fcf growth_rate in
        let ticker := get (CompanyData.ticker company_data) "UNKNOWN"%string in
        calculate_intrinsic_value company_data
        = Ok (Some {|
            Valuation.ticker := ticker;
            Valuation.name := get (CompanyData.name company_data) (Some ticker);
            Valuation.sector :=
              get (CompanyData.sector company_data) (Some "Unknown"%string);
            Valuation.current_price := CompanyData.current_price company_data;
            Valuation.intrinsic_value :=
              round ((enterprise_value base_fcf growth wacc
                      - CompanyData.total_debt company_data) / shares) 2;
            Valuation.wacc := Some (round wacc 4);
            Valuation.fcf_growth_rate := Some (round growth 4);
            Valuation.base_fcf := round base_fcf 0;
            Valuation.shares_outstanding := shares
          |})).
Proof.
  intros Hne Hbase Hbeta Hbound.
  destruct (intrinsic_value_cases Hne Hbase) as (g & wacc & Hg & Hw & _ & _ & Hrun).
  assert (Hrange : in_float_range ((1 + wacc) ^ 7)).
  { apply company_wacc_in_range; [|exact Hw].
    destruct Hbound as [Hcap | Hb]; [now left | right; lra]. }
  exists g, wacc. split; [exact Hg|]. split; [exact Hw|].
  split; [exact (company_wacc_positive wacc Hbeta Hw)|].
  exact (Hrun Hrange).
Qed.

(** Without capital the rate is the cost of equity, unclamped: from a beta
    of [1e46] on, [(1 + wacc) ** 7] is beyond the largest float. *)
Lemma intrinsic_value_overflow :
  historical_fcf <> [] -> base_fcf <> 0 ->
  CompanyData.market_cap company_data + CompanyData.total_debt company_data <= 0 ->
  10 ^ 46 <= CompanyData.beta company_data ->
  calculate_intrinsic_value company_data = Raise OverflowError.
Proof.
  intros Hne Hbase Hcap Hbeta.
  destruct (intrinsic_value_cases Hne Hbase) as (g & wacc & _ & Hw & Hover & _).
  apply Hover.
  destruct (calculate_wacc_cases (CompanyData.beta company_data)
              (CompanyData.market_cap company_data)
              (CompanyData.total_debt company_data)
              (CompanyData.interest_expense company_data)
              (CompanyData.tax_rate company_data)
              RISK_FREE_RATE EQUITY_RISK_PREMIUM)
    as [[_ Hw'] | [Hpos _]]; [|lra].
  rewrite Hw in Hw'. injection Hw' as ->.
  assert (Hp : 0 < 10 ^ 44) by (apply pow_lt; lra).
  assert (Hbig : 5 * 10 ^ 44 <= 1 + (RISK_FREE_RATE
                                     + CompanyData.beta company_data
                                       * EQUITY_RISK_PREMIUM)).
  { unfold RISK_FREE_RATE, EQUITY_RISK_PREMIUM.
    change (10 ^ 46) with (10 * (10 * 10 ^ 44)) in Hbeta. nra. }
  rewrite Rabs_pos_eq by (apply pow_le; lra).
  apply Rlt_le_trans with (10 ^ 309); [apply float_max_lt|].
  apply Rle_trans with ((5 * 10 ^ 44) ^ 7); [|apply pow_incr; lra].
  rewrite Rpow_mult_distr, <- pow_mult.
  replace (44 * 7)%nat with 308%nat by reflexivity.
  change (10 ^ 309) with (10 * 10 ^ 308).
  assert (0 < 10 ^ 308) by (apply pow_lt; lra).
  assert (10 <= 5 ^ 7) by (simpl; lra).
  nra.
Qed.

End IntrinsicValue.

Lemma enterprise_value_negative (base_fcf growth_rate wacc : R) :
  base_fcf < 0 -> -1 < growth_rate -> 0 < wacc ->
  enterprise_value base_fcf growth_rate wacc < 0.
Proof.
  intros Hbase Hg Hw. unfold enterprise_value. cbv zeta.
  set (projected := projection (range1 PROJECTION_YEARS) PROJECTION_YEARS
                      growth_rate LONG_TERM_GROWTH_RATE base_fcf).
  assert (Hneg : Forall (fun x => x < 0) projected).
  { apply projection_negative; [|assumption].
    eapply Forall_impl; [|apply range1_bounds].
    intros t Ht. cbv beta in Ht.
    pose proof (faded_growth_between PROJECTION_YEARS growth_rate
                  LONG_TERM_GROWTH_RATE t Ht) as [Hlo _].
    unfold Rmin in Hlo.
    destruct (Rle_dec growth_rate LONG_TERM_GROWTH_RATE);
      unfold LONG_TERM_GROWTH_RATE in *; lra. }
  assert (Hlast : List.last projected 0 < 0).
  { apply (Forall_last (fun x => x < 0)); [|assumption].
    apply projection_nonempty. }
  pose proof (present_values_negative wacc ltac:(lra) projected 1 Hneg) as Hpv.
  assert (Hs : 0 < / Rmax (wacc - LONG_TERM_GROWTH_RATE) 0.001).
  { apply Rinv_0_lt_compat.
    pose proof (Rmax_r (wacc - LONG_TERM_GROWTH_RATE) 0.001). lra. }
  assert (Hd : 0 < / (1 + wacc) ^ List.length projected)
    by (apply Rinv_0_lt_compat, pow_lt; lra).
  assert (Htv : (List.last projected 0 * (1 + LONG_TERM_GROWTH_RATE)
                   / Rmax (wacc - LONG_TERM_GROWTH_RATE) 0.001
                 + List.last projected 0 * FCF_EXIT_MULTIPLE) / 2 < 0).
  { unfold LONG_TERM_GROWTH_RATE, FCF_EXIT_MULTIPLE in *. unfold Rdiv.
    assert (List.last projected 0 * (1 + 0.025)
            * / Rmax (wacc - 0.025) 0.001 < 0) by nra.
    lra. }
  unfold Rdiv in *. nra.
Qed.

Lemma recovery_growth_negative_base (base_fcf growth_rate : R) :
  base_fcf < 0 -> 0.05 <= recovery_growth base_fcf growth_rate.
Proof.
  intros Hb. unfold recovery_growth.
  rewrite (proj2 (float_lt_iff _ 0) Hb), max_Rmax. apply Rmax_r.
Qed.

(** A negative base gives a negative value per share: below minus the debt
    per share, up to the rounding to cents. *)
Lemma intrinsic_value_negative_base (company_data : CompanyData.t) :
  get (CompanyData.historical_fcf company_data) [] <> [] ->
  List.last (get (CompanyData.historical_fcf company_data) []) 0 < 0 ->
  0 < CompanyData.beta company_data ->
  0 < CompanyData.market_cap company_data + CompanyData.total_debt company_data
  \/ CompanyData.beta company_data <= 10 ^ 40 ->
  0 < CompanyData.shares_outstanding company_data ->
  exists valuation,
    calculate_intrinsic_value company_data = Ok (Some valuation)
    /\ Valuation.intrinsic_value valuation
       < - CompanyData.total_debt company_data
           / CompanyData.shares_outstanding company_data + 0.005.
Proof.
  intros Hne Hbase Hbeta Hbound Hshares.
  destruct (intrinsic_value_run company_data Hne ltac:(lra) Hbeta Hbound)
    as (g & wacc & _ & _ & Hwacc & _ & Hrun).
  specialize (Hrun Hshares). cbv zeta in Hrun.
  eexists. split; [exact Hrun|]. cbn [Valuation.intrinsic_value].
  set (base := List.last (get (CompanyData.historical_fcf company_data) []) 0) in *.
  pose proof (recovery_growth_negative_base base g Hbase) as Hgrowth.
  pose proof (enterprise_value_negative base (recovery_growth base g) wacc
                Hbase ltac:(lra) Hwacc) as Hev.
  set (ev := enterprise_value base (recovery_growth base g) wacc) in *.
  set (debt := CompanyData.total_debt company_data) in *.
  set (shares := CompanyData.shares_outstanding company_data) in *.
  pose proof (round_error ((ev - debt) / shares) 2) as Herr.
  pose proof (Rle_abs (round ((ev - debt) / shares) 2 - (ev - debt) / shares)).
  assert (Hs : 0 < / shares) by now apply Rinv_0_lt_compat.
  assert ((ev - debt) / shares < - debt / shares) by (unfold Rdiv; nra).
  replace (1 / 2 / 10 ^ 2) with 0.005 in Herr by (simpl; lra).
  lra.
Qed.

Lemma intrinsic_value_may_be_negative :
  exists valuation,
    calculate_intrinsic_value
      (sample_data [-1000000000; -800000000; -500000000] 150 1000000000)
    = Ok (Some valuation)
    /\ Valuation.intrinsic_value valuation < 0.
Proof.
  destruct (intrinsic_value_negative_base
              (sample_data [-1000000000; -800000000; -500000000] 150 1000000000))
    as (v & Hv & Hneg).
  - discriminate.
  - cbn. lra.
  - cbn. lra.
  - left. cbn. lra.
  - cbn. lra.
  - exists v. split; [exact Hv|].
    cbn [sample_data CompanyData.total_debt CompanyData.shares_outstanding] in Hneg.
    lra.
Qed.

Lemma intrinsic_value_price_independent (company_data : CompanyData.t) (price : R) :
  calculate_intrinsic_value (with_current_price company_data price) = Ok None
  <-> calculate_intrinsic_value company_data = Ok None.
Proof.
  unfold calculate_intrinsic_value, with_current_price.
  cbn [CompanyData.ticker CompanyData.name CompanyData.sector
       CompanyData.current_price CompanyData.shares_outstanding
       CompanyData.historical_fcf CompanyData.beta CompanyData.market_cap
       CompanyData.total_debt CompanyData.interest_expense CompanyData.tax_rate].
  repeat match goal with
  | |- context [match ?l with [] => _ | _ :: _ => _ end] =>
      destruct l; [tauto|]
  | |- context [bind ?c _] => destruct c; cbn [bind ret]; [|tauto]
  | |- context [if ?b then _ else _] => destruct b; [tauto|]
  end.
  split; discriminate.
Qed.

(** C4 as stated fails where the share-count test is not reached: for a
    record without capital and with a beta of [1e46] the WACC is the
    unclamped cost of equity [5.5e44], [(1 + wacc) ** 7] is beyond the
    largest float and [discount_cash_flows] raises [OverflowError]; with a
    share count of 0 the claim expects "no result". *)
Lemma intrinsic_value_overflow_counterexample :
  let company_data :=
    {| CompanyData.ticker := Some "TEST"%string;
       CompanyData.name := None;
       CompanyData.sector := None;
       CompanyData.current_price := 150;
       CompanyData.shares_outstanding := 0;
       CompanyData.historical_fcf := Some [5000000000; 6000000000];
       CompanyData.beta := 10 ^ 46;
       CompanyData.market_cap := 0;
       CompanyData.total_debt := 0;
       CompanyData.interest_expense := 0;
       CompanyData.tax_rate := 0.21 |} in
  CompanyData.shares_outstanding company_data <= 0
  /\ calculate_intrinsic_value company_data = Raise OverflowError
  /\ calculate_intrinsic_value company_data <> Ok None.
Proof.
  cbv zeta.
  match goal with
  | |- _ /\ ?c = _ /\ _ =>
      assert (Hraise : c = Raise OverflowError)
  end.
  { apply intrinsic_value_overflow.
    - discriminate.
    - cbn. lra.
    - cbn. lra.
    - cbn [CompanyData.beta]. lra. }
  split; [cbn; lra|]. split; [exact Hraise|].
  rewrite Hraise. discriminate.
Qed.

(** C4 (amended).  On a record whose discount factors stay within the
    float range (positive capital, or a beta between -18 and [1e40]),
    [calculate_intrinsic_value] returns no result exactly when
    [historical_fcf] is empty, or its last element equals 0, or
    [shares_outstanding <= 0]; for every other such record it returns a
    valuation.  The intrinsic value per share of a valuation may be
    negative: it is for the record of the test suite with the history
    [-1e9, -0.8e9, -0.5e9]. *)
Theorem intrinsic_value_none_iff (company_data : CompanyData.t) :
  0 < CompanyData.market_cap company_data + CompanyData.total_debt company_data
  \/ -18 <= CompanyData.beta company_data <= 10 ^ 40 ->
  let historical_fcf := get (CompanyData.historical_fcf company_data) [] in
  let no_result :=
    historical_fcf = []
    \/ List.last historical_fcf 0 = 0
    \/ CompanyData.shares_outstanding company_data <= 0 in
  (calculate_intrinsic_value company_data = Ok None <-> no_result)
  /\ (~ no_result ->
      exists valuation, calculate_intrinsic_value company_data = Ok (Some valuation))
  /\ (exists valuation,
        calculate_intrinsic_value
          (sample_data [-1000000000; -800000000; -500000000] 150 1000000000)
        = Ok (Some valuation)
        /\ Valuation.intrinsic_value valuation < 0).
Proof.
  intros Hbound historical_fcf no_result. unfold no_result, historical_fcf.
  apply (proj1 (and_assoc _ _ _)). split; [|exact intrinsic_value_may_be_negative].
  destruct (list_eq_dec Req_dec_T (get (CompanyData.historical_fcf company_data) []) [])
    as [Hnil | Hne].
  { pose proof (intrinsic_value_empty company_data Hnil). tauto. }
  destruct (Req_dec_T (List.last (get (CompanyData.historical_fcf company_data) []) 0) 0)
    as [Hz | Hnz].
  { pose proof (intrinsic_value_zero_base company_data Hz). tauto. }
  destruct (intrinsic_value_returns company_data Hne Hnz Hbound)
    as (g & _ & Hfail & Hrun).
  destruct (Rle_dec (CompanyData.shares_outstanding company_data) 0) as [Hs | Hs].
  { pose proof (Hfail Hs). tauto. }
  destruct (Hrun ltac:(lra)) as (valuation & Hv & _).
  split.
  - split; [rewrite Hv; discriminate | tauto].
  - intros _. exists valuation. exact Hv.
Qed.

Lemma intrinsic_value_none_iff_witness :
  let company_data := sample_data [5000000000; 0] 150 1000000000 in
  let historical_fcf := get (CompanyData.historical_fcf company_data) [] in
  let no_result :=
    historical_fcf = []
    \/ List.last historical_fcf 0 = 0
    \/ CompanyData.shares_outstanding company_data <= 0 in
  (calculate_intrinsic_value company_data = Ok None <-> no_result)
  /\ (~ no_result ->
      exists valuation, calculate_intrinsic_value company_data = Ok (Some valuation))
  /\ (exists valuation,
        calculate_intrinsic_value
          (sample_data [-1000000000; -800000000; -500000000] 150 1000000000)
        = Ok (Some valuation)
        /\ Valuation.intrinsic_value valuation < 0).
Proof.
  apply (intrinsic_value_none_iff (sample_data [5000000000; 0] 150 1000000000)).
  left. cbn. lra.
Defined.

Section ValueBounds.

(** A negative projection compounds at most at the largest yearly factor. *)
Lemma projection_above (years : Z) (g L c : R) (ts : list Z) :
  1 <= c ->
  Forall (fun t => 0 < 1 + faded_growth g L years t <= c) ts ->
  forall current_fcf, current_fcf < 0 ->
    Forall (fun x => c ^ List.length ts * current_fcf <= x < 0)
      (projection ts years g L current_fcf).
Proof.
  intros Hc. induction 1 as [|t rest Ht _ IH]; intros cur Hcur;
    cbn [projection List.length pow]; constructor.
  - pose proof (pow_R1_Rle c (List.length rest) Hc) as Hp.
    set (p := c ^ List.length rest) in *.
    set (f := faded_growth g L years t) in *.
    assert (Hcc : c * cur <= 0) by nra.
    assert (c * cur <= cur * (1 + f)) by nra.
    assert (c * p * cur <= c * cur)
      by (replace (c * p * cur) with (c * cur * p) by ring; nra).
    split; nra.
  - set (f := faded_growth g L years t) in *.
    assert (Hnext : cur * (1 + f) < 0) by nra.
    eapply Forall_impl; [|apply (IH _ Hnext)].
    intros x [Hlo Hhi]. split; [|exact Hhi].
    pose proof (pow_R1_Rle c (List.length rest) Hc) as Hp.
    set (p := c ^ List.length rest) in *.
    assert (c * cur <= cur * (1 + f)) by nra.
    assert (c * p * cur <= p * (cur * (1 + f)))
      by (replace (c * p * cur) with (p * (c * cur)) by ring; nra).
    lra.
Qed.

(** Discounting at a positive rate brings negative cash flows closer to 0. *)
Lemma present_values_above (wacc m : R) (cash_flows : list R) :
  0 < wacc ->
  Forall (fun cf => m <= cf < 0) cash_flows ->
  forall t, INR (List.length cash_flows) * m <= present_values cash_flows t wacc.
Proof.
  intros Hw. induction 1 as [|cf rest Hcf _ IH]; intros t;
    cbn [present_values]; [cbn; lra|].
  change (List.length (cf :: rest)) with (S (List.length rest)).
  rewrite S_INR. specialize (IH (S t)).
  assert (Hd : cf <= cf / (1 + wacc) ^ t) by (apply discounted_above; lra).
  lra.
Qed.

(** The present value of a negative base: at most 750 times the base below
    zero, for a growth between the long-term rate and 0.05. *)
Lemma enterprise_value_above (base_fcf growth_rate wacc : R) :
  base_fcf < 0 -> LONG_TERM_GROWTH_RATE <= growth_rate <= 0.05 -> 0 < wacc ->
  750 * base_fcf <= enterprise_value base_fcf growth_rate wacc.
Proof.
  intros Hbase Hg Hw. unfold enterprise_value. cbv zeta.
  set (projected := projection (range1 PROJECTION_YEARS) PROJECTION_YEARS
                      growth_rate LONG_TERM_GROWTH_RATE base_fcf).
  assert (Hc : 1.05 ^ 7 <= 1.41) by (simpl; lra).
  assert (Hall : Forall (fun x => 1.41 * base_fcf <= x < 0) projected).
  { eapply Forall_impl;
      [|apply (projection_above PROJECTION_YEARS growth_rate LONG_TERM_GROWTH_RATE
                 1.05 (range1 PROJECTION_YEARS)); [lra| |exact Hbase]].
    - intros x [Hlo Hhi]. split; [|exact Hhi].
      replace (List.length (range1 PROJECTION_YEARS)) with 7%nat in Hlo
        by reflexivity.
      nra.
    - eapply Forall_impl; [|apply range1_bounds].
      intros t Ht. cbv beta in Ht.
      pose proof (faded_growth_between PROJECTION_YEARS growth_rate
                    LONG_TERM_GROWTH_RATE t Ht) as [Hlo Hhi].
      unfold Rmin in Hlo. unfold Rmax in Hhi.
      destruct (Rle_dec growth_rate LONG_TERM_GROWTH_RATE);
        unfold LONG_TERM_GROWTH_RATE in *; lra. }
  assert (Hlast : 1.41 * base_fcf <= List.last projected 0 < 0).
  { apply (Forall_last (fun x => 1.41 * base_fcf <= x < 0)); [|assumption].
    apply projection_nonempty. }
  pose proof (present_values_above wacc (1.41 * base_fcf) projected Hw Hall 1) as Hpv.
  replace (List.length projected) with 7%nat in *
    by (symmetry; apply projection_years).
  replace (INR 7) with 7 in Hpv by (simpl; lra).
  set (last := List.last projected 0) in *.
  unfold LONG_TERM_GROWTH_RATE, FCF_EXIT_MULTIPLE in *.
  assert (Hspread : 0.001 <= Rmax (wacc - 0.025) 0.001) by apply Rmax_r.
  assert (Htv : 522.5 * last
                <= (last * (1 + 0.025) / Rmax (wacc - 0.025) 0.001 + last * 20) / 2).
  { assert (Hi : / Rmax (wacc - 0.025) 0.001 <= 1000).
    { replace 1000 with (/ 0.001) by lra.
      apply Rinv_le_contravar; lra. }
    assert (0 < / Rmax (wacc - 0.025) 0.001) by (apply Rinv_0_lt_compat; lra).
    unfold Rdiv. nra. }
  set (tv := (last * (1 + 0.025) / Rmax (wacc - 0.025) 0.001 + last * 20) / 2) in *.
  assert (Htv0 : tv <= 0).
  { unfold tv. assert (0 < / Rmax (wacc - 0.025) 0.001)
      by (apply Rinv_0_lt_compat; lra).
    unfold Rdiv. nra. }
  assert (Hd : tv <= tv / (1 + wacc) ^ 7).
  { destruct (Req_dec_T tv 0) as [-> | Hnz]; [unfold Rdiv; lra|].
    apply discounted_above; lra. }
  lra.
Qed.

End ValueBounds.

(** C9 as stated fails where the discount factor leaves the float range:
    an all-negative history, a positive share count and beta, no capital,
    and a beta of [1e46]: [(1 + wacc) ** 7] is beyond the largest float and
    the call raises [OverflowError] instead of returning a valuation. *)
Lemma intrinsic_value_all_negative_counterexample :
  let company_data :=
    {| CompanyData.ticker := Some "TEST"%string;
       CompanyData.name := None;
       CompanyData.sector := None;
       CompanyData.current_price := 150;
       CompanyData.shares_outstanding := 1000000000;
       CompanyData.historical_fcf := Some [-1000000000; -500000000];
       CompanyData.beta := 10 ^ 46;
       CompanyData.market_cap := 0;
       CompanyData.total_debt := 0;
       CompanyData.interest_expense := 0;
       CompanyData.tax_rate := 0.21 |} in
  Forall (fun x => x < 0) (get (CompanyData.historical_fcf company_data) [])
  /\ 0 < CompanyData.shares_outstanding company_data
  /\ 0 < CompanyData.beta company_data
  /\ 0 <= CompanyData.tax_rate company_data <= 1
  /\ 0 <= CompanyData.market_cap company_data
  /\ 0 <= CompanyData.total_debt company_data
  /\ 0 <= CompanyData.interest_expense company_data
  /\ calculate_intrinsic_value company_data = Raise OverflowError.
Proof.
  cbv zeta. cbn [CompanyData.historical_fcf CompanyData.shares_outstanding
                 CompanyData.beta CompanyData.tax_rate CompanyData.market_cap
                 CompanyData.total_debt CompanyData.interest_expense get].
  assert (0 < 10 ^ 46) by (apply pow_lt; lra).
  split; [repeat constructor; lra|].
  repeat (split; [lra|]).
  apply intrinsic_value_overflow.
  - discriminate.
  - cbn. lra.
  - cbn. lra.
  - cbn [CompanyData.beta]. lra.
Qed.

(** C9 (amended).  For every input record whose [historical_fcf] is
    non-empty with every element strictly negative, with
    [shares_outstanding > 0], [beta > 0], and with positive capital or a
    beta of at most [1e40] (so that the discount factors stay within the
    float range), [calculate_intrinsic_value] returns a valuation: no
    exception is met on the way.  Its growth rate is [max(estimate, 0.05)],
    which is 0.05: the estimate is the fallback 0.03 from two points on
    (and the default 0.05 for a single point).  When moreover the most
    recent FCF is at least [-1e300], the debt lies between 0 and [1e300]
    and the share count is at least 1, the magnitude of its intrinsic
    value is at most [1e303], inside the float range.  The claim's bounds
    on [tax_rate], [market_cap] and [interest_expense] are not needed. *)
Theorem intrinsic_value_all_negative (company_data : CompanyData.t)
    (historical_fcf : list R) :
  CompanyData.historical_fcf company_data = Some historical_fcf ->
  historical_fcf <> [] ->
  Forall (fun x => x < 0) historical_fcf ->
  0 < CompanyData.shares_outstanding company_data ->
  0 < CompanyData.beta company_data ->
  0 < CompanyData.market_cap company_data + CompanyData.total_debt company_data
  \/ CompanyData.beta company_data <= 10 ^ 40 ->
  exists growth_rate valuation,
    calculate_historical_growth_rate historical_fcf = Ok growth_rate
    /\ ((2 <= List.length historical_fcf)%nat -> growth_rate = 0.03)
    /\ calculate_intrinsic_value company_data = Ok (Some valuation)
    /\ Valuation.fcf_growth_rate valuation = Some (round (Py.max growth_rate 0.05) 4)
    /\ Py.max growth_rate 0.05 = 0.05
    /\ Valuation.fcf_growth_rate valuation = Some 0.05
    /\ (- 10 ^ 300 <= List.last historical_fcf 0 ->
        0 <= CompanyData.total_debt company_data <= 10 ^ 300 ->
        1 <= CompanyData.shares_outstanding company_data ->
        Rabs (Valuation.intrinsic_value valuation) <= 10 ^ 303 <= FLOAT_MAX).
Proof.
  intros Hh Hne Hneg Hshares Hbeta Hbound.
  assert (Hget : get (CompanyData.historical_fcf company_data) [] = historical_fcf)
    by now rewrite Hh.
  assert (Hbase : List.last historical_fcf 0 < 0)
    by (apply (Forall_last (fun x => x < 0)); assumption).
  destruct (intrinsic_value_run company_data)
    as (g & wacc & Hg & _ & Hwacc & _ & Hrun);
    rewrite ?Hget; try assumption; [lra|].
  rewrite Hget in Hg, Hrun.
  specialize (Hrun Hshares). cbv zeta in Hrun.
  unfold recovery_growth in Hrun.
  rewrite (proj2 (float_lt_iff _ 0) Hbase) in Hrun.
  pose proof (growth_rate_all_negative historical_fcf Hneg) as Hest.
  rewrite Hg in Hest. injection Hest as Hest.
  assert (Hmax : Py.max g 0.05 = 0.05).
  { rewrite max_Rmax, Hest. unfold Rmax.
    destruct (len historical_fcf <? 2)%Z;
      match goal with |- context [Rle_dec ?a ?b] => destruct (Rle_dec a b) end; lra. }
  exists g. eexists. split; [exact Hg|]. split.
  { intros Hlen. rewrite Hest. now rewrite (proj2 (len_ge_2 historical_fcf) Hlen). }
  split; [exact Hrun|]. cbn [Valuation.fcf_growth_rate Valuation.intrinsic_value].
  split; [reflexivity|]. split; [exact Hmax|].
  split; [now rewrite Hmax, round_default_growth|].
  intros Hmag Hdebt Hone. split; [|apply float_max_ge; lia].
  rewrite Hmax.
  set (base := List.last historical_fcf 0) in *.
  pose proof (enterprise_value_negative base 0.05 wacc Hbase ltac:(lra) Hwacc) as Hev.
  pose proof (enterprise_value_above base 0.05 wacc Hbase
                ltac:(unfold LONG_TERM_GROWTH_RATE; lra) Hwacc) as Hev'.
  set (ev := enterprise_value base 0.05 wacc) in *.
  set (debt := CompanyData.total_debt company_data) in *.
  set (shares := CompanyData.shares_outstanding company_data) in *.
  pose proof (round_error ((ev - debt) / shares) 2) as Herr.
  replace (1 / 2 / 10 ^ 2) with 0.005 in Herr by (simpl; lra).
  pose proof (Rle_abs (round ((ev - debt) / shares) 2 - (ev - debt) / shares)) as Ha.
  pose proof (Rle_abs (- (round ((ev - debt) / shares) 2 - (ev - debt) / shares)))
    as Hb.
  rewrite Rabs_Ropp in Hb.
  assert (Hp : 1 <= 10 ^ 300) by (apply pow_R1_Rle; lra).
  change (10 ^ 303) with (10 * (10 * (10 * 10 ^ 300))).
  set (P := 10 ^ 300) in *.
  assert (Hi : 0 < / shares <= 1).
  { split; [apply Rinv_0_lt_compat; lra|].
    rewrite <- Rinv_1. apply Rinv_le_contravar; lra. }
  assert (Hx : - (751 * P) <= (ev - debt) / shares <= 0) by (unfold Rdiv; nra).
  apply Rabs_le. lra.
Qed.

Lemma intrinsic_value_all_negative_witness :
  let historical_fcf := [-1000000000; -800000000; -500000000] in
  exists growth_rate valuation,
    calculate_historical_growth_rate historical_fcf = Ok growth_rate
    /\ ((2 <= List.length historical_fcf)%nat -> growth_rate = 0.03)
    /\ calculate_intrinsic_value (sample_data historical_fcf 150 1000000000)
       = Ok (Some valuation)
    /\ Valuation.fcf_growth_rate valuation = Some (round (Py.max growth_rate 0.05) 4)
    /\ Py.max growth_rate 0.05 = 0.05
    /\ Valuation.fcf_growth_rate valuation = Some 0.05
    /\ Rabs (Valuation.intrinsic_value valuation) <= 10 ^ 303 <= FLOAT_MAX.
Proof.
  cbv zeta.
  destruct (intrinsic_value_all_negative
              (sample_data [-1000000000; -800000000; -500000000] 150 1000000000)
              [-1000000000; -800000000; -500000000])
    as (g & v & H1 & H2 & H3 & H4 & H5 & H6 & H7).
  - reflexivity.
  - discriminate.
  - repeat constructor; lra.
  - cbn. lra.
  - cbn. lra.
  - left. cbn. lra.
  - exists g, v. repeat (split; [assumption|]).
    assert (Hp : 10 ^ 11 <= 10 ^ 300) by (apply Rle_pow; [lra | lia]).
    apply H7.
    + cbn [List.last]. simpl in Hp. lra.
    + cbn [sample_data CompanyData.total_debt]. simpl in Hp. lra.
    + cbn. lra.
Defined.

(** C1 as stated fails on a history of one nonzero point: the growth
    estimator answers its default and the valuation goes through. *)
Lemma intrinsic_value_single_point_counterexample :
  let historical_fcf := [1000000] in
  (List.length historical_fcf < 2)%nat
  /\ exists valuation,
       calculate_intrinsic_value (sample_data historical_fcf 150 1000000000)
       = Ok (Some valuation).
Proof.
  cbv zeta. split; [cbn [List.length]; lia|].
  destruct (intrinsic_value_run (sample_data [1000000] 150 1000000000))
    as (g & wacc & _ & _ & _ & _ & Hrun).
  - discriminate.
  - cbn. lra.
  - cbn. lra.
  - left. cbn. lra.
  - eexists. apply Hrun. cbn. lra.
Qed.

(** C1 (amended).  For every input record whose [historical_fcf] is empty
    (or absent), [calculate_intrinsic_value] returns no result.  A history
    of a single point does not fail on that account: with a nonzero value,
    [shares_outstanding > 0], and positive capital or a beta between -18
    and [1e40] (so that the discount factors stay within the float range),
    the growth estimator answers its default 0.05 and a valuation with that
    growth rate is returned. *)
Theorem intrinsic_value_short_history (company_data : CompanyData.t) :
  let historical_fcf := get (CompanyData.historical_fcf company_data) [] in
  (historical_fcf = [] -> calculate_intrinsic_value company_data = Ok None)
  /\ (forall x : R,
        historical_fcf = [x] -> x <> 0 ->
        0 < CompanyData.shares_outstanding company_data ->
        0 < CompanyData.market_cap company_data
            + CompanyData.total_debt company_data
        \/ -18 <= CompanyData.beta company_data <= 10 ^ 40 ->
        calculate_historical_growth_rate historical_fcf = Ok 0.05
        /\ exists valuation,
             calculate_intrinsic_value company_data = Ok (Some valuation)
             /\ Valuation.fcf_growth_rate valuation = Some 0.05).
Proof.
  intros historical_fcf. split; [apply intrinsic_value_empty|].
  intros x Hx Hnz Hshares Hbound. unfold historical_fcf in *.
  assert (Hdef : calculate_historical_growth_rate [x] = Ok 0.05)
    by (apply growth_rate_default; cbn [List.length]; lia).
  rewrite Hx. split; [exact Hdef|].
  destruct (intrinsic_value_returns company_data)
    as (g & Hg & _ & Hrun);
    rewrite ?Hx; try assumption; [discriminate|].
  rewrite Hx, Hdef in Hg. injection Hg as <-.
  destruct (Hrun Hshares) as (valuation & Hv & Hgrowth). rewrite Hx in Hgrowth.
  exists valuation. split; [exact Hv|]. rewrite Hgrowth.
  replace (recovery_growth (List.last [x] 0) 0.05) with 0.05.
  - now rewrite round_default_growth.
  - unfold recovery_growth.
    destruct (float_lt (List.last [x] 0) 0); [|reflexivity].
    rewrite max_Rmax. unfold Rmax. destruct (Rle_dec 0.05 0.05); reflexivity.
Qed.

Lemma intrinsic_value_short_history_witness :
  let company_data := sample_data [1000000] 150 1000000000 in
  let historical_fcf := get (CompanyData.historical_fcf company_data) [] in
  (historical_fcf = [] -> calculate_intrinsic_value company_data = Ok None)
  /\ (calculate_historical_growth_rate historical_fcf = Ok 0.05
      /\ exists valuation,
           calculate_intrinsic_value company_data = Ok (Some valuation)
           /\ Valuation.fcf_growth_rate valuation = Some 0.05).
Proof.
  cbv zeta.
  destruct (intrinsic_value_short_history (sample_data [1000000] 150 1000000000))
    as [Hempty Hsingle].
  split; [exact Hempty|].
  apply (Hsingle 1000000).
  - reflexivity.
  - lra.
  - cbn. lra.
  - left. cbn. lra.
Defined.

(** ** SignalClassifier: [generate_signal], [build_valuation_row] *)

Lemma generate_signal_cases (upside_pct : R) :
  (generate_signal upside_pct = "Buy"%string <-> upside_pct >= 0.15) /\
  (generate_signal upside_pct = "Sell"%string <-> upside_pct <= -0.15) /\
  (generate_signal upside_pct = "Hold"%string <-> -0.15 < upside_pct < 0.15).
Proof.
  unfold generate_signal, BUY_THRESHOLD, SELL_THRESHOLD.
  destruct (float_ge upside_pct 0.15) eqn:Hb.
  - apply float_ge_iff in Hb.
    repeat split; intros; try discriminate; try lra.
  - apply float_ge_false_iff in Hb.
    destruct (float_le upside_pct (-0.15)) eqn:Hs.
    + apply float_le_iff in Hs. repeat split; intros; try discriminate; try lra.
    + apply float_le_false_iff in Hs. repeat split; intros; try discriminate; try lra.
Qed.

(** C8.  For every real [upside_pct], [generate_signal] returns "Buy" if
    and only if [upside_pct >= 0.15], "Sell" if and only if
    [upside_pct <= -0.15], and "Hold" otherwise; the thresholds are
    inclusive: exactly 0.15 is Buy and exactly -0.15 is Sell. *)
Theorem generate_signal_thresholds (upside_pct : R) :
  (generate_signal upside_pct = "Buy"%string <-> upside_pct >= 0.15) /\
  (generate_signal upside_pct = "Sell"%string <-> upside_pct <= -0.15) /\
  (generate_signal upside_pct = "Hold"%string
   <-> ~ upside_pct >= 0.15 /\ ~ upside_pct <= -0.15) /\
  generate_signal 0.15 = "Buy"%string /\
  generate_signal (-0.15) = "Sell"%string /\
  generate_signal 0.1499 = "Hold"%string /\
  generate_signal (-0.1499) = "Hold"%string.
Proof.
  destruct (generate_signal_cases upside_pct) as (Hb & Hs & Hh).
  split; [exact Hb|]. split; [exact Hs|].
  split; [rewrite Hh; split; intros; lra|].
  repeat split.
  - apply (generate_signal_cases 0.15). lra.
  - apply (generate_signal_cases (-0.15)). lra.
  - apply (generate_signal_cases 0.1499). lra.
  - apply (generate_signal_cases (-0.1499)). lra.
Qed.

(** C10 as stated fails on the upside stored in the row: the column
    "% Upside/Downside" holds the ratio times 100, rounded to one decimal.
    For a price of 100 and an intrinsic value of 150 the row holds 50, the
    ratio is 0.5. *)
Lemma row_upside_counterexample :
  exists row,
    build_valuation_row (sample_valuation 100 150) = Ok (Some row)
    /\ Row.Pct_Upside_Downside row = 50
    /\ Row.Valuation_Signal row = "Buy"%string
    /\ Row.Pct_Upside_Downside row <> (150 - 100) / 100.
Proof.
  unfold build_valuation_row.
  cbn [sample_valuation Valuation.current_price Valuation.intrinsic_value].
  decide_cmp (float_le 100 0).
  rewrite truediv_ok by lra. cbn [bind ret].
  eexists. split; [reflexivity|].
  cbn [Row.Pct_Upside_Downside Row.Valuation_Signal].
  assert (Hpct : round ((150 - 100) / 100 * 100) 1 = 50).
  { replace ((150 - 100) / 100 * 100) with (IZR 500 / 10 ^ 1) by (simpl; lra).
    rewrite round_exact. simpl. lra. }
  rewrite Hpct. split; [reflexivity|]. split; [|lra].
  unfold generate_signal, BUY_THRESHOLD.
  decide_cmp (float_ge ((150 - 100) / 100) 0.15). reflexivity.
Qed.

(** C10 (amended).  [build_valuation_row] returns no row if and only if
    [current_price <= 0]; this check belongs to the row construction only:
    whether [calculate_intrinsic_value] returns no result does not depend
    on the price.  Otherwise, with
    [upside = (intrinsic_value - current_price) / current_price], the row's
    "% Upside/Downside" equals [round(upside * 100, 1)] and its signal
    equals [generate_signal(upside)], computed on the unrounded ratio. *)
Theorem build_valuation_row_spec (valuation : Valuation.t) :
  let current_price := Valuation.current_price valuation in
  let intrinsic_value := Valuation.intrinsic_value valuation in
  let upside_pct := (intrinsic_value - current_price) / current_price in
  (build_valuation_row valuation = Ok None <-> current_price <= 0)
  /\ (0 < current_price ->
      exists row,
        build_valuation_row valuation = Ok (Some row)
        /\ Row.Pct_Upside_Downside row = round (upside_pct * 100) 1
        /\ Row.Valuation_Signal row = generate_signal upside_pct)
  /\ (forall (company_data : CompanyData.t) (price : R),
        calculate_intrinsic_value (with_current_price company_data price) = Ok None
        <-> calculate_intrinsic_value company_data = Ok None).
Proof.
  cbv zeta. unfold build_valuation_row.
  destruct (float_le (Valuation.current_price valuation) 0) eqn:Hp.
  - apply float_le_iff in Hp. split; [tauto|]. split; [lra|].
    apply intrinsic_value_price_independent.
  - apply float_le_false_iff in Hp. rewrite truediv_ok by lra. cbn [bind ret].
    split; [|split].
    + split; [discriminate | lra].
    + intros _. eexists. split; [reflexivity|]. split; reflexivity.
    + apply intrinsic_value_price_independent.
Qed.

Lemma build_valuation_row_spec_witness :
  exists row,
    build_valuation_row (sample_valuation 180 210) = Ok (Some row)
    /\ Row.Pct_Upside_Downside row = round ((210 - 180) / 180 * 100) 1
    /\ Row.Valuation_Signal row = generate_signal ((210 - 180) / 180).
Proof.
  apply (build_valuation_row_spec (sample_valuation 180 210)).
  cbn. lra.
Defined.

(** ** The unit tests of the repository, replayed on the model *)

Section UnitTests.

Lemma test_clamp :
  _clamp (-1) 0 1 = 0 /\ _clamp 2 0 1 = 1 /\ _clamp 0.5 0 1 = 0.5
  /\ _clamp 0 0 1 = 0 /\ _clamp 1 0 1 = 1.
Proof.
  repeat split.
  - apply clamp_below; lra.
  - apply clamp_above; lra.
  - apply clamp_inside; lra.
  - apply clamp_inside; lra.
  - apply clamp_inside; lra.
Qed.

Lemma test_single_value_returns_default :
  calculate_historical_growth_rate [1000000] = Ok 0.05.
Proof. apply growth_rate_default. cbn [List.length]. lia. Qed.

Lemma test_empty_list_returns_default :
  calculate_historical_growth_rate [] = Ok 0.05.
Proof. apply growth_rate_default. cbn [List.length]. lia. Qed.

Lemma test_growth_rate_clamped :
  calculate_historical_growth_rate [1; 1000000] = Ok MAX_INITIAL_GROWTH
  /\ calculate_historical_growth_rate [1000000; 1] = Ok MIN_INITIAL_GROWTH.
Proof.
  split.
  - rewrite growth_rate_cagr; [| cbn [List.length]; lia | cbn; lra | cbn; lra].
    change (last_slice [1; 1000000] 5) with [1; 1000000].
    unfold series_cagr. cbn [List.last List.hd].
    unfold len. cbn [List.length]. change (Z.of_nat 2 - 1)%Z with 1%Z.
    replace (1 / 1) with 1 by lra. rewrite Rpower_1 by lra.
    apply f_equal. unfold MIN_INITIAL_GROWTH, MAX_INITIAL_GROWTH.
    rewrite clamp_above; lra.
  - rewrite growth_rate_cagr; [| cbn [List.length]; lia | cbn; lra | cbn; lra].
    change (last_slice [1000000; 1] 5) with [1000000; 1].
    unfold series_cagr. cbn [List.last List.hd].
    unfold len. cbn [List.length]. change (Z.of_nat 2 - 1)%Z with 1%Z.
    replace (1 / 1) with 1 by lra. rewrite Rpower_1 by lra.
    apply f_equal. unfold MIN_INITIAL_GROWTH, MAX_INITIAL_GROWTH.
    rewrite clamp_below; lra.
Qed.

Lemma test_negative_fcf_falls_back_to_conservative :
  calculate_historical_growth_rate [-100; -80; -60; -40; -20] = Ok 0.03.
Proof.
  rewrite growth_rate_all_negative by (repeat constructor; lra). reflexivity.
Qed.

Lemma test_zero_debt_returns_cost_of_equity :
  calculate_wacc 1 500000000000 0 0 0.21 RISK_FREE_RATE EQUITY_RISK_PREMIUM
  = Ok (RISK_FREE_RATE + 1 * EQUITY_RISK_PREMIUM).
Proof.
  unfold calculate_wacc.
  decide_cmp (float_gt 0 0). cbn [andb bind ret].
  decide_cmp (float_le (500000000000 + 0) 0).
  rewrite !truediv_ok by lra. cbn [bind ret]. apply f_equal.
  unfold RISK_FREE_RATE, EQUITY_RISK_PREMIUM.
  rewrite clamp_inside; lra.
Qed.

Lemma test_wacc_clamped_to_max :
  calculate_wacc 10 1000000000 0 0 0.21 RISK_FREE_RATE EQUITY_RISK_PREMIUM = Ok 0.25.
Proof.
  unfold calculate_wacc.
  decide_cmp (float_gt 0 0). cbn [andb bind ret].
  decide_cmp (float_le (1000000000 + 0) 0).
  rewrite !truediv_ok by lra. cbn [bind ret]. apply f_equal.
  unfold RISK_FREE_RATE, EQUITY_RISK_PREMIUM.
  rewrite clamp_above; lra.
Qed.

Lemma test_wacc_equals_growth_rate_does_not_crash :
  calculate_terminal_value 1000000 0.025 0.025 FCF_EXIT_MULTIPLE
  = Ok ((1000000 * 1.025 / 0.001 + 1000000 * 20) / 2).
Proof.
  rewrite calculate_terminal_value_ok. apply f_equal.
  replace (Rmax (0.025 - 0.025) 0.001) with 0.001
    by (unfold Rmax; destruct (Rle_dec (0.025 - 0.025) 0.001); lra).
  unfold FCF_EXIT_MULTIPLE. lra.
Qed.

Lemma test_zero_fcf_returns_none :
  calculate_intrinsic_value (sample_data [5000000000; 0] 150 1000000000) = Ok None.
Proof. apply intrinsic_value_zero_base. reflexivity. Qed.

Lemma test_empty_fcf_returns_none :
  calculate_intrinsic_value (sample_data [] 150 1000000000) = Ok None.
Proof. apply intrinsic_value_empty. reflexivity. Qed.

Lemma test_zero_current_price_returns_none :
  build_valuation_row (sample_valuation 0 210) = Ok None.
Proof.
  unfold build_valuation_row.
  cbn [sample_valuation Valuation.current_price Valuation.intrinsic_value].
  decide_cmp (float_le 0 0). reflexivity.
Qed.

End UnitTests.

(** ** Further properties of [src/dcf_model.py] *)

Lemma clamp_monotone (v1 v2 low high : R) :
  v1 <= v2 -> _clamp v1 low high <= _clamp v2 low high.
Proof.
  intros H. rewrite !clamp_Rmax_Rmin. unfold Rmax, Rmin.
  destruct (Rle_dec high v1), (Rle_dec high v2);
    repeat match goal with
    | |- context [Rle_dec ?a ?b] => destruct (Rle_dec a b)
    end; lra.
Qed.

(** X1.  For every history, empty and single-point ones included,
    [calculate_historical_growth_rate] returns (it raises nothing) and the
    rate it returns lies in [-0.20, 0.30]. *)
Theorem growth_rate_always_capped (historical_fcf : list R) :
  exists growth_rate,
    calculate_historical_growth_rate historical_fcf = Ok growth_rate
    /\ -0.20 <= growth_rate <= 0.30.
Proof.
  destruct (growth_rate_total historical_fcf) as (g & Hg & Hr).
  exists g. split; [exact Hg|].
  unfold MIN_INITIAL_GROWTH, MAX_INITIAL_GROWTH in Hr. exact Hr.
Qed.

Lemma yoy_loop_closed (pairs : list (R * R)) :
  forall yoy_rates,
    yoy_loop pairs yoy_rates = Ok (yoy_rates ++ positive_pair_rates pairs).
Proof.
  unfold positive_pair_rates.
  induction pairs as [|[prev curr] rest IH]; intros acc; cbn [yoy_loop filter map].
  - now rewrite app_nil_r.
  - cbn [fst snd].
    destruct (float_gt prev 0) eqn:Hp; cbn [andb]; [|apply IH].
    destruct (float_gt curr 0); [|apply IH].
    apply float_gt_iff in Hp. rewrite truediv_ok by lra. cbn [bind map fst snd].
    rewrite IH, <- app_assoc. reflexivity.
Qed.

(** X2.  For a history of two points or more whose window (the last five
    points) does not start and end on strictly positive values, the
    estimate is the average of [curr/prev - 1] over the adjacent pairs of
    the window whose two values are strictly positive, clamped to
    [-0.20, 0.30]; pairs touching a zero or negative value are skipped, and
    without any positive pair the estimate is 0.03. *)
Theorem growth_rate_yoy_fallback (historical_fcf : list R) :
  (2 <= List.length historical_fcf)%nat ->
  List.hd 0 (last_slice historical_fcf 5) <= 0
  \/ List.last historical_fcf 0 <= 0 ->
  let rates := positive_pair_rates (adjacent (last_slice historical_fcf 5)) in
  calculate_historical_growth_rate historical_fcf
  = Ok (match rates with
        | [] => 0.03
        | _ :: _ => _clamp (Py.sum rates / IZR (len rates)) (-0.20) 0.30
        end).
Proof.
  intros Hlen Hanchor rates. unfold calculate_historical_growth_rate.
  rewrite (proj2 (len_ge_2 historical_fcf) Hlen).
  destruct (window_nonempty historical_fcf Hlen) as [Hwin Hne].
  assert (Hl : List.last (last_slice historical_fcf 5) 0 = List.last historical_fcf 0).
  { apply last_slice_last; [|lia].
    destruct historical_fcf; [simpl in Hlen; lia | discriminate]. }
  unfold rates. clear rates.
  set (fcf := last_slice historical_fcf 5) in *.
  rewrite (first_ok fcf 0 Hne), (last_ok fcf 0 Hne). cbn [bind].
  assert (Hcond : float_gt (hd 0 fcf) 0 && float_gt (List.last fcf 0) 0 = false).
  { destruct Hanchor as [H | H].
    - now rewrite (proj2 (float_gt_false_iff _ 0) H).
    - rewrite Hl, (proj2 (float_gt_false_iff _ 0) H). apply andb_false_r. }
  rewrite Hcond. cbn [andb].
  rewrite yoy_loop_closed. cbn [bind app].
  destruct (positive_pair_rates (adjacent fcf)) as [|r rs]; [reflexivity|].
  rewrite truediv_ok by (apply not_0_IZR; unfold len; cbn [List.length]; lia).
  reflexivity.
Qed.

Lemma growth_rate_yoy_fallback_witness :
  calculate_historical_growth_rate [-10; 100; 110]
  = Ok (match positive_pair_rates (adjacent (last_slice [-10; 100; 110] 5)) with
        | [] => 0.03
        | _ :: _ =>
            _clamp (Py.sum (positive_pair_rates
                              (adjacent (last_slice [-10; 100; 110] 5)))
                    / IZR (len (positive_pair_rates
                                  (adjacent (last_slice [-10; 100; 110] 5)))))
                   (-0.20) 0.30
        end).
Proof.
  apply (growth_rate_yoy_fallback [-10; 100; 110]).
  - cbn [List.length]. lia.
  - left. cbn. lra.
Defined.

Section CostOfCapitalFacts.

Variables beta market_cap total_debt interest_expense tax_rate : R.
Variables risk_free_rate equity_risk_premium : R.

Lemma cost_of_debt_eq :
  (if float_gt total_debt 0 && float_gt interest_expense 0 then
     cost_of_debt <- truediv interest_expense total_debt ;;
     ret (_clamp cost_of_debt 0.01 0.20)
   else ret (risk_free_rate + 0.015))
  = Ok (cost_of_debt total_debt interest_expense risk_free_rate).
Proof.
  unfold cost_of_debt.
  destruct (float_gt total_debt 0) eqn:Hd; cbn [andb]; [|reflexivity].
  apply float_gt_iff in Hd.
  destruct (float_gt interest_expense 0); [|reflexivity].
  now rewrite truediv_ok by lra.
Qed.

Lemma cost_of_debt_nonneg :
  0 <= risk_free_rate + 0.015 ->
  0 <= cost_of_debt total_debt interest_expense risk_free_rate.
Proof.
  intros Hrf. unfold cost_of_debt.
  destruct (float_gt total_debt 0 && float_gt interest_expense 0); [|exact Hrf].
  pose proof (clamp_bounds (interest_expense / total_debt) 0.01 0.20 ltac:(lra)).
  lra.
Qed.

(** With capital, the weighted cost, clamped. *)
Lemma calculate_wacc_weighted :
  0 < market_cap + total_debt ->
  calculate_wacc beta market_cap total_debt interest_expense tax_rate
    risk_free_rate equity_risk_premium
  = Ok (_clamp
          (market_cap / (market_cap + total_debt)
             * (risk_free_rate + beta * equity_risk_premium)
           + total_debt / (market_cap + total_debt)
             * (cost_of_debt total_debt interest_expense risk_free_rate
                * (1 - tax_rate)))
          0.04 0.25).
Proof.
  intros Hc. unfold calculate_wacc. rewrite cost_of_debt_eq. cbn [bind].
  decide_cmp (float_le (market_cap + total_debt) 0).
  rewrite !truediv_ok by lra. reflexivity.
Qed.

Lemma calculate_wacc_no_capital :
  market_cap + total_debt <= 0 ->
  calculate_wacc beta market_cap total_debt interest_expense tax_rate
    risk_free_rate equity_risk_premium
  = Ok (risk_free_rate + beta * equity_risk_premium).
Proof.
  intros Hc. unfold calculate_wacc. rewrite cost_of_debt_eq. cbn [bind].
  decide_cmp (float_le (market_cap + total_debt) 0). reflexivity.
Qed.

End CostOfCapitalFacts.

(** X3.  For a non-negative equity risk premium and a non-negative market
    capitalisation, [calculate_wacc] never decreases when beta increases,
    all other arguments being equal. *)
Theorem calculate_wacc_monotone_in_beta
    (beta1 beta2 market_cap total_debt interest_expense tax_rate
     risk_free_rate equity_risk_premium : R) :
  0 <= equity_risk_premium -> 0 <= market_cap -> beta1 <= beta2 ->
  exists wacc1 wacc2,
    calculate_wacc beta1 market_cap total_debt interest_expense tax_rate
      risk_free_rate equity_risk_premium = Ok wacc1
    /\ calculate_wacc beta2 market_cap total_debt interest_expense tax_rate
         risk_free_rate equity_risk_premium = Ok wacc2
    /\ wacc1 <= wacc2.
Proof.
  intros Herp Hmc Hbeta.
  destruct (Rle_dec (market_cap + total_debt) 0) as [Hc | Hc].
  - rewrite !calculate_wacc_no_capital by assumption.
    do 2 eexists. split; [reflexivity|]. split; [reflexivity|]. nra.
  - rewrite !calculate_wacc_weighted by lra.
    do 2 eexists. split; [reflexivity|]. split; [reflexivity|].
    apply clamp_monotone.
    assert (0 <= market_cap / (market_cap + total_debt)).
    { apply Rmult_le_pos; [assumption|]. left. apply Rinv_0_lt_compat. lra. }
    set (ew := market_cap / (market_cap + total_debt)) in *.
    assert (ew * (risk_free_rate + beta1 * equity_risk_premium)
            <= ew * (risk_free_rate + beta2 * equity_risk_premium)).
    { apply Rmult_le_compat_l; [assumption|]. nra. }
    lra.
Qed.

Lemma calculate_wacc_monotone_in_beta_witness :
  exists wacc1 wacc2,
    calculate_wacc 1 500 50 2 0.21 RISK_FREE_RATE EQUITY_RISK_PREMIUM = Ok wacc1
    /\ calculate_wacc 2 500 50 2 0.21 RISK_FREE_RATE EQUITY_RISK_PREMIUM = Ok wacc2
    /\ wacc1 <= wacc2.
Proof.
  apply (calculate_wacc_monotone_in_beta 1 2 500 50 2 0.21
           RISK_FREE_RATE EQUITY_RISK_PREMIUM);
    unfold EQUITY_RISK_PREMIUM; lra.
Defined.

(** X4.  For a company without debt ([total_debt = 0], [market_cap > 0])
    the WACC is the CAPM cost of equity
    [risk_free_rate + beta * equity_risk_premium] clamped to [0.04, 0.25],
    whatever the interest expense and the tax rate. *)
Theorem calculate_wacc_debt_free
    (beta market_cap interest_expense tax_rate
     risk_free_rate equity_risk_premium : R) :
  0 < market_cap ->
  calculate_wacc beta market_cap 0 interest_expense tax_rate
    risk_free_rate equity_risk_premium
  = Ok (_clamp (risk_free_rate + beta * equity_risk_premium) 0.04 0.25).
Proof.
  intros Hmc. rewrite calculate_wacc_weighted by lra.
  apply f_equal. f_equal. field. lra.
Qed.

Lemma calculate_wacc_debt_free_witness :
  calculate_wacc 1 500000000000 0 0 0.21 RISK_FREE_RATE EQUITY_RISK_PREMIUM
  = Ok (_clamp (RISK_FREE_RATE + 1 * EQUITY_RISK_PREMIUM) 0.04 0.25).
Proof.
  apply (calculate_wacc_debt_free 1 500000000000 0 0.21
           RISK_FREE_RATE EQUITY_RISK_PREMIUM).
  lra.
Defined.

(** X5.  With positive capital, non-negative debt and a default cost of
    debt [risk_free_rate + 0.015] that is not negative, a higher tax rate
    never gives a higher WACC. *)
Theorem calculate_wacc_tax_shield
    (beta market_cap total_debt interest_expense tax_rate1 tax_rate2
     risk_free_rate equity_risk_premium : R) :
  0 < market_cap + total_debt -> 0 <= total_debt ->
  0 <= risk_free_rate + 0.015 ->
  tax_rate1 <= tax_rate2 ->
  exists wacc1 wacc2,
    calculate_wacc beta market_cap total_debt interest_expense tax_rate1
      risk_free_rate equity_risk_premium = Ok wacc1
    /\ calculate_wacc beta market_cap total_debt interest_expense tax_rate2
         risk_free_rate equity_risk_premium = Ok wacc2
    /\ wacc2 <= wacc1.
Proof.
  intros Hc Hd Hrf Htax.
  rewrite !calculate_wacc_weighted by lra.
  do 2 eexists. split; [reflexivity|]. split; [reflexivity|].
  apply clamp_monotone.
  pose proof (cost_of_debt_nonneg total_debt interest_expense risk_free_rate Hrf).
  assert (0 <= total_debt / (market_cap + total_debt)).
  { apply Rmult_le_pos; [assumption|]. left. apply Rinv_0_lt_compat. lra. }
  set (cod := cost_of_debt total_debt interest_expense risk_free_rate) in *.
  set (dw := total_debt / (market_cap + total_debt)) in *.
  assert (dw * (cod * (1 - tax_rate2)) <= dw * (cod * (1 - tax_rate1))).
  { apply Rmult_le_compat_l; [assumption|]. nra. }
  lra.
Qed.

Lemma calculate_wacc_tax_shield_witness :
  exists wacc1 wacc2,
    calculate_wacc 1 500 100 3 0.10 RISK_FREE_RATE EQUITY_RISK_PREMIUM = Ok wacc1
    /\ calculate_wacc 1 500 100 3 0.40 RISK_FREE_RATE EQUITY_RISK_PREMIUM = Ok wacc2
    /\ wacc2 <= wacc1.
Proof.
  apply (calculate_wacc_tax_shield 1 500 100 3 0.10 0.40
           RISK_FREE_RATE EQUITY_RISK_PREMIUM);
    unfold RISK_FREE_RATE; lra.
Defined.

Section ProjectionFacts.

Variables (years : Z) (g L : R).

Lemma faded_growth_first : faded_growth g L years 1 = g.
Proof.
  unfold faded_growth. change (1 - 1)%Z with 0%Z. unfold Rdiv. lra.
Qed.

Lemma faded_growth_last : (2 <= years)%Z -> faded_growth g L years years = L.
Proof.
  intros Hy. unfold faded_growth.
  replace (Z.max (years - 1) 1) with (years - 1)%Z by lia.
  assert (IZR (years - 1) <> 0) by (apply not_0_IZR; lia).
  field. assumption.
Qed.

Lemma faded_growth_step (t : Z) :
  faded_growth g L years (t + 1) - faded_growth g L years t
  = (L - g) / IZR (Z.max (years - 1) 1).
Proof.
  unfold faded_growth.
  replace (t + 1 - 1)%Z with (t - 1 + 1)%Z by lia.
  rewrite plus_IZR.
  pose proof (fade_denominator_nonzero years).
  field. assumption.
Qed.

Lemma projection_positive (ts : list Z) :
  Forall (fun t => -1 < faded_growth g L years t) ts ->
  forall current_fcf, 0 < current_fcf ->
    Forall (fun x => 0 < x) (projection ts years g L current_fcf).
Proof.
  induction 1 as [|t rest Ht _ IH]; intros c Hc; cbn [projection];
    constructor.
  - nra.
  - apply IH. nra.
Qed.

Lemma faded_growth_above_minus_1 :
  -1 < g -> -1 < L ->
  Forall (fun t => -1 < faded_growth g L years t) (range1 years).
Proof.
  intros Hg HL. eapply Forall_impl; [|apply range1_bounds].
  intros t Ht. cbv beta in Ht.
  pose proof (faded_growth_between years g L t Ht) as [Hlo _].
  unfold Rmin in Hlo. destruct (Rle_dec g L); lra.
Qed.

End ProjectionFacts.

(** X6.  For [years >= 1] the first projected value is
    [base_fcf * (1 + initial_growth_rate)]: the fade starts at the initial
    rate.  For [years >= 2] the last projected value is the one before it
    times [1 + long_term_growth_rate]: the fade ends on the long-term
    rate. *)
Theorem project_free_cash_flows_fade_endpoints (base_fcf g L : R) (years : Z) :
  (1 <= years)%Z ->
  exists projected,
    project_free_cash_flows base_fcf g years L = Ok projected
    /\ year_value base_fcf projected 1 = base_fcf * (1 + g)
    /\ ((2 <= years)%Z ->
        year_value base_fcf projected (Z.to_nat years)
        = year_value base_fcf projected (Z.to_nat years - 1) * (1 + L)).
Proof.
  intros Hy. unfold project_free_cash_flows.
  rewrite project_loop_projection. cbn [app].
  eexists. split; [reflexivity|]. unfold range1. split.
  - cbn [year_value]. rewrite projection_step by lia.
    cbn [year_value]. change (Z.of_nat (1 + 0)) with 1%Z.
    now rewrite faded_growth_first.
  - intros Hy2.
    destruct (Z.to_nat years) as [|n] eqn:Hn; [lia|].
    cbn [year_value]. rewrite <- Hn. rewrite projection_step by lia.
    replace (Z.of_nat (1 + n)) with years by lia.
    rewrite faded_growth_last by assumption.
    rewrite Hn. replace (S n - 1)%nat with n by lia. reflexivity.
Qed.

Lemma project_free_cash_flows_fade_endpoints_witness :
  exists projected,
    project_free_cash_flows 1000000 0.20 7 0.025 = Ok projected
    /\ year_value 1000000 projected 1 = 1000000 * (1 + 0.20)
    /\ ((2 <= 7)%Z ->
        year_value 1000000 projected (Z.to_nat 7)
        = year_value 1000000 projected (Z.to_nat 7 - 1) * (1 + 0.025)).
Proof. apply (project_free_cash_flows_fade_endpoints 1000000 0.20 0.025 7). lia. Defined.

(** X7.  When both growth rates are above -1, every projected value has the
    sign of [base_fcf]: a positive base gives positive values only, a
    negative base negative values only. *)
Theorem project_free_cash_flows_keeps_sign (base_fcf g L : R) (years : Z) :
  -1 < g -> -1 < L ->
  exists projected,
    project_free_cash_flows base_fcf g years L = Ok projected
    /\ (0 < base_fcf -> Forall (fun x => 0 < x) projected)
    /\ (base_fcf < 0 -> Forall (fun x => x < 0) projected).
Proof.
  intros Hg HL. unfold project_free_cash_flows.
  rewrite project_loop_projection. cbn [app].
  eexists. split; [reflexivity|].
  pose proof (faded_growth_above_minus_1 years g L Hg HL).
  split; intros Hb.
  - now apply projection_positive.
  - now apply projection_negative.
Qed.

Lemma project_free_cash_flows_keeps_sign_witness :
  exists projected,
    project_free_cash_flows (-500000) 0.05 5 0.025 = Ok projected
    /\ (0 < -500000 -> Forall (fun x => 0 < x) projected)
    /\ (-500000 < 0 -> Forall (fun x => x < 0) projected).
Proof. apply (project_free_cash_flows_keeps_sign (-500000) 0.05 0.025 5); lra. Defined.

(** X8.  When the long-term rate is at most the initial rate, the growth
    applied in each projection year lies between the two rates and never
    increases from one year to the next. *)
Theorem project_free_cash_flows_growth_fades (base_fcf g L : R) (years : Z) :
  L <= g ->
  exists (projected : list R) (growth : nat -> R),
    project_free_cash_flows base_fcf g years L = Ok projected
    /\ (forall t : nat, (1 <= t)%nat -> (Z.of_nat t <= years)%Z ->
          year_value base_fcf projected t
          = year_value base_fcf projected (t - 1) * (1 + growth t)
          /\ L <= growth t <= g
          /\ growth (S t) <= growth t).
Proof.
  intros HLg. unfold project_free_cash_flows.
  rewrite project_loop_projection. cbn [app].
  exists (projection (range1 years) years g L base_fcf),
         (fun t => faded_growth g L years (Z.of_nat t)).
  split; [reflexivity|].
  intros t Ht1 Hty. split; [|split].
  - destruct t as [|i]; [lia|].
    cbn [year_value]. unfold range1.
    rewrite projection_step by lia.
    replace (S i - 1)%nat with i by lia. reflexivity.
  - pose proof (faded_growth_between years g L (Z.of_nat t) ltac:(lia)) as Hb.
    unfold Rmin, Rmax in Hb. destruct (Rle_dec g L); lra.
  - pose proof (faded_growth_step years g L (Z.of_nat t)) as Hs.
    replace (Z.of_nat (S t)) with (Z.of_nat t + 1)%Z by lia.
    assert (0 < IZR (Z.max (years - 1) 1)) by (apply IZR_lt; lia).
    assert ((L - g) / IZR (Z.max (years - 1) 1) <= 0).
    { assert (0 < / IZR (Z.max (years - 1) 1)) by now apply Rinv_0_lt_compat.
      unfold Rdiv. nra. }
    lra.
Qed.

Lemma project_free_cash_flows_growth_fades_witness :
  exists (projected : list R) (growth : nat -> R),
    project_free_cash_flows 1000000 0.20 7 0.025 = Ok projected
    /\ (forall t : nat, (1 <= t)%nat -> (Z.of_nat t <= 7)%Z ->
          year_value 1000000 projected t
          = year_value 1000000 projected (t - 1) * (1 + growth t)
          /\ 0.025 <= growth t <= 0.20
          /\ growth (S t) <= growth t).
Proof. apply (project_free_cash_flows_growth_fades 1000000 0.20 0.025 7). lra. Defined.

(** X9.  The terminal value lies between the perpetuity value and the
    exit-multiple value (it is their mean); for a positive terminal cash
    flow, a long-term growth rate above -1 and a non-negative exit multiple
    it is strictly positive, whatever the WACC. *)
Theorem calculate_terminal_value_between_methods
    (terminal_fcf wacc long_term_growth_rate exit_multiple : R) :
  let tv_perpetuity :=
    terminal_fcf * (1 + long_term_growth_rate)
    / Rmax (wacc - long_term_growth_rate) 0.001 in
  let tv_exit_multiple := terminal_fcf * exit_multiple in
  exists tv,
    calculate_terminal_value terminal_fcf wacc long_term_growth_rate exit_multiple
    = Ok tv
    /\ Rmin tv_perpetuity tv_exit_multiple <= tv
       <= Rmax tv_perpetuity tv_exit_multiple
    /\ (0 < terminal_fcf -> -1 < long_term_growth_rate -> 0 <= exit_multiple ->
        0 < tv).
Proof.
  cbv zeta. rewrite calculate_terminal_value_ok.
  eexists. split; [reflexivity|]. split.
  - set (p := terminal_fcf * (1 + long_term_growth_rate)
               / Rmax (wacc - long_term_growth_rate) 0.001).
    set (e := terminal_fcf * exit_multiple).
    unfold Rmin, Rmax. destruct (Rle_dec p e); lra.
  - intros Hf HL Hm.
    assert (0 < / Rmax (wacc - long_term_growth_rate) 0.001).
    { apply Rinv_0_lt_compat.
      pose proof (Rmax_r (wacc - long_term_growth_rate) 0.001). lra. }
    assert (0 < terminal_fcf * (1 + long_term_growth_rate)) by nra.
    assert (0 < terminal_fcf * (1 + long_term_growth_rate)
                / Rmax (wacc - long_term_growth_rate) 0.001)
      by (unfold Rdiv; nra).
    assert (0 <= terminal_fcf * exit_multiple) by nra.
    lra.
Qed.

Lemma calculate_terminal_value_between_methods_witness :
  exists tv,
    calculate_terminal_value 1000000 0.09 0.025 20 = Ok tv /\ 0 < tv.
Proof.
  destruct (calculate_terminal_value_between_methods 1000000 0.09 0.025 20)
    as (tv & Htv & _ & Hpos).
  exists tv. split; [exact Htv|]. apply Hpos; lra.
Defined.

(** X10.  For a non-negative terminal cash flow and a long-term growth rate
    of at least -1, a higher WACC never gives a higher terminal value; and
    below the floor ([wacc <= long_term_growth_rate + 0.001]) the terminal
    value no longer depends on the WACC. *)
Theorem calculate_terminal_value_decreasing_in_wacc
    (terminal_fcf wacc1 wacc2 long_term_growth_rate exit_multiple : R) :
  0 <= terminal_fcf -> -1 <= long_term_growth_rate -> wacc1 <= wacc2 ->
  exists tv1 tv2,
    calculate_terminal_value terminal_fcf wacc1 long_term_growth_rate exit_multiple
    = Ok tv1
    /\ calculate_terminal_value terminal_fcf wacc2 long_term_growth_rate
         exit_multiple = Ok tv2
    /\ tv2 <= tv1
    /\ (wacc2 <= long_term_growth_rate + 0.001 -> tv1 = tv2).
Proof.
  intros Hf HL Hw. rewrite !calculate_terminal_value_ok.
  do 2 eexists. split; [reflexivity|]. split; [reflexivity|].
  set (s1 := Rmax (wacc1 - long_term_growth_rate) 0.001).
  set (s2 := Rmax (wacc2 - long_term_growth_rate) 0.001).
  assert (Hs1 : 0.001 <= s1) by apply Rmax_r.
  assert (Hs12 : s1 <= s2).
  { unfold s1, s2, Rmax.
    repeat match goal with
    | |- context [Rle_dec ?a ?b] => destruct (Rle_dec a b)
    end; lra. }
  split.
  - assert (/ s2 <= / s1) by (apply Rinv_le_contravar; lra).
    assert (0 <= terminal_fcf * (1 + long_term_growth_rate)) by nra.
    unfold Rdiv. nra.
  - intros Hfloor.
    assert (s1 = 0.001 /\ s2 = 0.001) as [-> ->]; [|reflexivity].
    unfold s1, s2, Rmax.
    repeat match goal with
    | |- context [Rle_dec ?a ?b] => destruct (Rle_dec a b)
    end; lra.
Qed.

Lemma calculate_terminal_value_decreasing_in_wacc_witness :
  exists tv1 tv2,
    calculate_terminal_value 1000000 0.02 0.025 20 = Ok tv1
    /\ calculate_terminal_value 1000000 0.025 0.025 20 = Ok tv2
    /\ tv2 <= tv1
    /\ (0.025 <= 0.025 + 0.001 -> tv1 = tv2).
Proof.
  apply (calculate_terminal_value_decreasing_in_wacc 1000000 0.02 0.025 0.025 20);
    lra.
Defined.

(** X11.  What [discount_cash_flows] does is decided by the magnitude of
    its last discount factor [(1 + wacc) ** n], [n] the number of cash
    flows.  Beyond the float range (from [1e309] on) the call raises
    [OverflowError], and it raises [OverflowError] only above [1e308];
    where the factor underflows to [0.0] (up to [1e-325], as for
    [wacc = -1] with at least one cash flow) the call raises
    [ZeroDivisionError], and it raises [ZeroDivisionError] only below
    [1e-323]; from [1e-323] to [1e308] it returns the discounted sum.  It
    raises nothing else.  Without cash flows it returns the terminal value
    unchanged, for every WACC. *)
Theorem discount_cash_flows_error (cash_flows : list R) (terminal_value wacc : R) :
  let n := List.length cash_flows in
  let factor := Rabs ((1 + wacc) ^ n) in
  let answer := discount_cash_flows cash_flows terminal_value wacc in
  (10 ^ 309 <= factor -> answer = Raise OverflowError)
  /\ (answer = Raise OverflowError -> 10 ^ 308 < factor)
  /\ (factor <= / 10 ^ 325 -> answer = Raise ZeroDivisionError)
  /\ (answer = Raise ZeroDivisionError -> factor < / 10 ^ 323)
  /\ (/ 10 ^ 323 <= factor <= 10 ^ 308 ->
      answer = Ok (present_values cash_flows 1 wacc
                   + terminal_value / (1 + wacc) ^ n))
  /\ (forall e, answer = Raise e -> e = OverflowError \/ e = ZeroDivisionError)
  /\ (wacc = -1 -> cash_flows <> [] -> answer = Raise ZeroDivisionError)
  /\ discount_cash_flows [] terminal_value wacc = Ok terminal_value.
Proof.
  cbv zeta.
  pose proof float_underflow_bounds as [Hmin325 Hmin323].
  pose proof (float_max_ge 308 (le_n 308)) as Hmax308.
  pose proof float_max_lt as Hmax309.
  pose proof float_underflow_pos as Hpos.
  assert (Hempty : discount_cash_flows [] terminal_value wacc = Ok terminal_value).
  { rewrite discount_cash_flows_ok by apply in_float_range_1.
    cbn [present_values List.length pow]. apply f_equal. lra. }
  assert (Hcases :
    (FLOAT_MAX < Rabs ((1 + wacc) ^ List.length cash_flows)
     /\ discount_cash_flows cash_flows terminal_value wacc = Raise OverflowError)
    \/ (Rabs ((1 + wacc) ^ List.length cash_flows) <= FLOAT_UNDERFLOW
        /\ discount_cash_flows cash_flows terminal_value wacc
           = Raise ZeroDivisionError)
    \/ (in_float_range ((1 + wacc) ^ List.length cash_flows)
        /\ discount_cash_flows cash_flows terminal_value wacc
           = Ok (present_values cash_flows 1 wacc
                 + terminal_value / (1 + wacc) ^ List.length cash_flows))).
  { destruct (float_range_cases ((1 + wacc) ^ List.length cash_flows))
      as [H | [H | H]].
    - left. split; [exact H | now apply discount_cash_flows_overflow].
    - right; left. split; [exact H | now apply discount_cash_flows_underflow].
    - right; right. split; [exact H | now apply discount_cash_flows_ok]. }
  assert (Hzero : wacc = -1 -> cash_flows <> [] ->
            Rabs ((1 + wacc) ^ List.length cash_flows) = 0).
  { intros -> Hne. replace (1 + -1) with 0 by lra.
    rewrite pow_i by (destruct cash_flows; [congruence | cbn; lia]).
    apply Rabs_R0. }
  unfold in_float_range in Hcases.
  destruct Hcases as [[H ->] | [[H ->] | [[H1 H2] ->]]];
    (split; [|split; [|split; [|split; [|split; [|split; [|split]]]]]]);
    try exact Hempty;
    try (intros; discriminate);
    try (intros; reflexivity);
    try (intros; lra);
    try (intros e He; injection He as <-; tauto);
    try (intros Hw Hne; pose proof (Hzero Hw Hne); lra).
Qed.

Lemma discount_cash_flows_error_witness :
  discount_cash_flows [1000000; 1000000] 10000000 0.09
  = Ok (present_values [1000000; 1000000] 1 0.09 + 10000000 / (1 + 0.09) ^ 2)
  /\ discount_cash_flows [1; 1] 1 (10 ^ 200) = Raise OverflowError
  /\ discount_cash_flows (repeat 1 21) 1 (-0.9999999999999999)
     = Raise ZeroDivisionError.
Proof.
  split; [|split].
  - destruct (discount_cash_flows_error [1000000; 1000000] 10000000 0.09)
      as (_ & _ & _ & _ & Hreturns & _).
    apply Hreturns.
    cbn [List.length]. rewrite Rabs_pos_eq by (apply pow_le; lra). split.
    + apply Rle_trans with 1; [|apply pow_R1_Rle; lra].
      apply Rle_trans with (/ 1); [|rewrite Rinv_1; lra].
      apply Rinv_le_contravar; [lra | apply pow_R1_Rle; lra].
    + apply small_power; [lra | lia].
  - destruct (discount_cash_flows_error [1; 1] 1 (10 ^ 200)) as (Hover & _).
    apply Hover. cbn [List.length].
    assert (Hp : 0 < 10 ^ 200) by (apply pow_lt; lra).
    rewrite Rabs_pos_eq by (apply pow_le; lra).
    apply Rle_trans with ((10 ^ 200) ^ 2); [|apply pow_incr; lra].
    rewrite <- pow_mult. apply Rle_pow; [lra | lia].
  - destruct (discount_cash_flows_error (repeat 1 21) 1 (-0.9999999999999999))
      as (_ & _ & Hunder & _).
    apply Hunder. cbn [List.length repeat].
    replace (1 + -0.9999999999999999) with (/ 10 ^ 16) by (simpl; lra).
    rewrite pow_inv, <- pow_mult.
    rewrite Rabs_pos_eq by (left; apply Rinv_0_lt_compat, pow_lt; lra).
    apply Rinv_le_contravar; [apply pow_lt; lra | apply Rle_pow; [lra | lia]].
Defined.

Lemma present_values_scale (k wacc : R) (cash_flows : list R) :
  forall t,
    present_values (map (Rmult k) cash_flows) t wacc
    = k * present_values cash_flows t wacc.
Proof.
  induction cash_flows as [|cf rest IH]; intros t; cbn [map present_values].
  - lra.
  - rewrite IH. unfold Rdiv. lra.
Qed.

(** X12.  Multiplying every cash flow and the terminal value by [k]
    multiplies the present value by [k], and leaves an exception the same
    exception: whether [discount_cash_flows] raises depends on the rate and
    the number of cash flows only.  At [wacc = 0] the present value is the
    plain sum of the cash flows plus the terminal value. *)
Theorem discount_cash_flows_linear (cash_flows : list R) (terminal_value wacc k : R) :
  discount_cash_flows (map (Rmult k) cash_flows) (k * terminal_value) wacc
  = match discount_cash_flows cash_flows terminal_value wacc with
    | Ok pv => Ok (k * pv)
    | Raise e => Raise e
    end
  /\ discount_cash_flows cash_flows terminal_value 0
     = Ok (Py.sum cash_flows + terminal_value).
Proof.
  split.
  - destruct (float_range_cases ((1 + wacc) ^ List.length cash_flows))
      as [H | [H | H]].
    + rewrite (discount_cash_flows_overflow cash_flows) by exact H.
      apply discount_cash_flows_overflow. now rewrite length_map.
    + rewrite (discount_cash_flows_underflow cash_flows) by exact H.
      apply discount_cash_flows_underflow. now rewrite length_map.
    + rewrite (discount_cash_flows_ok cash_flows) by exact H.
      rewrite discount_cash_flows_ok by now rewrite length_map.
      rewrite present_values_scale, length_map. apply f_equal.
      unfold Rdiv. lra.
  - rewrite discount_cash_flows_ok.
    + rewrite present_values_undiscounted. apply f_equal.
      replace (1 + 0) with 1 by lra. rewrite pow1. lra.
    + replace (1 + 0) with 1 by lra. rewrite pow1. apply in_float_range_1.
Qed.

(** ** Further properties of [calculate_intrinsic_value] *)

Section RoundingBounds.

(** Rounding does not cross a value that has at most [ndigits] decimals. *)
Lemma round_half_even_ge (z : Z) (y : R) :
  IZR z <= y -> (z <= round_half_even y)%Z.
Proof.
  intros H. pose proof (Zfloor_lub z y H) as Hf. unfold round_half_even.
  destruct (float_lt _ _); [assumption|].
  destruct (float_gt _ _); [lia|].
  destruct (Z.even _); lia.
Qed.

Lemma round_half_even_le (z : Z) (y : R) :
  y <= IZR z -> (round_half_even y <= z)%Z.
Proof.
  intros H. destruct (Req_dec_T y (IZR z)) as [-> | Hne].
  - rewrite round_half_even_IZR. lia.
  - assert (Hlt : (Zfloor y < z)%Z).
    { apply lt_IZR. pose proof (Zfloor_bound y). lra. }
    unfold round_half_even.
    destruct (float_lt _ _); [lia|].
    destruct (float_gt _ _); [lia|].
    destruct (Z.even _); lia.
Qed.

Lemma round_within (a b : Z) (x : R) (ndigits : nat) :
  IZR a / 10 ^ ndigits <= x <= IZR b / 10 ^ ndigits ->
  IZR a / 10 ^ ndigits <= round x ndigits <= IZR b / 10 ^ ndigits.
Proof.
  intros [Ha Hb]. unfold round.
  assert (Hp : 0 < 10 ^ ndigits) by (apply pow_lt; lra).
  assert (Hi : 0 < / 10 ^ ndigits) by now apply Rinv_0_lt_compat.
  assert (Ha' : IZR a <= x * 10 ^ ndigits).
  { apply Rmult_le_compat_r with (r := 10 ^ ndigits) in Ha; [|lra].
    replace (IZR a / 10 ^ ndigits * 10 ^ ndigits) with (IZR a) in Ha
      by (field; lra).
    exact Ha. }
  assert (Hb' : x * 10 ^ ndigits <= IZR b).
  { apply Rmult_le_compat_r with (r := 10 ^ ndigits) in Hb; [|lra].
    replace (IZR b / 10 ^ ndigits * 10 ^ ndigits) with (IZR b) in Hb
      by (field; lra).
    exact Hb. }
  apply round_half_even_ge, IZR_le in Ha'.
  apply round_half_even_le, IZR_le in Hb'.
  unfold Rdiv. split; apply Rmult_le_compat_r; lra.
Qed.

End RoundingBounds.

(** What a returned valuation is made of, for any input record. *)
Lemma intrinsic_value_some_inv (company_data : CompanyData.t) (valuation : Valuation.t) :
  calculate_intrinsic_value company_data = Ok (Some valuation) ->
  let historical_fcf := get (CompanyData.historical_fcf company_data) [] in
  let base_fcf := List.last historical_fcf 0 in
  let ticker := get (CompanyData.ticker company_data) "UNKNOWN"%string in
  exists growth_rate wacc intrinsic_value_per_share,
    historical_fcf <> [] /\ base_fcf <> 0
    /\ 0 < CompanyData.shares_outstanding company_data
    /\ calculate_historical_growth_rate historical_fcf = Ok growth_rate
    /\ calculate_wacc (CompanyData.beta company_data)
         (CompanyData.market_cap company_data)
         (CompanyData.total_debt company_data)
         (CompanyData.interest_expense company_data)
         (CompanyData.tax_rate company_data)
         RISK_FREE_RATE EQUITY_RISK_PREMIUM = Ok wacc
    /\ valuation
       = {| Valuation.ticker := ticker;
            Valuation.name := get (CompanyData.name company_data) (Some ticker);
            Valuation.sector :=
              get (CompanyData.sector company_data) (Some "Unknown"%string);
            Valuation.current_price := CompanyData.current_price company_data;
            Valuation.intrinsic_value := round intrinsic_value_per_share 2;
            Valuation.wacc := Some (round wacc 4);
            Valuation.fcf_growth_rate :=
              Some (round (recovery_growth base_fcf growth_rate) 4);
            Valuation.base_fcf := round base_fcf 0;
            Valuation.shares_outstanding :=
              CompanyData.shares_outstanding company_data |}.
Proof.
  unfold calculate_intrinsic_value. cbv zeta.
  destruct (get (CompanyData.historical_fcf company_data) []) as [|x l] eqn:Hh;
    [discriminate|].
  rewrite (last_ok (x :: l) 0) by discriminate. cbn [bind].
  destruct (float_eq (List.last (x :: l) 0) 0) eqn:Hbase; [discriminate|].
  apply float_eq_false_iff in Hbase.
  destruct (calculate_historical_growth_rate (x :: l)) as [g|] eqn:Hg;
    cbn [bind]; [|discriminate].
  destruct (calculate_wacc _ _ _ _ _ _ _) as [w|] eqn:Hw; cbn [bind]; [|discriminate].
  destruct (project_free_cash_flows _ _ _ _) as [projected|]; cbn [bind];
    [|discriminate].
  destruct (Py.last projected) as [terminal_fcf|]; cbn [bind]; [|discriminate].
  destruct (calculate_terminal_value _ _ _ _) as [tv|]; cbn [bind]; [|discriminate].
  destruct (discount_cash_flows _ _ _) as [ev|]; cbn [bind]; [|discriminate].
  destruct (float_le (CompanyData.shares_outstanding company_data) 0) eqn:Hs;
    [discriminate|].
  apply float_le_false_iff in Hs.
  rewrite truediv_ok by lra. cbn [bind ret].
  intros Hv. injection Hv as <-.
  exists g, w, ((ev - CompanyData.total_debt company_data)
                / CompanyData.shares_outstanding company_data).
  repeat split; try assumption; discriminate.
Qed.

(** X13.  The share-count test of [calculate_intrinsic_value] comes after
    the discounting: for a record with a non-empty history ending on a
    nonzero value, no capital ([market_cap + total_debt <= 0], so that the
    WACC is the unclamped cost of equity) and a beta from [1e46] on, the
    call raises [OverflowError] on [(1 + wacc) ** t], whatever the share
    count, a non-positive one included. *)
Theorem intrinsic_value_raises_before_share_test (company_data : CompanyData.t) :
  get (CompanyData.historical_fcf company_data) [] <> [] ->
  List.last (get (CompanyData.historical_fcf company_data) []) 0 <> 0 ->
  CompanyData.market_cap company_data + CompanyData.total_debt company_data <= 0 ->
  10 ^ 46 <= CompanyData.beta company_data ->
  calculate_intrinsic_value company_data = Raise OverflowError.
Proof. apply intrinsic_value_overflow. Qed.

Lemma intrinsic_value_raises_before_share_test_witness :
  calculate_intrinsic_value
    {| CompanyData.ticker := Some "TEST"%string;
       CompanyData.name := None;
       CompanyData.sector := None;
       CompanyData.current_price := 150;
       CompanyData.shares_outstanding := -1;
       CompanyData.historical_fcf := Some [1000000];
       CompanyData.beta := 10 ^ 50;
       CompanyData.market_cap := 0;
       CompanyData.total_debt := 0;
       CompanyData.interest_expense := 0;
       CompanyData.tax_rate := 0.21 |}
  = Raise OverflowError.
Proof.
  apply intrinsic_value_raises_before_share_test.
  - discriminate.
  - cbn. lra.
  - cbn. lra.
  - cbn [CompanyData.beta]. apply Rle_pow; [lra | lia].
Defined.

(** X14.  For a record with a positive beta and share count, and with
    positive capital or a beta of at most [1e40] (discount factors within
    the float range), whose most recent FCF is negative, the valuation is
    returned and its intrinsic value per share is below minus the debt per
    share, up to the rounding to cents:
    [intrinsic_value < -total_debt/shares + 0.005]. *)
Theorem intrinsic_value_of_negative_base (company_data : CompanyData.t) :
  get (CompanyData.historical_fcf company_data) [] <> [] ->
  List.last (get (CompanyData.historical_fcf company_data) []) 0 < 0 ->
  0 < CompanyData.beta company_data ->
  0 < CompanyData.market_cap company_data + CompanyData.total_debt company_data
  \/ CompanyData.beta company_data <= 10 ^ 40 ->
  0 < CompanyData.shares_outstanding company_data ->
  exists valuation,
    calculate_intrinsic_value company_data = Ok (Some valuation)
    /\ Valuation.intrinsic_value valuation
       < - CompanyData.total_debt company_data
           / CompanyData.shares_outstanding company_data + 0.005.
Proof. apply intrinsic_value_negative_base. Qed.

Lemma intrinsic_value_of_negative_base_witness :
  exists valuation,
    calculate_intrinsic_value
      (sample_data [5000000000; -1000000000] 150 1000000000)
    = Ok (Some valuation)
    /\ Valuation.intrinsic_value valuation
       < - CompanyData.total_debt
             (sample_data [5000000000; -1000000000] 150 1000000000)
           / CompanyData.shares_outstanding
               (sample_data [5000000000; -1000000000] 150 1000000000) + 0.005.
Proof.
  apply (intrinsic_value_of_negative_base
           (sample_data [5000000000; -1000000000] 150 1000000000)).
  - discriminate.
  - cbn. lra.
  - cbn. lra.
  - left. cbn. lra.
  - cbn. lra.
Defined.

Lemma present_values_positive (wacc : R) :
  0 < 1 + wacc ->
  forall (cash_flows : list R) (t : nat),
    Forall (fun cf => 0 < cf) cash_flows ->
    0 <= present_values cash_flows t wacc.
Proof.
  intros Hw cash_flows t Hpos. revert t.
  induction Hpos as [|cf rest Hcf _ IH]; intros t; cbn [present_values]; [lra|].
  assert (0 < / (1 + wacc) ^ t) by (apply Rinv_0_lt_compat, pow_lt; assumption).
  specialize (IH (S t)). unfold Rdiv. nra.
Qed.

Lemma enterprise_value_positive (base_fcf growth_rate wacc : R) :
  0 < base_fcf -> -1 < growth_rate -> 0 < wacc ->
  0 < enterprise_value base_fcf growth_rate wacc.
Proof.
  intros Hbase Hg Hw. unfold enterprise_value. cbv zeta.
  set (projected := projection (range1 PROJECTION_YEARS) PROJECTION_YEARS
                      growth_rate LONG_TERM_GROWTH_RATE base_fcf).
  assert (Hpos : Forall (fun x => 0 < x) projected).
  { apply projection_positive; [|assumption].
    apply faded_growth_above_minus_1; [assumption|].
    unfold LONG_TERM_GROWTH_RATE. lra. }
  assert (Hlast : 0 < List.last projected 0).
  { apply (Forall_last (fun x => 0 < x)); [|assumption].
    apply projection_nonempty. }
  pose proof (present_values_positive wacc ltac:(lra) projected 1 Hpos) as Hpv.
  assert (Hs : 0 < / Rmax (wacc - LONG_TERM_GROWTH_RATE) 0.001).
  { apply Rinv_0_lt_compat.
    pose proof (Rmax_r (wacc - LONG_TERM_GROWTH_RATE) 0.001). lra. }
  assert (Hd : 0 < / (1 + wacc) ^ List.length projected)
    by (apply Rinv_0_lt_compat, pow_lt; lra).
  assert (Htv : 0 < (List.last projected 0 * (1 + LONG_TERM_GROWTH_RATE)
                       / Rmax (wacc - LONG_TERM_GROWTH_RATE) 0.001
                     + List.last projected 0 * FCF_EXIT_MULTIPLE) / 2).
  { unfold LONG_TERM_GROWTH_RATE, FCF_EXIT_MULTIPLE in *. unfold Rdiv.
    assert (0 < List.last projected 0 * (1 + 0.025)
                * / Rmax (wacc - 0.025) 0.001) by nra.
    lra. }
  unfold Rdiv in *. nra.
Qed.

(** X15.  For a record with a positive beta and share count, and with
    positive capital or a beta of at most [1e40] (discount factors within
    the float range), whose most recent FCF is positive, the valuation is
    returned and its intrinsic value per share is above minus the debt per
    share, up to the rounding to cents:
    [-total_debt/shares - 0.005 < intrinsic_value]. *)
Theorem intrinsic_value_of_positive_base (company_data : CompanyData.t) :
  get (CompanyData.historical_fcf company_data) [] <> [] ->
  0 < List.last (get (CompanyData.historical_fcf company_data) []) 0 ->
  0 < CompanyData.beta company_data ->
  0 < CompanyData.market_cap company_data + CompanyData.total_debt company_data
  \/ CompanyData.beta company_data <= 10 ^ 40 ->
  0 < CompanyData.shares_outstanding company_data ->
  exists valuation,
    calculate_intrinsic_value company_data = Ok (Some valuation)
    /\ - CompanyData.total_debt company_data
         / CompanyData.shares_outstanding company_data - 0.005
       < Valuation.intrinsic_value valuation.
Proof.
  intros Hne Hbase Hbeta Hbound Hshares.
  destruct (intrinsic_value_run company_data Hne ltac:(lra) Hbeta Hbound)
    as (g & wacc & Hg & _ & Hwacc & _ & Hrun).
  specialize (Hrun Hshares). cbv zeta in Hrun.
  eexists. split; [exact Hrun|]. cbn [Valuation.intrinsic_value].
  set (base := List.last (get (CompanyData.historical_fcf company_data) []) 0) in *.
  assert (Hgrowth : -1 < recovery_growth base g).
  { unfold recovery_growth.
    replace (float_lt base 0) with false by (symmetry; apply float_lt_false_iff; lra).
    destruct (growth_rate_total (get (CompanyData.historical_fcf company_data) []))
      as (g' & Hg' & Hr).
    rewrite Hg in Hg'. injection Hg' as <-.
    unfold MIN_INITIAL_GROWTH in Hr. lra. }
  pose proof (enterprise_value_positive base (recovery_growth base g) wacc
                Hbase Hgrowth Hwacc) as Hev.
  set (ev := enterprise_value base (recovery_growth base g) wacc) in *.
  set (debt := CompanyData.total_debt company_data) in *.
  set (shares := CompanyData.shares_outstanding company_data) in *.
  pose proof (round_error ((ev - debt) / shares) 2) as Herr.
  pose proof (Rle_abs (- (round ((ev - debt) / shares) 2 - (ev - debt) / shares))).
  rewrite Rabs_Ropp in H.
  assert (Hs : 0 < / shares) by now apply Rinv_0_lt_compat.
  assert (- debt / shares < (ev - debt) / shares) by (unfold Rdiv; nra).
  replace (1 / 2 / 10 ^ 2) with 0.005 in Herr by (simpl; lra).
  lra.
Qed.

Lemma intrinsic_value_of_positive_base_witness :
  exists valuation,
    calculate_intrinsic_value
      (sample_data [5000000000; 6000000000] 150 1000000000)
    = Ok (Some valuation)
    /\ - CompanyData.total_debt
           (sample_data [5000000000; 6000000000] 150 1000000000)
         / CompanyData.shares_outstanding
             (sample_data [5000000000; 6000000000] 150 1000000000) - 0.005
       < Valuation.intrinsic_value valuation.
Proof.
  apply (intrinsic_value_of_positive_base
           (sample_data [5000000000; 6000000000] 150 1000000000)).
  - discriminate.
  - cbn. lra.
  - cbn. lra.
  - left. cbn. lra.
  - cbn. lra.
Defined.

(** X16.  In every valuation [calculate_intrinsic_value] returns, the
    ticker is the record's, or "UNKNOWN" when the key is missing; the name
    is the record's, or that ticker when missing; the sector is the
    record's, or "Unknown"; the price and the share count are copied
    unchanged; and the keys [wacc] and [fcf_growth_rate] are present.  (A
    name or a sector that is present as [None] stays [None].) *)
Theorem intrinsic_value_missing_keys (company_data : CompanyData.t)
    (valuation : Valuation.t) :
  calculate_intrinsic_value company_data = Ok (Some valuation) ->
  let ticker := get (CompanyData.ticker company_data) "UNKNOWN"%string in
  Valuation.ticker valuation = ticker
  /\ Valuation.name valuation = get (CompanyData.name company_data) (Some ticker)
  /\ Valuation.sector valuation
     = get (CompanyData.sector company_data) (Some "Unknown"%string)
  /\ Valuation.current_price valuation = CompanyData.current_price company_data
  /\ Valuation.shares_outstanding valuation
     = CompanyData.shares_outstanding company_data
  /\ Valuation.wacc valuation <> None
  /\ Valuation.fcf_growth_rate valuation <> None.
Proof.
  intros Hv. destruct (intrinsic_value_some_inv company_data valuation Hv)
    as (g & w & x & _ & _ & _ & _ & _ & ->).
  cbn. repeat split; discriminate.
Qed.

Lemma intrinsic_value_missing_keys_witness :
  exists valuation,
    calculate_intrinsic_value
      {| CompanyData.ticker := None;
         CompanyData.name := None;
         CompanyData.sector := None;
         CompanyData.current_price := 150;
         CompanyData.shares_outstanding := 1000000000;
         CompanyData.historical_fcf := Some [1000000];
         CompanyData.beta := 1.2;
         CompanyData.market_cap := 150000000000;
         CompanyData.total_debt := 20000000000;
         CompanyData.interest_expense := 1000000000;
         CompanyData.tax_rate := 0.21 |}
    = Ok (Some valuation)
    /\ Valuation.ticker valuation = "UNKNOWN"%string
    /\ Valuation.name valuation = Some "UNKNOWN"%string
    /\ Valuation.sector valuation = Some "Unknown"%string.
Proof.
  set (d := {| CompanyData.ticker := None;
               CompanyData.name := None;
               CompanyData.sector := None;
               CompanyData.current_price := 150;
               CompanyData.shares_outstanding := 1000000000;
               CompanyData.historical_fcf := Some [1000000];
               CompanyData.beta := 1.2;
               CompanyData.market_cap := 150000000000;
               CompanyData.total_debt := 20000000000;
               CompanyData.interest_expense := 1000000000;
               CompanyData.tax_rate := 0.21 |}).
  destruct (intrinsic_value_run d) as (g & w & _ & _ & _ & _ & Hrun).
  - discriminate.
  - cbn. lra.
  - cbn. lra.
  - left. cbn. lra.
  - specialize (Hrun ltac:(cbn; lra)). cbv zeta in Hrun.
    eexists. split; [exact Hrun|].
    destruct (intrinsic_value_missing_keys d _ Hrun) as (H1 & H2 & H3 & _).
    split; [exact H1|]. split; [exact H2 | exact H3].
Defined.

(** X17.  In every valuation [calculate_intrinsic_value] returns, the
    reported growth rate (rounded to 4 decimals) lies in [-0.20, 0.30], and
    is at least 0.05 when the most recent FCF is negative; the reported
    WACC lies in [0.04, 0.25] when [market_cap + total_debt > 0]. *)
Theorem intrinsic_value_reported_rates (company_data : CompanyData.t)
    (valuation : Valuation.t) :
  calculate_intrinsic_value company_data = Ok (Some valuation) ->
  exists growth wacc,
    Valuation.fcf_growth_rate valuation = Some growth
    /\ Valuation.wacc valuation = Some wacc
    /\ -0.20 <= growth <= 0.30
    /\ (List.last (get (CompanyData.historical_fcf company_data) []) 0 < 0 ->
        0.05 <= growth)
    /\ (0 < CompanyData.market_cap company_data
            + CompanyData.total_debt company_data ->
        0.04 <= wacc <= 0.25).
Proof.
  intros Hv. destruct (intrinsic_value_some_inv company_data valuation Hv)
    as (g & w & x & _ & _ & _ & Hg & Hw & ->).
  cbn [Valuation.fcf_growth_rate Valuation.wacc].
  do 2 eexists. split; [reflexivity|]. split; [reflexivity|].
  destruct (growth_rate_total (get (CompanyData.historical_fcf company_data) []))
    as (g' & Hg' & Hr).
  rewrite Hg in Hg'. injection Hg' as <-.
  unfold MIN_INITIAL_GROWTH, MAX_INITIAL_GROWTH in Hr.
  set (base := List.last (get (CompanyData.historical_fcf company_data) []) 0).
  assert (Hrec : -0.20 <= recovery_growth base g <= 0.30
                 /\ (base < 0 -> 0.05 <= recovery_growth base g)).
  { unfold recovery_growth. destruct (float_lt base 0) eqn:Hb.
    - rewrite max_Rmax. unfold Rmax. destruct (Rle_dec g 0.05); split; intros; lra.
    - apply float_lt_false_iff in Hb. split; [exact Hr | intros; lra]. }
  destruct Hrec as [Hrange Hneg].
  split; [|split].
  - pose proof (round_within (-2000) 3000 (recovery_growth base g) 4) as Hb.
    replace (IZR (-2000) / 10 ^ 4) with (-0.20) in Hb by (simpl; lra).
    replace (IZR 3000 / 10 ^ 4) with 0.30 in Hb by (simpl; lra).
    apply Hb. exact Hrange.
  - intros Hb.
    pose proof (round_within 500 3000 (recovery_growth base g) 4) as Hb'.
    replace (IZR 500 / 10 ^ 4) with 0.05 in Hb' by (simpl; lra).
    replace (IZR 3000 / 10 ^ 4) with 0.30 in Hb' by (simpl; lra).
    apply Hb'. split; [now apply Hneg | apply Hrange].
  - intros Hcap.
    destruct (calculate_wacc_cases (CompanyData.beta company_data)
                (CompanyData.market_cap company_data)
                (CompanyData.total_debt company_data)
                (CompanyData.interest_expense company_data)
                (CompanyData.tax_rate company_data)
                RISK_FREE_RATE EQUITY_RISK_PREMIUM)
      as [[Hc _] | [_ (w' & Hw' & Hr')]]; [lra|].
    rewrite Hw in Hw'. injection Hw' as <-.
    pose proof (round_within 400 2500 w 4) as Hb.
    replace (IZR 400 / 10 ^ 4) with 0.04 in Hb by (simpl; lra).
    replace (IZR 2500 / 10 ^ 4) with 0.25 in Hb by (simpl; lra).
    apply Hb. exact Hr'.
Qed.

Section Scaling.

Variable k : R.
Hypothesis k_pos : 0 < k.

Lemma float_gt_scale (x : R) : float_gt (k * x) 0 = float_gt x 0.
Proof.
  destruct (float_gt x 0) eqn:H.
  - apply float_gt_iff in H. apply float_gt_iff. nra.
  - apply float_gt_false_iff in H. apply float_gt_false_iff. nra.
Qed.

Lemma float_le_scale (x : R) : float_le (k * x) 0 = float_le x 0.
Proof.
  destruct (float_le x 0) eqn:H.
  - apply float_le_iff in H. apply float_le_iff. nra.
  - apply float_le_false_iff in H. apply float_le_false_iff. nra.
Qed.

Lemma float_lt_scale (x : R) : float_lt (k * x) 0 = float_lt x 0.
Proof.
  destruct (float_lt x 0) eqn:H.
  - apply float_lt_iff in H. apply float_lt_iff. nra.
  - apply float_lt_false_iff in H. apply float_lt_false_iff. nra.
Qed.

Lemma float_eq_scale (x : R) : float_eq (k * x) 0 = float_eq x 0.
Proof.
  destruct (float_eq x 0) eqn:H.
  - apply float_eq_iff in H. apply float_eq_iff. nra.
  - apply float_eq_false_iff in H. apply float_eq_false_iff. nra.
Qed.

Lemma truediv_scale (x y : R) : truediv (k * x) (k * y) = truediv x y.
Proof.
  unfold truediv. rewrite float_eq_scale.
  destruct (float_eq y 0) eqn:H; [reflexivity|].
  apply float_eq_false_iff in H. apply f_equal. field. lra.
Qed.

Lemma yoy_loop_scale (pairs : list (R * R)) :
  forall yoy_rates,
    yoy_loop (map (fun p => (k * fst p, k * snd p)) pairs) yoy_rates
    = yoy_loop pairs yoy_rates.
Proof.
  induction pairs as [|[prev curr] rest IH]; intros acc; cbn [map yoy_loop fst snd];
    [reflexivity|].
  rewrite !float_gt_scale, truediv_scale.
  destruct (float_gt prev 0 && float_gt curr 0); [|apply IH].
  destruct (truediv curr prev); cbn [bind]; [apply IH | reflexivity].
Qed.

Lemma adjacent_map (l : list R) :
  adjacent (map (Rmult k) l) = map (fun p => (k * fst p, k * snd p)) (adjacent l).
Proof.
  unfold adjacent.
  assert (H : forall (a b : list R),
             combine (map (Rmult k) a) (map (Rmult k) b)
             = map (fun p => (k * fst p, k * snd p)) (combine a b)).
  { induction a as [|x a IH]; intros [|y b]; cbn [map combine fst snd];
      try reflexivity. now rewrite IH. }
  rewrite <- H. f_equal.
  - induction l as [|x l IH]; [reflexivity|].
    destruct l as [|y l]; [reflexivity|].
    change (removelast (map (Rmult k) (x :: y :: l)))
      with (k * x :: removelast (map (Rmult k) (y :: l))).
    rewrite IH. reflexivity.
  - destruct l; reflexivity.
Qed.

Lemma last_slice_map (l : list R) (n : nat) :
  last_slice (map (Rmult k) l) n = map (Rmult k) (last_slice l n).
Proof. unfold last_slice. now rewrite length_map, skipn_map. Qed.

Lemma first_map (l : list R) :
  Py.first (map (Rmult k) l) = (x <- Py.first l ;; ret (k * x)).
Proof. destruct l; reflexivity. Qed.

Lemma last_map (l : list R) :
  Py.last (map (Rmult k) l) = (x <- Py.last l ;; ret (k * x)).
Proof.
  induction l as [|a l IH]; [reflexivity|].
  destruct l as [|b l]; [reflexivity|].
  change (Py.last (map (Rmult k) (a :: b :: l)))
    with (Py.last (map (Rmult k) (b :: l))).
  rewrite IH. reflexivity.
Qed.

Lemma List_last_map (l : list R) :
  List.last (map (Rmult k) l) 0 = k * List.last l 0.
Proof.
  induction l as [|a l IH]; [cbn; lra|].
  destruct l as [|b l]; [reflexivity|].
  change (List.last (map (Rmult k) (a :: b :: l)) 0)
    with (List.last (map (Rmult k) (b :: l)) 0).
  rewrite IH. reflexivity.
Qed.

(** The growth estimate does not depend on the unit. *)
Lemma growth_rate_scale (historical_fcf : list R) :
  calculate_historical_growth_rate (map (Rmult k) historical_fcf)
  = calculate_historical_growth_rate historical_fcf.
Proof.
  unfold calculate_historical_growth_rate.
  replace (len (map (Rmult k) historical_fcf)) with (len historical_fcf)
    by (unfold len; now rewrite length_map).
  destruct (len historical_fcf <? 2)%Z; [reflexivity|].
  rewrite last_slice_map, first_map, last_map, adjacent_map.
  replace (len (map (Rmult k) (last_slice historical_fcf 5)))
    with (len (last_slice historical_fcf 5))
    by (unfold len; now rewrite length_map).
  destruct (Py.first (last_slice historical_fcf 5)) as [f|]; cbn [bind ret];
    [|reflexivity].
  destruct (Py.last (last_slice historical_fcf 5)) as [l|]; cbn [bind ret];
    [|reflexivity].
  rewrite !float_gt_scale, truediv_scale, yoy_loop_scale. reflexivity.
Qed.

(** Nor does the cost of capital. *)
Lemma calculate_wacc_scale
    (beta market_cap total_debt interest_expense tax_rate rf erp : R) :
  calculate_wacc beta (k * market_cap) (k * total_debt) (k * interest_expense)
    tax_rate rf erp
  = calculate_wacc beta market_cap total_debt interest_expense tax_rate rf erp.
Proof.
  unfold calculate_wacc.
  replace (k * market_cap + k * total_debt) with (k * (market_cap + total_debt))
    by lra.
  now rewrite !float_gt_scale, !truediv_scale, float_le_scale.
Qed.

Lemma recovery_growth_scale (base_fcf growth_rate : R) :
  recovery_growth (k * base_fcf) growth_rate = recovery_growth base_fcf growth_rate.
Proof. unfold recovery_growth. now rewrite float_lt_scale. Qed.

Lemma projection_scale (years : Z) (g L : R) (ts : list Z) :
  forall current_fcf,
    projection ts years g L (k * current_fcf)
    = map (Rmult k) (projection ts years g L current_fcf).
Proof.
  induction ts as [|t rest IH]; intros c; cbn [projection map]; [reflexivity|].
  rewrite <- IH. rewrite !Rmult_assoc. reflexivity.
Qed.

Lemma enterprise_value_scale (base_fcf growth_rate wacc : R) :
  enterprise_value (k * base_fcf) growth_rate wacc
  = k * enterprise_value base_fcf growth_rate wacc.
Proof.
  unfold enterprise_value. cbv zeta.
  rewrite projection_scale, List_last_map, present_values_scale, length_map.
  unfold Rdiv. lra.
Qed.

End Scaling.

Lemma scale_company_history (k : R) (company_data : CompanyData.t) :
  get (CompanyData.historical_fcf (scale_company k company_data)) []
  = map (Rmult k) (get (CompanyData.historical_fcf company_data) []).
Proof.
  unfold scale_company. cbn [CompanyData.historical_fcf].
  destruct (CompanyData.historical_fcf company_data); reflexivity.
Qed.

(** X18.  The valuation does not depend on the unit of the amounts: for a
    positive beta and [k > 0], multiplying the FCF history, the market
    capitalisation, the debt, the interest expense and the share count by
    [k] leaves "no result" a "no result", and leaves the intrinsic value per
    share, the WACC and the growth rate of a valuation unchanged. *)
Theorem intrinsic_value_unit_invariant (k : R) (company_data : CompanyData.t) :
  0 < k -> 0 < CompanyData.beta company_data ->
  (calculate_intrinsic_value company_data = Ok None ->
   calculate_intrinsic_value (scale_company k company_data) = Ok None)
  /\ (forall valuation,
        calculate_intrinsic_value company_data = Ok (Some valuation) ->
        exists scaled,
          calculate_intrinsic_value (scale_company k company_data)
          = Ok (Some scaled)
          /\ Valuation.intrinsic_value scaled = Valuation.intrinsic_value valuation
          /\ Valuation.wacc scaled = Valuation.wacc valuation
          /\ Valuation.fcf_growth_rate scaled = Valuation.fcf_growth_rate valuation).
Proof.
  intros Hk Hbeta.
  pose proof (scale_company_history k company_data) as Hh.
  set (h := get (CompanyData.historical_fcf company_data) []) in *.
  destruct (list_eq_dec Req_dec_T h []) as [Hnil | Hne].
  { split.
    - intros _. apply intrinsic_value_empty. rewrite Hh, Hnil. reflexivity.
    - intros v Hv. rewrite intrinsic_value_empty in Hv by exact Hnil. discriminate. }
  destruct (Req_dec_T (List.last h 0) 0) as [Hz | Hnz].
  { split.
    - intros _. apply intrinsic_value_zero_base.
      rewrite Hh, List_last_map, Hz. lra.
    - intros v Hv. rewrite intrinsic_value_zero_base in Hv by exact Hz.
      discriminate. }
  destruct (intrinsic_value_cases company_data Hne Hnz)
    as (g & w & Hg & Hw & _ & Hreturns & Hrun).
  destruct (intrinsic_value_cases (scale_company k company_data))
    as (g' & w' & Hg' & Hw' & _ & _ & Hrun').
  { rewrite Hh. intros Hmap. apply Hne.
    destruct h; [reflexivity | discriminate]. }
  { rewrite Hh, List_last_map. nra. }
  rewrite Hh, growth_rate_scale in Hg' by exact Hk.
  fold h in Hg. rewrite Hg in Hg'. injection Hg' as <-.
  unfold scale_company in Hw'.
  cbn [CompanyData.beta CompanyData.market_cap CompanyData.total_debt
       CompanyData.interest_expense CompanyData.tax_rate] in Hw'.
  rewrite calculate_wacc_scale in Hw' by exact Hk.
  rewrite Hw in Hw'. injection Hw' as <-.
  assert (Hin : (exists e, calculate_intrinsic_value company_data = Raise e)
                \/ in_float_range ((1 + w) ^ 7)).
  { destruct (calculate_intrinsic_value company_data) as [answer|e];
      [right; now apply (Hreturns answer) | left; now exists e]. }
  destruct Hin as [[e He] | Hin].
  { rewrite He. split; [discriminate | intros v Hv; discriminate]. }
  destruct (Hrun Hin) as [Hfail Hsome]. destruct (Hrun' Hin) as [Hfail' Hsome'].
  clear Hrun Hrun'. rename Hsome into Hrun. rename Hsome' into Hrun'.
  destruct (Rle_dec (CompanyData.shares_outstanding company_data) 0) as [Hs | Hs].
  { split.
    - intros _. apply Hfail'. unfold scale_company.
      cbn [CompanyData.shares_outstanding]. nra.
    - intros v Hv. rewrite (Hfail Hs) in Hv. discriminate. }
  assert (Hs' : 0 < CompanyData.shares_outstanding company_data) by lra.
  specialize (Hrun Hs'). cbv zeta in Hrun.
  assert (Hks : 0 < CompanyData.shares_outstanding (scale_company k company_data)).
  { unfold scale_company. cbn [CompanyData.shares_outstanding]. nra. }
  specialize (Hrun' Hks). cbv zeta in Hrun'.
  split.
  - intros Hnone. fold h in Hrun. rewrite Hrun in Hnone. discriminate.
  - intros v Hv. fold h in Hrun. rewrite Hrun in Hv. injection Hv as <-.
    eexists. split; [exact Hrun'|].
    cbn [Valuation.intrinsic_value Valuation.wacc Valuation.fcf_growth_rate].
    rewrite Hh, List_last_map, recovery_growth_scale, enterprise_value_scale
      by exact Hk.
    unfold scale_company.
    cbn [CompanyData.total_debt CompanyData.shares_outstanding].
    split; [|split; reflexivity].
    f_equal. field. lra.
Qed.

Lemma sample_valuation_exists (historical_fcf : list R) :
  historical_fcf <> [] -> List.last historical_fcf 0 <> 0 ->
  exists valuation,
    calculate_intrinsic_value (sample_data historical_fcf 150 1000000000)
    = Ok (Some valuation).
Proof.
  intros Hne Hbase.
  destruct (intrinsic_value_run (sample_data historical_fcf 150 1000000000))
    as (g & w & _ & _ & _ & _ & Hrun); try assumption.
  - cbn. lra.
  - left. cbn. lra.
  - eexists. apply Hrun. cbn. lra.
Qed.

Lemma intrinsic_value_unit_invariant_witness :
  let company_data := sample_data [5000000000; 6000000000] 150 1000000000 in
  exists valuation scaled,
    calculate_intrinsic_value company_data = Ok (Some valuation)
    /\ calculate_intrinsic_value (scale_company (1 / 1000) company_data)
       = Ok (Some scaled)
    /\ Valuation.intrinsic_value scaled = Valuation.intrinsic_value valuation
    /\ Valuation.wacc scaled = Valuation.wacc valuation
    /\ Valuation.fcf_growth_rate scaled = Valuation.fcf_growth_rate valuation.
Proof.
  cbv zeta.
  destruct (sample_valuation_exists [5000000000; 6000000000]) as (v & Hv);
    [discriminate | cbn; lra |].
  destruct (intrinsic_value_unit_invariant (1 / 1000)
              (sample_data [5000000000; 6000000000] 150 1000000000))
    as [_ Hsome]; [lra | cbn; lra |].
  destruct (Hsome v Hv) as (scaled & Hs & Heq).
  exists v, scaled. split; [exact Hv|]. split; [exact Hs | exact Heq].
Defined.

Lemma intrinsic_value_reported_rates_witness :
  exists valuation growth wacc,
    calculate_intrinsic_value
      (sample_data [5000000000; 6000000000] 150 1000000000) = Ok (Some valuation)
    /\ Valuation.fcf_growth_rate valuation = Some growth
    /\ Valuation.wacc valuation = Some wacc
    /\ -0.20 <= growth <= 0.30
    /\ 0.04 <= wacc <= 0.25.
Proof.
  destruct (sample_valuation_exists [5000000000; 6000000000]) as (v & Hv);
    [discriminate | cbn; lra |].
  destruct (intrinsic_value_reported_rates _ v Hv)
    as (growth & wacc & Hg & Hw & Hrange & _ & Hwacc).
  exists v, growth, wacc.
  split; [exact Hv|]. split; [exact Hg|]. split; [exact Hw|].
  split; [exact Hrange|]. apply Hwacc. cbn. lra.
Defined.

(** ** Further properties of [src/valuation.py] *)

(** X19.  The thresholds of [generate_signal] are symmetric: an upside is a
    Buy exactly when the opposite upside is a Sell, and a Hold exactly when
    the opposite is a Hold.  The signal is monotone: a larger upside than a
    Buy is a Buy, a smaller one than a Sell is a Sell. *)
Theorem generate_signal_symmetric_monotone (upside_pct other : R) :
  (generate_signal upside_pct = "Buy"%string
   <-> generate_signal (- upside_pct) = "Sell"%string)
  /\ (generate_signal upside_pct = "Hold"%string
      <-> generate_signal (- upside_pct) = "Hold"%string)
  /\ (upside_pct <= other ->
      (generate_signal upside_pct = "Buy"%string ->
       generate_signal other = "Buy"%string)
      /\ (generate_signal other = "Sell"%string ->
          generate_signal upside_pct = "Sell"%string)).
Proof.
  destruct (generate_signal_cases upside_pct) as (Hb & Hs & Hh).
  destruct (generate_signal_cases (- upside_pct)) as (Hb' & Hs' & Hh').
  destruct (generate_signal_cases other) as (Hbo & Hso & Hho).
  split; [|split].
  - rewrite Hb, Hs'. split; intros; lra.
  - rewrite Hh, Hh'. split; intros; lra.
  - intros Hle. split.
    + rewrite Hb, Hbo. intros; lra.
    + rewrite Hso, Hs. intros; lra.
Qed.

Lemma generate_signal_symmetric_monotone_witness :
  (generate_signal 0.05 = "Buy"%string -> generate_signal 0.20 = "Buy"%string)
  /\ (generate_signal 0.20 = "Sell"%string -> generate_signal 0.05 = "Sell"%string).
Proof. apply (generate_signal_symmetric_monotone 0.05 0.20). lra. Defined.

Lemma build_valuation_row_some (valuation : Valuation.t) :
  0 < Valuation.current_price valuation ->
  let current_price := Valuation.current_price valuation in
  let intrinsic_value := Valuation.intrinsic_value valuation in
  let upside_pct := (intrinsic_value - current_price) / current_price in
  build_valuation_row valuation
  = Ok (Some {|
      Row.Ticker := Valuation.ticker valuation;
      Row.Company := Valuation.name valuation;
      Row.Sector := Valuation.sector valuation;
      Row.Current_Price := round current_price 2;
      Row.Intrinsic_Value := round intrinsic_value 2;
      Row.Pct_Upside_Downside := round (upside_pct * 100) 1;
      Row.Valuation_Signal := generate_signal upside_pct;
      Row.WACC_Pct := round (get (Valuation.wacc valuation) 0 * 100) 2;
      Row.FCF_Growth_Rate_Pct :=
        round (get (Valuation.fcf_growth_rate valuation) 0 * 100) 2
    |}).
Proof.
  intros Hp. cbv zeta. unfold build_valuation_row.
  decide_cmp (float_le (Valuation.current_price valuation) 0).
  now rewrite truediv_ok by lra.
Qed.

Lemma build_valuation_row_none (valuation : Valuation.t) :
  Valuation.current_price valuation <= 0 ->
  build_valuation_row valuation = Ok None.
Proof.
  intros Hp. unfold build_valuation_row.
  decide_cmp (float_le (Valuation.current_price valuation) 0). reflexivity.
Qed.

(** X20.  For a positive price, the row's signal follows the ratio of the
    intrinsic value to the price.  The source compares the computed upside
    [(intrinsic_value - current_price) / current_price], which carries the
    rounding of a subtraction and a division, so the statement leaves a
    relative margin of [1e-9] around the two thresholds: the signal is
    "Buy" from [1.150000001 * current_price] up and only from
    [1.149999999 * current_price] up, "Sell" down from
    [0.849999999 * current_price] and only down from
    [0.850000001 * current_price], and "Hold" strictly between
    [0.850000001] and [1.149999999] times the price and only strictly
    between [0.849999999] and [1.150000001] times the price. *)
Theorem build_valuation_row_signal_by_price (valuation : Valuation.t) :
  0 < Valuation.current_price valuation ->
  let price := Valuation.current_price valuation in
  let value := Valuation.intrinsic_value valuation in
  exists row,
    build_valuation_row valuation = Ok (Some row)
    /\ (1.150000001 * price <= value -> Row.Valuation_Signal row = "Buy"%string)
    /\ (Row.Valuation_Signal row = "Buy"%string -> 1.149999999 * price <= value)
    /\ (value <= 0.849999999 * price -> Row.Valuation_Signal row = "Sell"%string)
    /\ (Row.Valuation_Signal row = "Sell"%string -> value <= 0.850000001 * price)
    /\ (0.850000001 * price < value < 1.149999999 * price ->
        Row.Valuation_Signal row = "Hold"%string)
    /\ (Row.Valuation_Signal row = "Hold"%string ->
        0.849999999 * price < value < 1.150000001 * price).
Proof.
  intros Hp. rewrite build_valuation_row_some by assumption. cbv zeta.
  eexists. split; [reflexivity|]. cbn [Row.Valuation_Signal].
  set (p := Valuation.current_price valuation) in *.
  set (v := Valuation.intrinsic_value valuation) in *.
  destruct (generate_signal_cases ((v - p) / p)) as (Hb & Hs & Hh).
  assert (Hi : 0 < / p) by now apply Rinv_0_lt_compat.
  assert (Hu : (v - p) / p * p = v - p) by (field; lra).
  rewrite Hb, Hs, Hh.
  repeat split; intros; nra.
Qed.

Lemma build_valuation_row_signal_by_price_witness :
  exists row,
    build_valuation_row (sample_valuation 100 200) = Ok (Some row)
    /\ Row.Valuation_Signal row = "Buy"%string.
Proof.
  destruct (build_valuation_row_signal_by_price (sample_valuation 100 200))
    as (row & Hrow & Hbuy & _); [cbn; lra|].
  exists row. split; [exact Hrow|]. apply Hbuy. cbn. lra.
Defined.

Lemma round_idempotent (x : R) (ndigits : nat) :
  round (round x ndigits) ndigits = round x ndigits.
Proof. unfold round at 2 3. apply round_exact. Qed.

Lemma round_percent (x : R) :
  round (round x 4 * 100) 2 = round x 4 * 100.
Proof.
  unfold round at 2 3.
  replace (IZR (round_half_even (x * 10 ^ 4)) / 10 ^ 4 * 100)
    with (IZR (round_half_even (x * 10 ^ 4)) / 10 ^ 2) by (simpl; field).
  apply round_exact.
Qed.

(** X21.  A row built from a valuation of [calculate_intrinsic_value]
    shows the valuation's own numbers: the second rounding changes nothing.
    "Intrinsic Value ($)" equals the valuation's intrinsic value, "WACC (%)"
    and "FCF Growth Rate (%)" are exactly 100 times the valuation's WACC
    and growth rate, and ticker, name and sector are copied. *)
Theorem build_valuation_row_shows_valuation (company_data : CompanyData.t)
    (valuation : Valuation.t) (row : Row.t) :
  calculate_intrinsic_value company_data = Ok (Some valuation) ->
  build_valuation_row valuation = Ok (Some row) ->
  Row.Intrinsic_Value row = Valuation.intrinsic_value valuation
  /\ Valuation.wacc valuation = Some (Row.WACC_Pct row / 100)
  /\ Valuation.fcf_growth_rate valuation = Some (Row.FCF_Growth_Rate_Pct row / 100)
  /\ Row.Ticker row = Valuation.ticker valuation
  /\ Row.Company row = Valuation.name valuation
  /\ Row.Sector row = Valuation.sector valuation.
Proof.
  intros Hv Hrow.
  destruct (Rle_dec (Valuation.current_price valuation) 0) as [Hp | Hp].
  { rewrite build_valuation_row_none in Hrow by assumption. discriminate. }
  rewrite build_valuation_row_some in Hrow by lra. cbv zeta in Hrow.
  injection Hrow as <-.
  destruct (intrinsic_value_some_inv company_data valuation Hv)
    as (g & w & x & _ & _ & _ & _ & _ & ->).
  cbn [Row.Intrinsic_Value Row.WACC_Pct Row.FCF_Growth_Rate_Pct Row.Ticker
       Row.Company Row.Sector Valuation.intrinsic_value Valuation.wacc
       Valuation.fcf_growth_rate Valuation.ticker Valuation.name
       Valuation.sector get].
  rewrite round_idempotent, !round_percent.
  repeat split; apply f_equal; field.
Qed.

Lemma build_valuation_row_shows_valuation_witness :
  exists valuation row,
    calculate_intrinsic_value
      (sample_data [5000000000; 6000000000] 150 1000000000) = Ok (Some valuation)
    /\ build_valuation_row valuation = Ok (Some row)
    /\ Row.Intrinsic_Value row = Valuation.intrinsic_value valuation
    /\ Valuation.wacc valuation = Some (Row.WACC_Pct row / 100).
Proof.
  destruct (intrinsic_value_run
              (sample_data [5000000000; 6000000000] 150 1000000000))
    as (g & w & _ & _ & _ & _ & Hrun);
    [discriminate | cbn; lra | cbn; lra | left; cbn; lra |].
  specialize (Hrun ltac:(cbn; lra)). cbv zeta in Hrun.
  eexists. eexists. split; [exact Hrun|].
  split; [apply build_valuation_row_some; cbn; lra|].
  cbv zeta.
  match goal with
  | |- Row.Intrinsic_Value ?r = Valuation.intrinsic_value ?v /\ _ =>
      destruct (build_valuation_row_shows_valuation
                  (sample_data [5000000000; 6000000000] 150 1000000000) v r)
        as (H1 & H2 & _)
  end.
  - exact Hrun.
  - apply build_valuation_row_some. cbn. lra.
  - split; [exact H1 | exact H2].
Defined.

Section RunValuation.

Lemma build_valuation_row_total (valuation : Valuation.t) :
  exists row, build_valuation_row valuation = Ok row.
Proof.
  destruct (Rle_dec (Valuation.current_price valuation) 0) as [Hp | Hp].
  - rewrite build_valuation_row_none by assumption. eexists; reflexivity.
  - rewrite build_valuation_row_some by lra. eexists; reflexivity.
Qed.

Lemma run_valuation_rows_cons (company_data : CompanyData.t)
    (rest : list CompanyData.t) (rows : list Row.t) :
  run_valuation_rows (company_data :: rest) rows
  = (added <- company_rows company_data ;;
     run_valuation_rows rest (rows ++ added)).
Proof.
  cbn [run_valuation_rows]. unfold company_rows.
  destruct (calculate_intrinsic_value company_data) as [[v|]|]; cbn [bind ret];
    [| now rewrite app_nil_r | reflexivity].
  destruct (build_valuation_row v) as [[row|]|]; cbn [bind ret];
    [reflexivity | now rewrite app_nil_r | reflexivity].
Qed.

Lemma company_rows_well_formed (company_data : CompanyData.t) :
  0 < CompanyData.beta company_data ->
  0 < CompanyData.market_cap company_data + CompanyData.total_debt company_data
  \/ CompanyData.beta company_data <= 10 ^ 40 ->
  exists added,
    company_rows company_data = Ok added
    /\ map Row.Ticker added
       = if yields_row company_data
         then [get (CompanyData.ticker company_data) "UNKNOWN"%string]
         else [].
Proof.
  intros Hbeta Hbound. unfold company_rows, yields_row.
  destruct (get (CompanyData.historical_fcf company_data) []) as [|x l] eqn:Hh.
  { rewrite intrinsic_value_empty by exact Hh. eexists; split; reflexivity. }
  destruct (float_eq (List.last (x :: l) 0) 0) eqn:Hbase; cbn [negb andb].
  { apply float_eq_iff in Hbase.
    rewrite intrinsic_value_zero_base by (rewrite Hh; exact Hbase).
    eexists; split; reflexivity. }
  apply float_eq_false_iff in Hbase.
  destruct (intrinsic_value_run company_data) as (g & w & _ & _ & _ & Hfail & Hrun);
    rewrite ?Hh; try assumption; [discriminate|].
  destruct (float_gt (CompanyData.shares_outstanding company_data) 0) eqn:Hs;
    cbn [andb].
  - apply float_gt_iff in Hs. specialize (Hrun Hs). cbv zeta in Hrun.
    rewrite Hrun. cbn [bind].
    destruct (float_gt (CompanyData.current_price company_data) 0) eqn:Hp.
    + apply float_gt_iff in Hp.
      rewrite build_valuation_row_some by (cbn; exact Hp). cbn [bind ret].
      eexists; split; reflexivity.
    + apply float_gt_false_iff in Hp.
      rewrite build_valuation_row_none by (cbn; exact Hp). cbn [bind ret].
      eexists; split; reflexivity.
  - apply float_gt_false_iff in Hs. rewrite (Hfail Hs). cbn [bind ret].
    eexists; split; reflexivity.
Qed.

Lemma run_valuation_rows_well_formed (company_data_list : list CompanyData.t) :
  Forall (fun d => 0 < CompanyData.beta d
                   /\ (0 < CompanyData.market_cap d + CompanyData.total_debt d
                       \/ CompanyData.beta d <= 10 ^ 40))
         company_data_list ->
  forall rows,
  exists added,
    run_valuation_rows company_data_list rows = Ok (rows ++ added)
    /\ map Row.Ticker added
       = map (fun d => get (CompanyData.ticker d) "UNKNOWN"%string)
             (filter yields_row company_data_list).
Proof.
  induction 1 as [|d rest [Hd Hbound] _ IH]; intros rows.
  - exists []. split; [cbn; now rewrite app_nil_r | reflexivity].
  - rewrite run_valuation_rows_cons.
    destruct (company_rows_well_formed d Hd Hbound) as (added & -> & Hadded).
    cbn [bind]. destruct (IH (rows ++ added)) as (more & -> & Hmore).
    exists (added ++ more). split; [now rewrite app_assoc|].
    rewrite map_app, Hadded, Hmore. cbn [filter].
    destruct (yields_row d); reflexivity.
Qed.

End RunValuation.

(** X22.  On a list of records with positive beta, as [fetch_sp500_data]
    returns them, each with positive capital or a beta of at most [1e40]
    (discount factors within the float range), the loop of [run_valuation]
    raises nothing and yields one row, in input order, for exactly the
    companies with a non-empty history ending on a nonzero value, a
    positive share count and a positive price; so never more rows than
    companies. *)
Theorem run_valuation_rows_of_fetched (company_data_list : list CompanyData.t) :
  Forall (fun d => 0 < CompanyData.beta d
                   /\ (0 < CompanyData.market_cap d + CompanyData.total_debt d
                       \/ CompanyData.beta d <= 10 ^ 40))
         company_data_list ->
  exists rows,
    run_valuation_rows company_data_list [] = Ok rows
    /\ map Row.Ticker rows
       = map (fun d => get (CompanyData.ticker d) "UNKNOWN"%string)
             (filter yields_row company_data_list)
    /\ (List.length rows <= List.length company_data_list)%nat.
Proof.
  intros Hwf.
  destruct (run_valuation_rows_well_formed company_data_list Hwf [])
    as (rows & Hrun & Htickers).
  exists rows. split; [exact Hrun|]. split; [exact Htickers|].
  rewrite <- (length_map Row.Ticker), Htickers, length_map.
  apply filter_length_le.
Qed.

Lemma run_valuation_rows_of_fetched_witness :
  let company_data_list :=
    [sample_data [5000000000; 6000000000] 150 1000000000;
     sample_data [5000000000; 0] 150 1000000000] in
  exists rows,
    run_valuation_rows company_data_list [] = Ok rows
    /\ map Row.Ticker rows
       = map (fun d => get (CompanyData.ticker d) "UNKNOWN"%string)
             (filter yields_row company_data_list)
    /\ (List.length rows <= List.length company_data_list)%nat.
Proof.
  apply (run_valuation_rows_of_fetched
           [sample_data [5000000000; 6000000000] 150 1000000000;
            sample_data [5000000000; 0] 150 1000000000]).
  repeat constructor; try (left; cbn; lra); cbn; lra.
Defined.

Lemma company_rows_raises (company_data : CompanyData.t) (e : exn) :
  company_rows company_data = Raise e
  <-> calculate_intrinsic_value company_data = Raise e.
Proof.
  unfold company_rows.
  destruct (calculate_intrinsic_value company_data) as [[v|]|e']; cbn [bind ret].
  - destruct (build_valuation_row_total v) as ([row|] & ->); cbn [bind ret];
      split; discriminate.
  - split; discriminate.
  - split; intros H; injection H as ->; reflexivity.
Qed.

Lemma run_valuation_rows_raises (company_data_list : list CompanyData.t) :
  forall rows,
    (exists e, run_valuation_rows company_data_list rows = Raise e)
    <-> Exists (fun d => exists e, calculate_intrinsic_value d = Raise e)
               company_data_list.
Proof.
  induction company_data_list as [|d rest IH]; intros rows.
  - cbn. split; [intros [e He]; discriminate | intros H; inversion H].
  - rewrite run_valuation_rows_cons, Exists_cons.
    destruct (company_rows d) as [added|e] eqn:Hd; cbn [bind].
    + rewrite IH. split; [now right|].
      intros [[e He] | H]; [|exact H].
      apply company_rows_raises in He. rewrite Hd in He. discriminate.
    + split; [|intros _; now exists e].
      intros _. left. exists e. now apply company_rows_raises.
Qed.

(** X23.  The loop of [run_valuation] has no [try]: it raises exactly when
    [calculate_intrinsic_value] raises for some company of the list, and
    then no row of any company is returned.  One record without capital
    and with a beta of [1e46] is enough: its discount factor overflows. *)
Theorem run_valuation_rows_aborts (company_data_list : list CompanyData.t) :
  (exists e, run_valuation_rows company_data_list [] = Raise e)
  <-> Exists (fun d => exists e, calculate_intrinsic_value d = Raise e)
             company_data_list.
Proof. apply run_valuation_rows_raises. Qed.

Lemma company_rows_signals (company_data : CompanyData.t) (added : list Row.t) :
  company_rows company_data = Ok added ->
  Forall (fun row => exists upside_pct,
            Row.Valuation_Signal row = generate_signal upside_pct) added.
Proof.
  unfold company_rows.
  destruct (calculate_intrinsic_value company_data) as [[v|]|]; cbn [bind ret];
    [| intros H; injection H as <-; constructor | discriminate].
  destruct (Rle_dec (Valuation.current_price v) 0) as [Hp | Hp].
  - rewrite build_valuation_row_none by assumption. cbn [bind ret].
    intros H; injection H as <-; constructor.
  - rewrite build_valuation_row_some by lra. cbn [bind ret].
    intros H; injection H as <-. constructor; [|constructor].
    eexists. reflexivity.
Qed.

Lemma run_valuation_rows_signals (company_data_list : list CompanyData.t) :
  forall rows result_rows,
    Forall (fun row => exists upside_pct,
              Row.Valuation_Signal row = generate_signal upside_pct) rows ->
    run_valuation_rows company_data_list rows = Ok result_rows ->
    Forall (fun row => exists upside_pct,
              Row.Valuation_Signal row = generate_signal upside_pct) result_rows.
Proof.
  induction company_data_list as [|d rest IH]; intros rows result_rows Hrows.
  - cbn. intros H; injection H as <-. exact Hrows.
  - rewrite run_valuation_rows_cons.
    destruct (company_rows d) as [added|] eqn:Hd; cbn [bind]; [|discriminate].
    apply IH. apply Forall_app. split; [exact Hrows|].
    now apply (company_rows_signals d).
Qed.

Lemma signal_counts_add_up (rows : list Row.t) :
  Forall (fun row => exists upside_pct,
            Row.Valuation_Signal row = generate_signal upside_pct) rows ->
  (signal_count "Buy" rows + signal_count "Hold" rows + signal_count "Sell" rows
   = List.length rows)%nat.
Proof.
  unfold signal_count.
  induction 1 as [|row rest [u Hu] _ IH]; [reflexivity|].
  cbn [filter List.length]. rewrite Hu.
  unfold generate_signal.
  destruct (float_ge u BUY_THRESHOLD); [cbn; lia|].
  destruct (float_le u SELL_THRESHOLD); cbn; lia.
Qed.

(** X24.  The three counts that [run_valuation] logs and [print_summary]
    prints add up to the number of rows: every row of the loop is a Buy, a
    Hold or a Sell. *)
Theorem run_valuation_signal_counts (company_data_list : list CompanyData.t)
    (rows : list Row.t) :
  run_valuation_rows company_data_list [] = Ok rows ->
  (signal_count "Buy" rows + signal_count "Hold" rows + signal_count "Sell" rows
   = List.length rows)%nat.
Proof.
  intros Hrun. apply signal_counts_add_up.
  apply (run_valuation_rows_signals company_data_list [] rows); [constructor|].
  exact Hrun.
Qed.

Lemma run_valuation_rows_aborts_witness :
  exists e,
    run_valuation_rows
      [sample_data [5000000000; 6000000000] 150 1000000000;
       {| CompanyData.ticker := Some "TEST"%string;
          CompanyData.name := None;
          CompanyData.sector := None;
          CompanyData.current_price := 150;
          CompanyData.shares_outstanding := 1000000000;
          CompanyData.historical_fcf := Some [5000000000; 6000000000];
          CompanyData.beta := 10 ^ 46;
          CompanyData.market_cap := 0;
          CompanyData.total_debt := 0;
          CompanyData.interest_expense := 0;
          CompanyData.tax_rate := 0.21 |}] [] = Raise e.
Proof.
  apply run_valuation_rows_aborts.
  apply Exists_cons_tl, Exists_cons_hd.
  exists OverflowError. apply intrinsic_value_overflow.
  - discriminate.
  - cbn. lra.
  - cbn. lra.
  - cbn [CompanyData.beta]. lra.
Defined.

Lemma run_valuation_signal_counts_witness :
  exists rows,
    run_valuation_rows
      [sample_data [5000000000; 6000000000] 150 1000000000;
       sample_data [5000000000; 0] 150 1000000000] [] = Ok rows
    /\ (signal_count "Buy" rows + signal_count "Hold" rows
        + signal_count "Sell" rows = List.length rows)%nat.
Proof.
  destruct (run_valuation_rows_well_formed
              [sample_data [5000000000; 6000000000] 150 1000000000;
               sample_data [5000000000; 0] 150 1000000000]) with (rows := @nil Row.t)
    as (rows & Hrun & _).
  - repeat constructor; try (left; cbn; lra); cbn; lra.
  - exists rows. split; [exact Hrun|].
    exact (run_valuation_signal_counts _ _ Hrun).
Defined.

(** ** Properties of [src/data_fetcher.py] *)

Section FindRow.

Variable df : Pandas.DataFrame.

Lemma in_index_loc (label : string) :
  Pandas.in_index label df = true <-> Pandas.loc df label <> None.
Proof.
  unfold Pandas.in_index.
  induction df as [|[l row] rest IH]; cbn [existsb Pandas.loc fst].
  - split; [discriminate | congruence].
  - destruct (String.eqb label l); cbn [orb]; [split; [discriminate | reflexivity]|].
    exact IH.
Qed.

Lemma _find_row_none (labels : list string) :
  _find_row df labels = None
  <-> Forall (fun label => Pandas.in_index label df = false) labels.
Proof.
  induction labels as [|label rest IH]; cbn [_find_row].
  - split; [constructor | reflexivity].
  - destruct (Pandas.in_index label df) eqn:Hin.
    + split.
      * intros H. apply in_index_loc in Hin. contradiction.
      * intros H. inversion H; congruence.
    + rewrite IH. split; [now constructor | intros H; now inversion H].
Qed.

Lemma _find_row_skip (before : list string) (labels : list string) :
  Forall (fun label => Pandas.in_index label df = false) before ->
  _find_row df (before ++ labels) = _find_row df labels.
Proof.
  induction 1 as [|label rest Hl _ IH]; [reflexivity|].
  cbn [app _find_row]. now rewrite Hl.
Qed.

End FindRow.

(** X25.  [_find_row] answers [None] exactly when none of the labels is in
    the index of the frame; otherwise it answers the row of the first label
    of the list, in the order of the list, that is in the index: an earlier
    label wins over a later one. *)
Theorem find_row_first_match (df : Pandas.DataFrame) (labels : list string) :
  (_find_row df labels = None
   <-> Forall (fun label => Pandas.in_index label df = false) labels)
  /\ (forall before label after,
        labels = before ++ label :: after ->
        Forall (fun l => Pandas.in_index l df = false) before ->
        Pandas.in_index label df = true ->
        _find_row df labels = Pandas.loc df label
        /\ Pandas.loc df label <> None).
Proof.
  split; [apply _find_row_none|].
  intros before label after -> Hbefore Hin.
  rewrite _find_row_skip by assumption. cbn [_find_row]. rewrite Hin.
  split; [reflexivity | now apply in_index_loc].
Qed.

Lemma find_row_first_match_witness :
  _find_row [("Total Cash From Operating Activities"%string, [Some 1; Some 1])]
    ["Operating Cash Flow"%string; "Total Cash From Operating Activities"%string]
  = Pandas.loc
      [("Total Cash From Operating Activities"%string, [Some 1; Some 1])]
      "Total Cash From Operating Activities"%string
  /\ Pandas.loc
       [("Total Cash From Operating Activities"%string, [Some 1; Some 1])]
       "Total Cash From Operating Activities"%string <> None.
Proof.
  apply (find_row_first_match
           [("Total Cash From Operating Activities"%string, [Some 1; Some 1])]
           ["Operating Cash Flow"%string;
            "Total Cash From Operating Activities"%string])
    with (before := ["Operating Cash Flow"%string]) (after := @nil string).
  - reflexivity.
  - repeat constructor.
  - reflexivity.
Defined.

Lemma tax_rate_cases (income_stmt : option Pandas.DataFrame) :
  exists rate,
    _estimate_tax_rate income_stmt = Ok rate
    /\ 0.10 <= rate <= 0.40
    /\ (income_stmt = None -> rate = 0.21)
    /\ (forall df, income_stmt = Some df ->
          Pandas.empty df = true
          \/ _find_row df ["Tax Provision"; "Income Tax Expense"]%string = None
          \/ _find_row df ["Pretax Income"; "Income Before Tax"]%string = None ->
          rate = 0.21).
Proof.
  unfold _estimate_tax_rate. cbv zeta.
  destruct income_stmt as [df|].
  2:{ eexists. split; [reflexivity|]. split; [lra|]. split; [reflexivity|].
      intros df H. discriminate. }
  destruct (Pandas.empty df) eqn:He.
  { eexists. split; [reflexivity|]. split; [lra|]. split; reflexivity. }
  destruct (_find_row df ["Tax Provision"; "Income Tax Expense"]%string)
    as [tax_row|] eqn:Ht.
  2:{ eexists. split; [reflexivity|]. split; [lra|]. split; reflexivity. }
  destruct (_find_row df ["Pretax Income"; "Income Before Tax"]%string)
    as [pretax_row|] eqn:Hp.
  2:{ eexists. split; [reflexivity|]. split; [lra|]. split; reflexivity. }
  assert (Hno : forall rate df0, Some df = Some df0 ->
            Pandas.empty df0 = true
            \/ _find_row df0 ["Tax Provision"; "Income Tax Expense"]%string = None
            \/ _find_row df0 ["Pretax Income"; "Income Before Tax"]%string = None ->
            rate = 0.21).
  { intros rate df0 H. injection H as <-. rewrite He, Ht, Hp.
    intros [H | [H | H]]; discriminate. }
  destruct (Pandas.first_valid tax_row Some None) as [tax|].
  2:{ eexists. split; [reflexivity|]. split; [lra|].
      split; [discriminate | apply Hno]. }
  destruct (Pandas.first_valid pretax_row Some None) as [pretax|].
  2:{ eexists. split; [reflexivity|]. split; [lra|].
      split; [discriminate | apply Hno]. }
  destruct (float_le pretax 0) eqn:Hpos.
  { eexists. split; [reflexivity|]. split; [lra|].
    split; [discriminate | apply Hno]. }
  apply float_le_false_iff in Hpos.
  rewrite truediv_ok by lra. cbn [bind ret].
  eexists. split; [reflexivity|].
  split; [|split; [discriminate | apply Hno]].
  change (Py.max 0.10 (Py.min 0.40 (tax / pretax)))
    with (_clamp (tax / pretax) 0.10 0.40).
  apply clamp_bounds. lra.
Qed.

(** X26.  [_estimate_tax_rate] raises nothing (its division is guarded by
    [pretax > 0]) and its result always lies in [0.10, 0.40]; it is the
    default 0.21 when the income statement is missing or empty, or has no
    tax row or no pre-tax income row. *)
Theorem estimate_tax_rate_range (income_stmt : option Pandas.DataFrame) :
  exists rate,
    _estimate_tax_rate income_stmt = Ok rate
    /\ 0.10 <= rate <= 0.40
    /\ (income_stmt = None -> rate = 0.21)
    /\ (forall df, income_stmt = Some df ->
          Pandas.empty df = true
          \/ _find_row df ["Tax Provision"; "Income Tax Expense"]%string = None
          \/ _find_row df ["Pretax Income"; "Income Before Tax"]%string = None ->
          rate = 0.21).
Proof. apply tax_rate_cases. Qed.

Lemma estimate_tax_rate_range_witness :
  exists rate, _estimate_tax_rate None = Ok rate /\ rate = 0.21.
Proof.
  destruct (estimate_tax_rate_range None) as (rate & Hrate & _ & Hnone & _).
  exists rate. split; [exact Hrate | now apply Hnone].
Defined.

Lemma nth_map_combine (f : R * R -> R) (a b : list R) :
  forall i, (i < List.length (combine a b))%nat ->
    nth i (map f (combine a b)) 0 = f (nth i a 0, nth i b 0).
Proof.
  revert b. induction a as [|x a IH]; intros [|y b] i Hi; cbn in Hi; try lia.
  destruct i as [|i]; [reflexivity|].
  cbn [combine map nth]. apply IH. lia.
Qed.

(** X27.  [_extract_free_cash_flows] answers the empty list when the frame
    has no operating-cash-flow row; without a capital-expenditure row, the
    non-NaN operating cash flows, oldest first; with one, as many values as
    the shorter of the two rows has non-NaN entries, each being the
    operating cash flow minus the absolute value of the capital
    expenditure at the same position from the oldest, so never above the
    operating cash flow. *)
Theorem extract_free_cash_flows_spec (cash_flow_df : Pandas.DataFrame) :
  let ocf_row :=
    _find_row cash_flow_df
      ["Operating Cash Flow"; "Total Cash From Operating Activities";
       "Cash From Operating Activities"]%string in
  let capex_row :=
    _find_row cash_flow_df
      ["Capital Expenditure"; "Capital Expenditures"; "Purchase Of PPE";
       "Purchases Of Property Plant And Equipment"]%string in
  let fcf := _extract_free_cash_flows cash_flow_df in
  (ocf_row = None -> fcf = [])
  /\ (forall ocf, ocf_row = Some ocf -> capex_row = None ->
        fcf = rev (Pandas.dropna ocf))
  /\ (forall ocf capex, ocf_row = Some ocf -> capex_row = Some capex ->
        List.length fcf
        = Nat.min (List.length (Pandas.dropna ocf))
                  (List.length (Pandas.dropna capex))
        /\ forall i, (i < List.length fcf)%nat ->
             nth i fcf 0
             = nth i (rev (Pandas.dropna ocf)) 0
               - Rabs (nth i (rev (Pandas.dropna capex)) 0)
             /\ nth i fcf 0 <= nth i (rev (Pandas.dropna ocf)) 0).
Proof.
  cbv zeta. unfold _extract_free_cash_flows. cbv zeta.
  destruct (_find_row cash_flow_df
              ["Operating Cash Flow"; "Total Cash From Operating Activities";
               "Cash From Operating Activities"]%string) as [ocf|].
  2:{ split; [reflexivity|]. split; intros; discriminate. }
  destruct (_find_row cash_flow_df
              ["Capital Expenditure"; "Capital Expenditures"; "Purchase Of PPE";
               "Purchases Of Property Plant And Equipment"]%string) as [capex|].
  - split; [discriminate|]. split; [intros; discriminate|].
    intros ocf' capex' H1 H2. injection H1 as <-. injection H2 as <-.
    assert (Hlen : List.length
                     (map (fun '(o, c) => o - Rabs c)
                        (combine (rev (Pandas.dropna ocf))
                           (rev (Pandas.dropna capex))))
                   = Nat.min (List.length (Pandas.dropna ocf))
                             (List.length (Pandas.dropna capex)))
      by now rewrite length_map, length_combine, !length_rev.
    split; [exact Hlen|].
    intros i Hi. rewrite length_map in Hi.
    rewrite nth_map_combine by exact Hi.
    split; [reflexivity|].
    pose proof (Rabs_pos (nth i (rev (Pandas.dropna capex)) 0)). lra.
  - split; [discriminate|]. split; [|intros; discriminate].
    intros ocf' H _. now injection H as <-.
Qed.

Lemma extract_free_cash_flows_spec_witness :
  _extract_free_cash_flows
    [("Operating Cash Flow"%string, [Some 120; Some 110; Some 100])]
  = rev (Pandas.dropna [Some 120; Some 110; Some 100]).
Proof.
  destruct (extract_free_cash_flows_spec
              [("Operating Cash Flow"%string, [Some 120; Some 110; Some 100])])
    as (_ & Hocf & _).
  apply Hocf; reflexivity.
Defined.

Section Fetch.

Lemma py_or_positive (a b : option R) (v : R) :
  py_or a b = Some v -> float_le v 0 = false -> 0 < v.
Proof. intros _ H. now apply float_le_false_iff in H. Qed.

Lemma interest_expense_nonneg (income_stmt : option Pandas.DataFrame) :
  0 <= _extract_interest_expense income_stmt.
Proof.
  unfold _extract_interest_expense.
  destruct income_stmt as [df|]; [|lra].
  destruct (Pandas.empty df); [lra|].
  destruct (_find_row df _); [apply Rabs_pos | lra].
Qed.

Lemma fetched_beta_positive (beta : option R) :
  0 < (if float_le (or_else beta 1) 0 then 1 else or_else beta 1).
Proof.
  destruct (float_le (or_else beta 1) 0) eqn:H; [lra|].
  now apply float_le_false_iff in H.
Qed.

(** What every record returned by [fetch_company_data] satisfies. *)
Lemma fetch_company_data_inv (ticker : string) (stock : Stock.t)
    (company_data : CompanyData.t) :
  fetch_company_data ticker stock = Some company_data ->
  CompanyData.ticker company_data = Some ticker
  /\ CompanyData.name company_data
     = Some (get (Stock.longName stock) (Some ticker))
  /\ CompanyData.sector company_data
     = Some (get (Stock.sector stock) (Some "Unknown"%string))
  /\ 0 < CompanyData.current_price company_data
  /\ 0 < CompanyData.shares_outstanding company_data
  /\ (exists historical_fcf,
        CompanyData.historical_fcf company_data = Some historical_fcf
        /\ (2 <= List.length historical_fcf)%nat)
  /\ 0 < CompanyData.beta company_data
  /\ 0 <= CompanyData.interest_expense company_data
  /\ 0.10 <= CompanyData.tax_rate company_data <= 0.40
  /\ CompanyData.beta company_data
     = (if float_le (or_else (Stock.beta stock) 1) 0 then 1
        else or_else (Stock.beta stock) 1)
  /\ CompanyData.market_cap company_data
     = or_else (Stock.marketCap stock)
         (CompanyData.current_price company_data
          * CompanyData.shares_outstanding company_data)
  /\ CompanyData.total_debt company_data = or_else (Stock.totalDebt stock) 0.
Proof.
  unfold fetch_company_data. cbv zeta.
  destruct (py_or (py_or (Stock.currentPrice stock) (Stock.regularMarketPrice stock))
              (Stock.previousClose stock)) as [price|]; [|discriminate].
  destruct (float_le price 0) eqn:Hprice; [discriminate|].
  apply float_le_false_iff in Hprice.
  destruct (py_or (Stock.sharesOutstanding stock)
              (Stock.impliedSharesOutstanding stock)) as [shares|]; [|discriminate].
  destruct (float_le shares 0) eqn:Hshares; [discriminate|].
  apply float_le_false_iff in Hshares.
  destruct (Stock.cashflow stock) as [cash_flow_df|]; [|discriminate].
  destruct (Pandas.empty cash_flow_df); [discriminate|].
  destruct (len (_extract_free_cash_flows cash_flow_df) <? 2)%Z eqn:Hlen;
    [discriminate|].
  apply len_ge_2 in Hlen.
  destruct (tax_rate_cases (Stock.income_stmt stock)) as (rate & -> & Hrate & _).
  cbn [bind ret]. intros H. injection H as <-.
  cbn [CompanyData.ticker CompanyData.name CompanyData.sector
       CompanyData.current_price CompanyData.shares_outstanding
       CompanyData.historical_fcf CompanyData.beta CompanyData.interest_expense
       CompanyData.tax_rate CompanyData.market_cap CompanyData.total_debt].
  repeat split; try assumption; try lra.
  - eexists. split; [reflexivity | exact Hlen].
  - apply fetched_beta_positive.
  - apply interest_expense_nonneg.
Qed.

End Fetch.

(** X28.  Every record [fetch_company_data] returns has the ticker it was
    asked for, a positive price, a positive share count, at least two FCF
    values, a positive beta (the one of Yahoo Finance when that is
    positive, 1 when it is missing, zero or negative), a non-negative
    interest expense and a tax rate in [0.10, 0.40]. *)
Theorem fetch_company_data_well_formed (ticker : string) (stock : Stock.t)
    (company_data : CompanyData.t) :
  fetch_company_data ticker stock = Some company_data ->
  CompanyData.ticker company_data = Some ticker
  /\ 0 < CompanyData.current_price company_data
  /\ 0 < CompanyData.shares_outstanding company_data
  /\ (exists historical_fcf,
        CompanyData.historical_fcf company_data = Some historical_fcf
        /\ (2 <= List.length historical_fcf)%nat)
  /\ 0 < CompanyData.beta company_data
  /\ (forall b, Stock.beta stock = Some b -> 0 < b ->
        CompanyData.beta company_data = b)
  /\ (Stock.beta stock = None \/ (exists b, Stock.beta stock = Some b /\ b <= 0) ->
      CompanyData.beta company_data = 1)
  /\ 0 <= CompanyData.interest_expense company_data
  /\ 0.10 <= CompanyData.tax_rate company_data <= 0.40.
Proof.
  intros H. destruct (fetch_company_data_inv ticker stock company_data H)
    as (H1 & _ & _ & H4 & H5 & H6 & H7 & H8 & H9 & Hbeta & _).
  split; [exact H1|]. split; [exact H4|]. split; [exact H5|]. split; [exact H6|].
  split; [exact H7|]. split; [|split; [|split; [exact H8 | exact H9]]].
  - intros b Hb Hpos. rewrite Hbeta, Hb. unfold or_else, py_or.
    decide_cmp (float_eq b 0). decide_cmp (float_le b 0). reflexivity.
  - intros Hcase. rewrite Hbeta.
    destruct Hcase as [-> | (b & -> & Hb)]; unfold or_else, py_or.
    + decide_cmp (float_le 1 0). reflexivity.
    + destruct (float_eq b 0).
      * decide_cmp (float_le 1 0). reflexivity.
      * decide_cmp (float_le b 0). reflexivity.
Qed.

Lemma sample_stock_fetched :
  exists company_data,
    fetch_company_data "TEST" sample_stock = Some company_data.
Proof.
  unfold fetch_company_data, sample_stock. cbv zeta.
  cbn [Stock.currentPrice Stock.regularMarketPrice Stock.previousClose
       Stock.sharesOutstanding Stock.impliedSharesOutstanding Stock.cashflow
       Stock.income_stmt Stock.beta Stock.marketCap Stock.totalDebt
       Stock.longName Stock.sector].
  cbn [py_or]. decide_cmp (float_eq 150 0). cbn [py_or].
  decide_cmp (float_eq 150 0). decide_cmp (float_le 150 0).
  decide_cmp (float_eq 1000000000 0). decide_cmp (float_le 1000000000 0).
  cbn [Pandas.empty].
  match goal with
  | |- context [(len ?l <? 2)%Z] => replace (len l <? 2)%Z with false by reflexivity
  end.
  cbn [_estimate_tax_rate bind ret]. eexists. reflexivity.
Qed.

Lemma fetch_company_data_well_formed_witness :
  exists company_data,
    fetch_company_data "TEST" sample_stock = Some company_data
    /\ CompanyData.ticker company_data = Some "TEST"%string
    /\ 0 < CompanyData.current_price company_data
    /\ 0 < CompanyData.shares_outstanding company_data
    /\ CompanyData.beta company_data = 1.
Proof.
  destruct sample_stock_fetched as (d & Hd).
  destruct (fetch_company_data_well_formed "TEST" sample_stock d Hd)
    as (H1 & H2 & H3 & _ & _ & _ & Hbeta & _).
  exists d. split; [exact Hd|]. split; [exact H1|]. split; [exact H2|].
  split; [exact H3|]. apply Hbeta. now left.
Defined.

(** X29.  For every record [fetch_company_data] returns with positive
    capital or a beta of at most [1e40] (discount factors within the float
    range), [calculate_intrinsic_value] raises nothing: it answers "no
    result" when the most recent FCF is 0, and otherwise a valuation from
    which [build_valuation_row] builds a row, under the ticker asked for
    and with the fetched price rounded to cents. *)
Theorem fetched_company_is_valued (ticker : string) (stock : Stock.t)
    (company_data : CompanyData.t) :
  fetch_company_data ticker stock = Some company_data ->
  0 < CompanyData.market_cap company_data + CompanyData.total_debt company_data
  \/ CompanyData.beta company_data <= 10 ^ 40 ->
  exists historical_fcf,
    CompanyData.historical_fcf company_data = Some historical_fcf
    /\ (List.last historical_fcf 0 = 0 ->
        calculate_intrinsic_value company_data = Ok None)
    /\ (List.last historical_fcf 0 <> 0 ->
        exists valuation row,
          calculate_intrinsic_value company_data = Ok (Some valuation)
          /\ build_valuation_row valuation = Ok (Some row)
          /\ Row.Ticker row = ticker
          /\ Row.Current_Price row
             = round (CompanyData.current_price company_data) 2).
Proof.
  intros Hfetch Hbound.
  destruct (fetch_company_data_inv ticker stock company_data Hfetch)
    as (Hticker & _ & _ & Hprice & Hshares & (h & Hh & Hlen) & Hbeta & _).
  exists h. split; [exact Hh|].
  assert (Hget : get (CompanyData.historical_fcf company_data) [] = h)
    by now rewrite Hh.
  split.
  - intros Hz. apply intrinsic_value_zero_base. now rewrite Hget.
  - intros Hnz.
    destruct (intrinsic_value_run company_data)
      as (g & w & _ & _ & _ & _ & Hrun); rewrite ?Hget; try assumption.
    { destruct h; [simpl in Hlen; lia | discriminate]. }
    specialize (Hrun Hshares). cbv zeta in Hrun.
    do 2 eexists. split; [exact Hrun|].
    split; [apply build_valuation_row_some; cbn; exact Hprice|].
    cbv zeta. cbn. rewrite Hticker. split; reflexivity.
Qed.

Lemma sample_stock_capital (company_data : CompanyData.t) :
  fetch_company_data "TEST" sample_stock = Some company_data ->
  0 < CompanyData.market_cap company_data + CompanyData.total_debt company_data.
Proof.
  intros Hd.
  destruct (fetch_company_data_inv "TEST" sample_stock company_data Hd)
    as (_ & _ & _ & Hprice & Hshares & _ & _ & _ & _ & _ & -> & ->).
  cbn [sample_stock Stock.marketCap Stock.totalDebt or_else py_or].
  decide_cmp (float_eq 0 0).
  pose proof (Rmult_lt_0_compat _ _ Hprice Hshares). lra.
Qed.

Lemma fetched_company_is_valued_witness :
  exists company_data historical_fcf,
    fetch_company_data "TEST" sample_stock = Some company_data
    /\ CompanyData.historical_fcf company_data = Some historical_fcf
    /\ (List.last historical_fcf 0 = 0 ->
        calculate_intrinsic_value company_data = Ok None).
Proof.
  destruct sample_stock_fetched as (d & Hd).
  destruct (fetched_company_is_valued "TEST" sample_stock d Hd)
    as (h & Hh & Hzero & _).
  - left. exact (sample_stock_capital d Hd).
  - exists d, h. split; [exact Hd|]. split; [exact Hh | exact Hzero].
Defined.

Section Pipeline.

Variable yf_Ticker : string -> Stock.t.
Variable delay : R.

Lemma sleep_range : 10 ^ 9 * 10 ^ 9 < 2 ^ 63.
Proof.
  replace 2 with (IZR 2) by reflexivity. replace 10 with (IZR 10) by reflexivity.
  rewrite !pow_IZR, <- mult_IZR. apply IZR_lt. reflexivity.
Qed.

Lemma sleep_ok : 0 <= delay <= 10 ^ 9 -> Py.sleep delay = Ok tt.
Proof.
  intros Hdelay. unfold Py.sleep. pose proof sleep_range as Hr.
  assert (Hp : 0 < 10 ^ 9) by (apply pow_lt; lra).
  rewrite Rabs_pos_eq by lra.
  assert (delay * 10 ^ 9 < 2 ^ 63) by nra.
  decide_cmp (float_ge (delay * 10 ^ 9) (2 ^ 63)).
  decide_cmp (float_lt delay 0). reflexivity.
Qed.

Lemma sleep_negative : - 10 ^ 9 <= delay < 0 -> Py.sleep delay = Raise ValueError.
Proof.
  intros Hdelay. unfold Py.sleep. pose proof sleep_range as Hr.
  assert (Hp : 0 < 10 ^ 9) by (apply pow_lt; lra).
  rewrite Rabs_left by lra.
  assert (- delay * 10 ^ 9 < 2 ^ 63) by nra.
  decide_cmp (float_ge (- delay * 10 ^ 9) (2 ^ 63)).
  decide_cmp (float_lt delay 0). reflexivity.
Qed.

Lemma fetch_sp500_loop_ok (tickers : list string) :
  0 <= delay <= 10 ^ 9 ->
  forall results,
    exists fetched,
      fetch_sp500_loop yf_Ticker tickers delay results = Ok (results ++ fetched)
      /\ (List.length fetched <= List.length tickers)%nat
      /\ Forall (fun d => exists ticker,
                   In ticker tickers
                   /\ fetch_company_data ticker (yf_Ticker ticker) = Some d)
                fetched.
Proof.
  intros Hdelay. induction tickers as [|ticker rest IH]; intros results;
    cbn [fetch_sp500_loop].
  - exists []. rewrite app_nil_r.
    split; [reflexivity|]. split; [cbn; lia | constructor].
  - rewrite sleep_ok by exact Hdelay. cbn [bind].
    destruct (fetch_company_data ticker (yf_Ticker ticker)) as [d|] eqn:Hd.
    + destruct (IH (results ++ [d])) as (fetched & Heq & Hlen & Hin).
      exists (d :: fetched).
      split; [rewrite Heq, <- app_assoc; reflexivity|].
      split; [cbn; lia|].
      constructor.
      * exists ticker. split; [now left | exact Hd].
      * eapply Forall_impl; [|exact Hin].
        intros d' (t & Ht & Hf). exists t. split; [now right | exact Hf].
    + destruct (IH results) as (fetched & Heq & Hlen & Hin).
      exists fetched.
      split; [exact Heq|]. split; [cbn; lia|].
      eapply Forall_impl; [|exact Hin].
      intros d' (t & Ht & Hf). exists t. split; [now right | exact Hf].
Qed.

(** A negative delay stops the loop at the end of its first pass. *)
Lemma fetch_sp500_loop_negative_delay (tickers : list string) :
  - 10 ^ 9 <= delay < 0 -> tickers <> [] ->
  forall results,
    fetch_sp500_loop yf_Ticker tickers delay results = Raise ValueError.
Proof.
  intros Hdelay Hne results. destruct tickers as [|ticker rest]; [congruence|].
  cbn [fetch_sp500_loop]. now rewrite sleep_negative.
Qed.

End Pipeline.

(** X30.  With a delay from 0 to [1e9] seconds, whatever the remote
    service answers for the tickers, [fetch_sp500_data] returns at most one
    record per ticker, each one a record [fetch_company_data] returned for
    a ticker of the list; and when each of them has positive capital or a
    beta of at most [1e40], the loop of [run_valuation] over them raises
    nothing and yields at most one row per ticker, each under a ticker of
    the list: a company without data costs its own row only.  With a
    negative delay (down to [-1e9] seconds) and at least one ticker,
    [fetch_sp500_data] raises [ValueError] from [time.sleep] at the end of
    its first pass. *)
Theorem run_valuation_on_fetched_data (yf_Ticker : string -> Stock.t)
    (tickers : list string) (delay : R) :
  (0 <= delay <= 10 ^ 9 ->
   exists company_data_list,
     fetch_sp500_data yf_Ticker tickers delay = Ok company_data_list
     /\ (List.length company_data_list <= List.length tickers)%nat
     /\ Forall (fun d => exists ticker,
                  In ticker tickers
                  /\ fetch_company_data ticker (yf_Ticker ticker) = Some d)
               company_data_list
     /\ (Forall (fun d => 0 < CompanyData.market_cap d + CompanyData.total_debt d
                          \/ CompanyData.beta d <= 10 ^ 40)
                company_data_list ->
         exists rows,
           run_valuation_rows company_data_list [] = Ok rows
           /\ (List.length rows <= List.length tickers)%nat
           /\ Forall (fun row => In (Row.Ticker row) tickers) rows))
  /\ (- 10 ^ 9 <= delay < 0 -> tickers <> [] ->
      fetch_sp500_data yf_Ticker tickers delay = Raise ValueError).
Proof.
  unfold fetch_sp500_data. split.
  - intros Hdelay.
    destruct (fetch_sp500_loop_ok yf_Ticker delay tickers Hdelay [])
      as (fetched & Heq & Hlen & Hin).
    cbn [app] in Heq. exists fetched.
    split; [exact Heq|]. split; [exact Hlen|]. split; [exact Hin|].
    intros Hbound.
    assert (Hwf : Forall (fun d => 0 < CompanyData.beta d
                            /\ (0 < CompanyData.market_cap d
                                    + CompanyData.total_debt d
                                \/ CompanyData.beta d <= 10 ^ 40)) fetched).
    { rewrite Forall_forall in *. intros d Hd. split; [|now apply Hbound].
      destruct (Hin d Hd) as (ticker & _ & Hf).
      now destruct (fetch_company_data_inv ticker _ d Hf)
        as (_ & _ & _ & _ & _ & _ & Hbeta & _). }
    destruct (run_valuation_rows_well_formed fetched Hwf [])
      as (rows & Hrun & Htickers).
    cbn [app] in Hrun. exists rows. split; [exact Hrun|].
    assert (Hsub : forall t, In t (map Row.Ticker rows) -> In t tickers).
    { intros t Ht. rewrite Htickers in Ht. apply in_map_iff in Ht.
      destruct Ht as (d & <- & Hd). apply filter_In in Hd. destruct Hd as [Hd _].
      rewrite Forall_forall in Hin. destruct (Hin d Hd) as (ticker & Htin & Hf).
      destruct (fetch_company_data_inv ticker _ d Hf) as (-> & _).
      exact Htin. }
    split.
    + rewrite <- (length_map Row.Ticker), Htickers, length_map.
      pose proof (filter_length_le yields_row fetched). lia.
    + rewrite Forall_forall. intros row Hrow. apply Hsub.
      now apply in_map.
  - intros Hdelay Hne. now apply fetch_sp500_loop_negative_delay.
Qed.

Lemma run_valuation_on_fetched_data_witness :
  exists company_data_list rows,
    fetch_sp500_data (fun _ => sample_stock) ["TEST"%string] 0.5
    = Ok company_data_list
    /\ run_valuation_rows company_data_list [] = Ok rows
    /\ (List.length rows <= 1)%nat.
Proof.
  destruct (run_valuation_on_fetched_data (fun _ => sample_stock)
              ["TEST"%string] 0.5) as [Hok _].
  assert (Hdelay : 0 <= 0.5 <= 10 ^ 9) by (simpl; lra).
  destruct (Hok Hdelay) as (l & Hl & _ & Hin & Hrows).
  destruct Hrows as (rows & Hrun & Hlen & _).
  - rewrite Forall_forall in *. intros d Hd.
    destruct (Hin d Hd) as (ticker & [<- | []] & Hf).
    left. exact (sample_stock_capital d Hf).
  - exists l, rows. split; [exact Hl|]. split; [exact Hrun | exact Hlen].
Defined.
